(** * PhysicsLearn / CivilEye: the drawing model, the 2D-to-3D extrusion,
      the p5 simulations and the contact form, embedded in Rocq.

    JavaScript numbers are read as real numbers ([R]): the development is
    about the formulas of the program, not about IEEE rounding.  Where a
    division by zero is within reach of the user, in snapping to a grid
    of size zero, the numbers with infinity and NaN ([JS.number]) are
    used beside the reals.  Arrays are lists, objects used as records are records,
    [localStorage] is a [gmap] from keys to documents, the entries of a
    form are a list of key/value pairs in insertion order, and a function
    that can throw returns a [result]. *)

From Stdlib Require Import Reals Lra Lia ZArith String Ascii.
From stdpp Require Import base option list strings gmap.

Set Warnings "-clear-no-such-hyp".

Local Open Scope string_scope.
Local Open Scope list_scope.
Local Open Scope R_scope.

(** ** JavaScript built-ins used by the program *)

Module JS.

(** [Math.round]: the nearest integer, ties towards plus infinity. *)
Definition round (v : R) : R := IZR (Zfloor (v + / 2)).

(** [Math.atan2 (dy, dx)]: the angle of the vector [(dx, dy)], in
    [(-PI, PI]]. *)
Definition atan2 (dy dx : R) : R :=
  if Rlt_dec 0 dx then atan (dy / dx)
  else if Rlt_dec dx 0 then
    (if Rle_dec 0 dy then atan (dy / dx) + PI else atan (dy / dx) - PI)
  else if Rlt_dec 0 dy then PI / 2
  else if Rlt_dec dy 0 then - (PI / 2)
  else 0.

(** The outcome of a call that may throw. *)
Inductive result (A : Type) : Type :=
| Ok (a : A)
| Throw (message : string).
Global Arguments Ok {A} a.
Global Arguments Throw {A} message.

(** [a || b] on an optional number: a missing value and [0] are falsy. *)
Definition or_default (a : option R) (b : R) : R :=
  match a with
  | Some v => if Req_dec_T v 0 then b else v
  | None => b
  end.

(** A number where the arithmetic leaves the reals: a real number, an
    infinity (of either sign) or [NaN]. *)
Inductive number : Type :=
| Finite (r : R)
| Infinite
| NaN.

(** [a / b]: a number other than zero divided by zero is an infinity,
    zero by zero and infinity by infinity are [NaN]. *)
Definition div (a b : number) : number :=
  match a, b with
  | NaN, _ | _, NaN => NaN
  | Finite x, Finite y =>
      if Req_dec_T y 0
      then (if Req_dec_T x 0 then NaN else Infinite)
      else Finite (x / y)
  | Finite _, Infinite => Finite 0
  | Infinite, Finite _ => Infinite
  | Infinite, Infinite => NaN
  end.

(** [Math.round] leaves an infinity and [NaN] as they are. *)
Definition roundNumber (a : number) : number :=
  match a with
  | Finite x => Finite (round x)
  | Infinite => Infinite
  | NaN => NaN
  end.

(** [a * b]: an infinity times zero is [NaN]. *)
Definition mul (a b : number) : number :=
  match a, b with
  | NaN, _ | _, NaN => NaN
  | Finite x, Finite y => Finite (x * y)
  | Finite x, Infinite | Infinite, Finite x =>
      if Req_dec_T x 0 then NaN else Infinite
  | Infinite, Infinite => Infinite
  end.

End JS.

(** ** Points and drawn objects (DrawingCanvas.js, [handleMouseUp]) *)

Record point : Type := Point { px : R; py : R }.

Record drawing_settings : Type := DrawingSettings {
  strokeColor : string;
  fillColor : string;
  strokeWidth : R;
  opacity : R
}.

Record measurement_settings : Type := MeasurementSettings {
  unit : string;
  precision : Z
}.

Record wall_settings : Type := WallSettings {
  wall_height : R;      (* feet *)
  wall_thickness : R;   (* inches *)
  wall_material : string
}.

Record rect : Type := Rect { x : R; y : R; width : R; height : R }.

(** The [type] tag of a drawn object together with its coordinates. *)
Inductive shape : Type :=
| line (points : list point)
| rectangle (r : rect)
| circle (cx cy radius : R)
| polygon (points : list point)
| freehand (points : list point).

Record drawnObject : Type := DrawnObject {
  id : Z;
  obj_shape : shape;
  settings : drawing_settings
}.

(** ** Building3D: extrusion of the 2D objects into a scene graph *)

Module Building3D.

Definition vec3 : Type := (R * R * R)%type.

Inductive geometry : Type :=
| boxGeometry (w h d : R)          (* extents along X, Y (up) and Z *)
| planeGeometry (w h : R).

Record mesh : Type := Mesh {
  position : vec3;
  rotation : vec3;
  geom : geometry;
  color : string
}.

(** The text of a dimension label: a number printed by [toFixed] with
    the given number of digits, or printed as it is. *)
Inductive label : Type :=
| toFixed_ft (v : R) (digits : nat)
| plain_ft (v : R).

#[warnings="-register-all"]
Inductive node : Type :=
| MeshNode (m : mesh)
| TextNode (pos : vec3) (l : label)
| Group (key : string * nat) (children : list node).

Definition getMaterialColor (material : string) : string :=
  if decide (material = "concrete") then "#A0A0A0"
  else if decide (material = "brick") then "#B87333"
  else if decide (material = "wood") then "#8B4513"
  else if decide (material = "steel") then "#C0C0C0"
  else if decide (material = "glass") then "#87CEEB"
  else "#A0A0A0".

Definition no_rotation : vec3 := (0, 0, 0).

(** The "Main wall" mesh of [createWall]. *)
Definition mainWall (obj : rect) (ws : wall_settings) : mesh :=
  let thickness := wall_thickness ws / 12 in
  let height_ := wall_height ws in
  {| position := (x obj + width obj / 2, height_ / 2, y obj + height obj / 2);
     rotation := no_rotation;
     geom := boxGeometry (Rabs (width obj)) height_ thickness;
     color := getMaterialColor (wall_material ws) |}.

(** The "Floor" mesh of [createWall]. *)
Definition wallFloor (obj : rect) (ws : wall_settings) : mesh :=
  let thickness := wall_thickness ws / 12 in
  {| position := (x obj + width obj / 2, 0, y obj + height obj / 2);
     rotation := no_rotation;
     geom := boxGeometry (Rabs (width obj)) (1 / 10) thickness;
     color := "#8B4513" |}.

Definition createWall (obj : rect) (ws : wall_settings) (index : nat)
    (showDimensions : bool) : node :=
  let height_ := wall_height ws in
  Group ("wall", index)
    ([MeshNode (mainWall obj ws); MeshNode (wallFloor obj ws)] ++
     (if showDimensions then
        [Group ("dimensions", index)
           [TextNode (x obj + width obj / 2, height_ + 2, y obj)
                     (toFixed_ft (width obj) 1);
            TextNode (x obj - 3, height_ / 2, y obj + height obj / 2)
                     (plain_ft height_)]]
      else [])).

(** The "Wall segment" and "Floor segment" meshes between two points. *)
Definition segmentLength (start end_ : point) : R :=
  sqrt ((px end_ - px start) ^ 2 + (py end_ - py start) ^ 2).

Definition segmentAngle (start end_ : point) : R :=
  JS.atan2 (py end_ - py start) (px end_ - px start).

Definition wallSegment (start end_ : point) (ws : wall_settings) : mesh :=
  let thickness := wall_thickness ws / 12 in
  let height_ := wall_height ws in
  {| position := ((px start + px end_) / 2, height_ / 2, (py start + py end_) / 2);
     rotation := (0, - segmentAngle start end_, 0);
     geom := boxGeometry (segmentLength start end_) height_ thickness;
     color := getMaterialColor (wall_material ws) |}.

Definition floorSegment (start end_ : point) (ws : wall_settings) : mesh :=
  let thickness := wall_thickness ws / 12 in
  {| position := ((px start + px end_) / 2, 0, (py start + py end_) / 2);
     rotation := (0, - segmentAngle start end_, 0);
     geom := boxGeometry (segmentLength start end_) (1 / 10) thickness;
     color := "#8B4513" |}.

(** [createLine] reads [obj.points[0]] and [obj.points[1]]; reading a
    coordinate of a missing point throws a TypeError. *)
Definition createLine (points : list point) (ws : wall_settings) (index : nat)
    (showDimensions : bool) : JS.result node :=
  match points !! 0%nat, points !! 1%nat with
  | Some start, Some end_ =>
      let height_ := wall_height ws in
      JS.Ok (Group ("line", index)
        ([MeshNode (wallSegment start end_ ws);
          MeshNode (floorSegment start end_ ws)] ++
         (if showDimensions then
            [TextNode ((px start + px end_) / 2, height_ + 2, (py start + py end_) / 2)
                      (toFixed_ft (segmentLength start end_) 1)]
          else [])))
  | _, _ => JS.Throw "TypeError: Cannot read properties of undefined"
  end.

(** [createPolygonWall]: one wall and floor segment from every point to
    the next one, cyclically, and a 100 x 100 floor plane at the origin. *)
Definition createPolygonWall (points : list point) (ws : wall_settings)
    (index : nat) (showDimensions : bool) : node :=
  Group ("polygon", index)
    (imap (fun pointIndex p =>
             let nextPoint :=
               default p (points !! ((pointIndex + 1) mod length points)%nat) in
             Group ("segment", pointIndex)
               [MeshNode (wallSegment p nextPoint ws);
                MeshNode (floorSegment p nextPoint ws)])
          points ++
     [MeshNode {| position := (0, 0, 0); rotation := no_rotation;
                  geom := planeGeometry 100 100; color := "#8B4513" |}]).

(** The [switch] of [Building3D] with [.filter(Boolean)]: objects of
    another type produce nothing. *)
Definition convert (ws : wall_settings) (showDimensions : bool)
    (index : nat) (obj : drawnObject) : JS.result (option node) :=
  match obj_shape obj with
  | rectangle r => JS.Ok (Some (createWall r ws index showDimensions))
  | line pts =>
      match createLine pts ws index showDimensions with
      | JS.Ok n => JS.Ok (Some n)
      | JS.Throw m => JS.Throw m
      end
  | polygon pts => JS.Ok (Some (createPolygonWall pts ws index showDimensions))
  | _ => JS.Ok None
  end.

(** [buildingComponents]: every object converted with its index, the
    objects that produce nothing left out; an exception ends the
    conversion. *)
Fixpoint convertFrom (ws : wall_settings) (showDimensions : bool)
    (index : nat) (objects : list drawnObject) : JS.result (list node) :=
  match objects with
  | [] => JS.Ok []
  | obj :: objects' =>
      match convert ws showDimensions index obj with
      | JS.Throw m => JS.Throw m
      | JS.Ok component =>
          match convertFrom ws showDimensions (S index) objects' with
          | JS.Throw m => JS.Throw m
          | JS.Ok components => JS.Ok (option_list component ++ components)
          end
      end
  end.

Definition buildingComponents (objects : list drawnObject) (ws : wall_settings)
    (showDimensions : bool) : JS.result (list node) :=
  convertFrom ws showDimensions 0 objects.

(** The two horizontal extents (along X and along Z) of a mesh's box. *)
Definition footprint (m : mesh) : R * R :=
  match geom m with
  | boxGeometry w _ d => (w, d)
  | planeGeometry w h => (w, h)
  end.


(** All meshes of a scene node, in document order. *)
Fixpoint meshes (n : node) : list mesh :=
  match n with
  | MeshNode m => [m]
  | TextNode _ _ => []
  | Group _ children => flat_map meshes children
  end.

(** A rotation by [theta] about the vertical (Y) axis, as the scene graph
    applies [rotation = [0, theta, 0]] to a local vector. *)
Definition rotateY (theta : R) (v : vec3) : vec3 :=
  let '(vx, vy, vz) := v in
  (vx * cos theta + vz * sin theta, vy, - vx * sin theta + vz * cos theta).

(** The point of a box at the end of its length (local X) axis, in world
    coordinates: [side] is [1] for the positive end and [-1] for the
    negative one. *)
Definition lengthAxisEnd (side : R) (m : mesh) : vec3 :=
  let '(cx, cy, cz) := position m in
  let '(ax, ay, az) := rotateY (rotation m).1.2 (side * (footprint m).1 / 2, 0, 0) in
  (cx + ax, cy + ay, cz + az).

(** The objects the [switch] of [Building3D] has a case for. *)
Definition isExtruded (obj : drawnObject) : bool :=
  match obj_shape obj with
  | rectangle _ | line _ | polygon _ => true
  | _ => false
  end.

(** A line object without two points, on which [createLine] throws. *)
Definition isBrokenLine (obj : drawnObject) : Prop :=
  exists points, obj_shape obj = line points /\ (length points < 2)%nat.

End Building3D.

(** ** useDrawingContext: the drawing state and its reducer *)

Module DrawingContext.

(** [DRAWING_TOOLS] *)
Inductive tool : Type :=
| SELECT | LINE | RECTANGLE | CIRCLE | POLYGON | FREEHAND | MEASURE | TEXT.

Record size2 : Type := Size2 { size_width : R; size_height : R }.

Record state : Type := State {
  activeTool : tool;
  isDrawing : bool;
  currentPath : option (list point);
  objects : list drawnObject;
  selectedObjects : list Z;
  canvasSize : size2;
  gridSize : R;
  snapToGrid : bool;
  showGrid : bool;
  zoom : R;
  panOffset : point;
  drawingSettings : drawing_settings;
  measurementSettings : measurement_settings;
  wallSettings : wall_settings
}.

Definition initialState : state :=
  {| activeTool := SELECT;
     isDrawing := false;
     currentPath := None;
     objects := [];
     selectedObjects := [];
     canvasSize := Size2 800 600;
     gridSize := 20;
     snapToGrid := true;
     showGrid := true;
     zoom := 1;
     panOffset := Point 0 0;
     drawingSettings := DrawingSettings "#000000" "transparent" 2 1;
     measurementSettings := MeasurementSettings "feet" 2;
     wallSettings := WallSettings 10 6 "concrete" |}.

(** Partial settings objects, merged by [{ ...old, ...payload }]. *)
Record drawingUpdate : Type := DrawingUpdate {
  u_strokeColor : option string;
  u_fillColor : option string;
  u_strokeWidth : option R;
  u_opacity : option R
}.

Record measurementUpdate : Type := MeasurementUpdate {
  u_unit : option string;
  u_precision : option Z
}.

Record wallUpdate : Type := WallUpdate {
  u_height : option R;
  u_thickness : option R;
  u_material : option string
}.

Record objectUpdate : Type := ObjectUpdate {
  u_id : option Z;
  u_shape : option shape;
  u_settings : option drawing_settings
}.

Definition mergeDrawing (old : drawing_settings) (u : drawingUpdate) : drawing_settings :=
  {| strokeColor := default (strokeColor old) (u_strokeColor u);
     fillColor := default (fillColor old) (u_fillColor u);
     strokeWidth := default (strokeWidth old) (u_strokeWidth u);
     opacity := default (opacity old) (u_opacity u) |}.

Definition mergeMeasurement (old : measurement_settings) (u : measurementUpdate)
    : measurement_settings :=
  {| unit := default (unit old) (u_unit u);
     precision := default (precision old) (u_precision u) |}.

Definition mergeWall (old : wall_settings) (u : wallUpdate) : wall_settings :=
  {| wall_height := default (wall_height old) (u_height u);
     wall_thickness := default (wall_thickness old) (u_thickness u);
     wall_material := default (wall_material old) (u_material u) |}.

Definition mergeObject (old : drawnObject) (u : objectUpdate) : drawnObject :=
  {| id := default (id old) (u_id u);
     obj_shape := default (obj_shape old) (u_shape u);
     settings := default (settings old) (u_settings u) |}.

(** [ACTION_TYPES] with the payload each action carries; [OTHER] is an
    action of a type the reducer does not know. *)
Inductive action : Type :=
| SET_ACTIVE_TOOL (payload : tool)
| SET_DRAWING_STATE (isDrawing_ : bool) (currentPath_ : option (list point))
| ADD_OBJECT (payload : drawnObject)
| UPDATE_OBJECT (id_ : Z) (updates : objectUpdate)
| DELETE_OBJECT (payload : Z)
| SELECT_OBJECT (payload : Z)
| CLEAR_SELECTION
| SET_CANVAS_SIZE (payload : size2)
| SET_GRID_SETTINGS (gridSize_ : R) (snapToGrid_ showGrid_ : bool)
| SET_ZOOM (payload : R)
| SET_PAN (payload : point)
| UPDATE_DRAWING_SETTINGS (payload : drawingUpdate)
| UPDATE_MEASUREMENT_SETTINGS (payload : measurementUpdate)
| UPDATE_WALL_SETTINGS (payload : wallUpdate)
| CLEAR_CANVAS
| OTHER (type_ : string).

(** Record update, one setter per field that the reducer overwrites. *)
Definition set_activeTool (v : tool) (s : state) : state :=
  State v (isDrawing s) (currentPath s) (objects s) (selectedObjects s)
    (canvasSize s) (gridSize s) (snapToGrid s) (showGrid s) (zoom s)
    (panOffset s) (drawingSettings s) (measurementSettings s) (wallSettings s).
Definition set_isDrawing (v : bool) (s : state) : state :=
  State (activeTool s) v (currentPath s) (objects s) (selectedObjects s)
    (canvasSize s) (gridSize s) (snapToGrid s) (showGrid s) (zoom s)
    (panOffset s) (drawingSettings s) (measurementSettings s) (wallSettings s).
Definition set_currentPath (v : option (list point)) (s : state) : state :=
  State (activeTool s) (isDrawing s) v (objects s) (selectedObjects s)
    (canvasSize s) (gridSize s) (snapToGrid s) (showGrid s) (zoom s)
    (panOffset s) (drawingSettings s) (measurementSettings s) (wallSettings s).
Definition set_objects (v : list drawnObject) (s : state) : state :=
  State (activeTool s) (isDrawing s) (currentPath s) v (selectedObjects s)
    (canvasSize s) (gridSize s) (snapToGrid s) (showGrid s) (zoom s)
    (panOffset s) (drawingSettings s) (measurementSettings s) (wallSettings s).
Definition set_selectedObjects (v : list Z) (s : state) : state :=
  State (activeTool s) (isDrawing s) (currentPath s) (objects s) v
    (canvasSize s) (gridSize s) (snapToGrid s) (showGrid s) (zoom s)
    (panOffset s) (drawingSettings s) (measurementSettings s) (wallSettings s).
Definition set_canvasSize (v : size2) (s : state) : state :=
  State (activeTool s) (isDrawing s) (currentPath s) (objects s) (selectedObjects s)
    v (gridSize s) (snapToGrid s) (showGrid s) (zoom s)
    (panOffset s) (drawingSettings s) (measurementSettings s) (wallSettings s).
Definition set_grid (g : R) (snap show : bool) (s : state) : state :=
  State (activeTool s) (isDrawing s) (currentPath s) (objects s) (selectedObjects s)
    (canvasSize s) g snap show (zoom s)
    (panOffset s) (drawingSettings s) (measurementSettings s) (wallSettings s).
Definition set_zoom (v : R) (s : state) : state :=
  State (activeTool s) (isDrawing s) (currentPath s) (objects s) (selectedObjects s)
    (canvasSize s) (gridSize s) (snapToGrid s) (showGrid s) v
    (panOffset s) (drawingSettings s) (measurementSettings s) (wallSettings s).
Definition set_panOffset (v : point) (s : state) : state :=
  State (activeTool s) (isDrawing s) (currentPath s) (objects s) (selectedObjects s)
    (canvasSize s) (gridSize s) (snapToGrid s) (showGrid s) (zoom s)
    v (drawingSettings s) (measurementSettings s) (wallSettings s).
Definition set_drawingSettings (v : drawing_settings) (s : state) : state :=
  State (activeTool s) (isDrawing s) (currentPath s) (objects s) (selectedObjects s)
    (canvasSize s) (gridSize s) (snapToGrid s) (showGrid s) (zoom s)
    (panOffset s) v (measurementSettings s) (wallSettings s).
Definition set_measurementSettings (v : measurement_settings) (s : state) : state :=
  State (activeTool s) (isDrawing s) (currentPath s) (objects s) (selectedObjects s)
    (canvasSize s) (gridSize s) (snapToGrid s) (showGrid s) (zoom s)
    (panOffset s) (drawingSettings s) v (wallSettings s).
Definition set_wallSettings (v : wall_settings) (s : state) : state :=
  State (activeTool s) (isDrawing s) (currentPath s) (objects s) (selectedObjects s)
    (canvasSize s) (gridSize s) (snapToGrid s) (showGrid s) (zoom s)
    (panOffset s) (drawingSettings s) (measurementSettings s) v.

(** [Array.prototype.includes] on a list of ids. *)
Definition includes (l : list Z) (k : Z) : bool := bool_decide (k ∈ l).

Definition drawingReducer (s : state) (a : action) : state :=
  match a with
  | SET_ACTIVE_TOOL payload =>
      set_selectedObjects [] (set_activeTool payload s)
  | SET_DRAWING_STATE isDrawing_ currentPath_ =>
      set_currentPath currentPath_ (set_isDrawing isDrawing_ s)
  | ADD_OBJECT payload =>
      set_currentPath None (set_objects (objects s ++ [payload]) s)
  | UPDATE_OBJECT id_ updates =>
      set_objects
        (map (fun obj => if decide (id obj = id_) then mergeObject obj updates else obj)
             (objects s)) s
  | DELETE_OBJECT payload =>
      set_selectedObjects (filter (fun i => i ≠ payload) (selectedObjects s))
        (set_objects (filter (fun obj => id obj ≠ payload) (objects s)) s)
  | SELECT_OBJECT payload =>
      let objectId := payload in
      let isSelected := includes (selectedObjects s) objectId in
      set_selectedObjects
        (if isSelected
         then filter (fun i => i ≠ objectId) (selectedObjects s)
         else selectedObjects s ++ [objectId]) s
  | CLEAR_SELECTION => set_selectedObjects [] s
  | SET_CANVAS_SIZE payload => set_canvasSize payload s
  | SET_GRID_SETTINGS g snap show => set_grid g snap show s
  | SET_ZOOM payload => set_zoom payload s
  | SET_PAN payload => set_panOffset payload s
  | UPDATE_DRAWING_SETTINGS payload =>
      set_drawingSettings (mergeDrawing (drawingSettings s) payload) s
  | UPDATE_MEASUREMENT_SETTINGS payload =>
      set_measurementSettings (mergeMeasurement (measurementSettings s) payload) s
  | UPDATE_WALL_SETTINGS payload =>
      set_wallSettings (mergeWall (wallSettings s) payload) s
  | CLEAR_CANVAS =>
      set_currentPath None (set_selectedObjects [] (set_objects [] s))
  | OTHER _ => s
  end.

(** The state after a sequence of dispatched actions. *)
Definition dispatchAll (s : state) (actions : list action) : state :=
  foldl drawingReducer s actions.

(** The action creators of [DrawingProvider] used below. *)
Definition addObject (object : drawnObject) (s : state) : state :=
  drawingReducer s (ADD_OBJECT object).

Definition deleteObject (k : Z) (s : state) : state :=
  drawingReducer s (DELETE_OBJECT k).

Definition selectObject (k : Z) (s : state) : state :=
  drawingReducer s (SELECT_OBJECT k).

(** [useDrawing]: the value of the context, or an exception when no
    [DrawingProvider] encloses the caller ([useContext] gives [undefined]). *)
Definition useDrawing (context : option state) : JS.result state :=
  match context with
  | None => JS.Throw "useDrawing must be used within a DrawingProvider"
  | Some c => JS.Ok c
  end.

End DrawingContext.

(** ** DrawingCanvas: snapping a mouse position to the grid *)

Module DrawingCanvas.

Import DrawingContext.

(** [snapToGridPoint] on real coordinates.  It computes what the code
    computes when the grid size is not zero; with a grid size of zero the
    code's quotient is no real number, see [Numbers.snapToGridPoint]. *)
Definition snapToGridPoint (ctx : state) (p : point) : point :=
  if negb (snapToGrid ctx) then p
  else
    {| px := JS.round (px p / gridSize ctx) * gridSize ctx;
       py := JS.round (py p / gridSize ctx) * gridSize ctx |}.

(** [snapToGridPoint] on JavaScript's numbers: the grid size is what the
    grid control stored, [parseInt] of its text, which may be zero or
    [NaN]. *)
Module Numbers.

Record point : Type := Point { x : JS.number; y : JS.number }.

Definition snapToGridPoint (snapToGrid : bool) (gridSize : JS.number)
    (point_ : point) : point :=
  if negb snapToGrid then point_
  else
    {| x := JS.mul (JS.roundNumber (JS.div (x point_) gridSize)) gridSize;
       y := JS.mul (JS.roundNumber (JS.div (y point_) gridSize)) gridSize |}.

End Numbers.

(** The object [handleMouseUp] adds while drawing, if any: [now] is
    the value of [Date.now()], [path] the points clicked so far and
    [snappedPos] the snapped position of the mouse. *)
Definition newObject (ctx : state) (now : Z) (path : list point)
    (snappedPos : point) : option drawnObject :=
  if negb (isDrawing ctx) then None else
  match activeTool ctx, path with
  | LINE, p0 :: _ =>
      Some (DrawnObject now (line [p0; snappedPos]) (drawingSettings ctx))
  | RECTANGLE, p0 :: _ =>
      Some (DrawnObject now
              (rectangle (Rect (px p0) (py p0)
                               (px snappedPos - px p0) (py snappedPos - py p0)))
              (drawingSettings ctx))
  | CIRCLE, p0 :: _ =>
      Some (DrawnObject now
              (circle (px p0) (py p0)
                 (sqrt ((px snappedPos - px p0) ^ 2 + (py snappedPos - py p0) ^ 2)))
              (drawingSettings ctx))
  | POLYGON, _ =>
      if decide (3 ≤ length path)%nat
      then Some (DrawnObject now (polygon (path ++ [snappedPos])) (drawingSettings ctx))
      else None
  | FREEHAND, _ =>
      if decide (2 ≤ length path)%nat
      then Some (DrawnObject now (freehand (path ++ [snappedPos])) (drawingSettings ctx))
      else None
  | _, _ => None
  end.

(** The canvas on the page: [canvas.getBoundingClientRect ()] and the
    drawing size [canvas.width], [canvas.height]. *)
Record viewport : Type := Viewport {
  rect_left : R;
  rect_top : R;
  rect_width : R;
  rect_height : R;
  canvas_width : R;
  canvas_height : R
}.

Record mouseEvent : Type := MouseEvent { clientX : R; clientY : R }.

Definition getMousePos (v : viewport) (e : mouseEvent) : point :=
  let scaleX := canvas_width v / rect_width v in
  let scaleY := canvas_height v / rect_height v in
  {| px := (clientX e - rect_left v) * scaleX;
     py := (clientY e - rect_top v) * scaleY |}.

(** The component between two events: the drawing context it reads and
    its own state ([mousePos], [startPos] and [currentPath]). *)
Record component : Type := Component {
  context : state;
  mousePos : point;
  startPos : option point;
  currentPath : list point
}.

(** [setDrawingState (isDrawing)], whose second argument defaults to
    [null]. *)
Definition setDrawingState (isDrawing_ : bool) (s : state) : state :=
  drawingReducer s (SET_DRAWING_STATE isDrawing_ None).

Definition handleMouseDown (v : viewport) (e : mouseEvent) (c : component)
    : component :=
  let pos := getMousePos v e in
  let snappedPos := snapToGridPoint (context c) pos in
  let begin :=
    Component (setDrawingState true (context c)) snappedPos (Some snappedPos)
      [snappedPos] in
  match activeTool (context c) with
  | LINE | RECTANGLE | CIRCLE => begin
  | POLYGON =>
      if negb (isDrawing (context c)) then begin
      else Component (context c) snappedPos (Some snappedPos)
             (currentPath c ++ [snappedPos])
  | FREEHAND => begin
  | _ => Component (context c) snappedPos (Some snappedPos) (currentPath c)
  end.

(** [handleMouseMove] redraws the canvas and remembers the position. *)
Definition handleMouseMove (v : viewport) (e : mouseEvent) (c : component)
    : component :=
  let pos := getMousePos v e in
  let snappedPos := snapToGridPoint (context c) pos in
  Component (context c) snappedPos (startPos c) (currentPath c).

(** [handleMouseUp]: [now] is the value of [Date.now ()]. *)
Definition handleMouseUp (v : viewport) (e : mouseEvent) (now : Z)
    (c : component) : component :=
  if negb (isDrawing (context c)) then c
  else
    let pos := getMousePos v e in
    let snappedPos := snapToGridPoint (context c) pos in
    let added :=
      match newObject (context c) now (currentPath c) snappedPos with
      | Some o => addObject o (context c)
      | None => context c
      end in
    Component (setDrawingState false added) (mousePos c) None [].

(** An object that [handleMouseUp] can have made. *)
Definition canvasMade (o : drawnObject) : Prop :=
  exists ctx now path snappedPos, newObject ctx now path snappedPos = Some o.

(** A press, the moves while the button is down, and the release. *)
Record gesture : Type := Gesture {
  press : mouseEvent;
  moves : list mouseEvent;
  release : mouseEvent;
  releasedAt : Z
}.

Definition perform (v : viewport) (c : component) (g : gesture) : component :=
  handleMouseUp v (release g) (releasedAt g)
    (foldl (fun c e => handleMouseMove v e c) (handleMouseDown v (press g) c)
       (moves g)).

Definition performAll (v : viewport) (c : component) (gestures : list gesture)
    : component :=
  foldl (perform v) c gestures.

End DrawingCanvas.

(** ** simulations.js: the four p5 simulations *)

(** A value set through a control: a range input gives a number
    ([parseFloat]), a checkbox a boolean. *)
Inductive paramValue : Type :=
| VNum (v : R)
| VBool (b : bool).

(** Numeric reading of a control value, as JavaScript arithmetic does. *)
Definition toNumber (v : paramValue) : R :=
  match v with
  | VNum r => r
  | VBool true => 1
  | VBool false => 0
  end.

(** Truthiness of a control value. *)
Definition truthy (v : paramValue) : bool :=
  match v with
  | VNum r => if Req_dec_T r 0 then false else true
  | VBool b => b
  end.

(** [parseInt] of a number: its integer part, towards zero. *)
Definition parseInt (v : R) : Z :=
  if Rle_dec 0 v then Zfloor v else Zceil v.

(** The interface the sketches use: every simulation class has [update],
    [reset] and [resize]; [reset] may draw from [Math.random], whose
    successive results are [rnd 0], [rnd 1], ...; [updateParameter] is the
    [switch] over parameter names in the sketch. *)
Class Simulation (S : Type) : Type := {
  update : S -> S;
  reset : (nat -> R) -> S -> S;
  resize : R -> R -> S -> S;
  updateParameter : string -> paramValue -> S -> S
}.

Module PendulumSimulation.

Record state : Type := State {
  width : R;
  height : R;
  length : R;
  gravity : R;
  angle : R;
  angleVel : R;
  angleAcc : R;
  damping : R;
  cx : R;
  cy : R;
  trail : list point;
  maxTrailLength : nat;
  initialAngle : option R
}.

Definition reset (s : state) : state :=
  {| width := width s; height := height s; length := length s;
     gravity := gravity s;
     angle := JS.or_default (initialAngle s) (PI / 6);
     angleVel := 0;
     angleAcc := 0;
     damping := damping s; cx := cx s; cy := cy s;
     trail := [];
     maxTrailLength := maxTrailLength s;
     initialAngle := initialAngle s |}.

Definition new (width_ height_ : R) : state :=
  reset
    {| width := width_; height := height_; length := 150;
       gravity := 98 / 10;
       angle := PI / 6;
       angleVel := 0;
       angleAcc := 0;
       damping := 999 / 1000;
       cx := width_ / 2; cy := 50;
       trail := [];
       maxTrailLength := 50;
       initialAngle := None |}.

Definition update (s : state) : state :=
  let angleAcc1 := (- gravity s / (length s * 10)) * sin (angle s) in
  let angleVel1 := (angleVel s + angleAcc1) * damping s in
  let angle1 := angle s + angleVel1 in
  let x := cx s + length s * sin angle1 in
  let y := cy s + length s * cos angle1 in
  let pushed := trail s ++ [Point x y] in
  {| width := width s; height := height s; length := length s;
     gravity := gravity s;
     angle := angle1;
     angleVel := angleVel1;
     angleAcc := angleAcc1;
     damping := damping s; cx := cx s; cy := cy s;
     trail := if decide (maxTrailLength s < Datatypes.length pushed)%nat
              then tail pushed else pushed;
     maxTrailLength := maxTrailLength s;
     initialAngle := initialAngle s |}.

Definition setLength (length_ : R) (s : state) : state :=
  {| width := width s; height := height s; length := length_ * 100;
     gravity := gravity s; angle := angle s; angleVel := angleVel s;
     angleAcc := angleAcc s; damping := damping s; cx := cx s; cy := cy s;
     trail := trail s; maxTrailLength := maxTrailLength s;
     initialAngle := initialAngle s |}.

Definition setInitialAngle (angle_ : R) (s : state) : state :=
  reset
    {| width := width s; height := height s; length := length s;
       gravity := gravity s; angle := angle s; angleVel := angleVel s;
       angleAcc := angleAcc s; damping := damping s; cx := cx s; cy := cy s;
       trail := trail s; maxTrailLength := maxTrailLength s;
       initialAngle := Some angle_ |}.

Definition setGravity (gravity_ : R) (s : state) : state :=
  {| width := width s; height := height s; length := length s;
     gravity := gravity_; angle := angle s; angleVel := angleVel s;
     angleAcc := angleAcc s; damping := damping s; cx := cx s; cy := cy s;
     trail := trail s; maxTrailLength := maxTrailLength s;
     initialAngle := initialAngle s |}.

Definition resize (width_ height_ : R) (s : state) : state :=
  {| width := width_; height := height_; length := length s;
     gravity := gravity s; angle := angle s; angleVel := angleVel s;
     angleAcc := angleAcc s; damping := damping s; cx := width_ / 2; cy := cy s;
     trail := trail s; maxTrailLength := maxTrailLength s;
     initialAngle := initialAngle s |}.

Definition getPeriod (s : state) : R :=
  2 * PI * sqrt (length s / (gravity s * 100)).

Definition getEnergy (s : state) : R :=
  let kinetic := 5 / 10 * angleVel s * angleVel s in
  let potential := gravity s * (1 - cos (angle s)) in
  kinetic + potential.

(** The [updateParameter] switch of the pendulum sketch. *)
Definition updateParameter (param : string) (value : paramValue) (s : state) : state :=
  if decide (param = "length") then setLength (toNumber value) s
  else if decide (param = "angle") then setInitialAngle (toNumber value * PI / 180) s
  else if decide (param = "gravity") then setGravity (toNumber value) s
  else s.

(** What a pendulum is configured with, as opposed to its motion. *)
Definition configuration (s : state) : R * R * R * R * R * R * R * nat * option R :=
  (width s, height s, length s, gravity s, damping s, cx s, cy s,
   maxTrailLength s, initialAngle s).

(** A call of one of the methods that change a pendulum. *)
Inductive call : Type :=
| Update
| Reset
| SetLength (length_ : R)
| SetInitialAngle (angle_ : R)
| SetGravity (gravity_ : R)
| Resize (width_ height_ : R).

Definition apply (s : state) (c : call) : state :=
  match c with
  | Update => update s
  | Reset => reset s
  | SetLength v => setLength v s
  | SetInitialAngle v => setInitialAngle v s
  | SetGravity v => setGravity v s
  | Resize w h => resize w h s
  end.

Definition applyAll (s : state) (calls : list call) : state := foldl apply s calls.

(** The invariant of the trail: the bound is the constant 50 and the
    trail respects it. *)
Definition trailBounded (s : state) : Prop :=
  maxTrailLength s = 50%nat /\ (Datatypes.length (trail s) <= 50)%nat.

End PendulumSimulation.

#[export] Instance pendulum_simulation : Simulation PendulumSimulation.state := {
  update := PendulumSimulation.update;
  reset := fun _ => PendulumSimulation.reset;
  resize := PendulumSimulation.resize;
  updateParameter := PendulumSimulation.updateParameter
}.

Module WaveInterferenceSimulation.

Record state : Type := State {
  width : R;
  height : R;
  time : R;
  frequency1 : R;
  frequency2 : R;
  amplitude : R;
  sources : list point
}.

Definition new (width_ height_ : R) : state :=
  {| width := width_; height := height_; time := 0;
     frequency1 := 5 / 10; frequency2 := 5 / 10; amplitude := 30;
     sources := [Point (width_ * (3 / 10)) (height_ * (5 / 10));
                 Point (width_ * (7 / 10)) (height_ * (5 / 10))] |}.

Definition update (s : state) : state :=
  State (width s) (height s) (time s + 1) (frequency1 s) (frequency2 s)
    (amplitude s) (sources s).

Definition setFrequency1 (freq : R) (s : state) : state :=
  State (width s) (height s) (time s) freq (frequency2 s) (amplitude s) (sources s).

Definition setFrequency2 (freq : R) (s : state) : state :=
  State (width s) (height s) (time s) (frequency1 s) freq (amplitude s) (sources s).

Definition setAmplitude (amp : R) (s : state) : state :=
  State (width s) (height s) (time s) (frequency1 s) (frequency2 s) amp (sources s).

Definition reset (s : state) : state :=
  State (width s) (height s) 0 (frequency1 s) (frequency2 s) (amplitude s) (sources s).

Definition resize (width_ height_ : R) (s : state) : state :=
  State width_ height_ (time s) (frequency1 s) (frequency2 s) (amplitude s)
    [Point (width_ * (3 / 10)) (height_ * (5 / 10));
     Point (width_ * (7 / 10)) (height_ * (5 / 10))].

Definition updateParameter (param : string) (value : paramValue) (s : state) : state :=
  if decide (param = "frequency1") then setFrequency1 (toNumber value) s
  else if decide (param = "frequency2") then setFrequency2 (toNumber value) s
  else if decide (param = "amplitude") then setAmplitude (toNumber value) s
  else s.

(** What a wave system is configured with, as opposed to its clock. *)
Definition configuration (s : state) : R * R * R * R * R * list point :=
  (width s, height s, frequency1 s, frequency2 s, amplitude s, sources s).

End WaveInterferenceSimulation.

#[export] Instance wave_simulation : Simulation WaveInterferenceSimulation.state := {
  update := WaveInterferenceSimulation.update;
  reset := fun _ => WaveInterferenceSimulation.reset;
  resize := WaveInterferenceSimulation.resize;
  updateParameter := WaveInterferenceSimulation.updateParameter
}.

Module GravitySimulation.

Module Particle.
Record t : Type := Make {
  angle : R;
  distance : R;
  speed : R;
  trail : list point
}.
End Particle.

Record state : Type := State {
  width : R;
  height : R;
  centralMass : R;
  speed : R;
  particles : list Particle.t
}.

(** The particles [createParticles (count)] pushes, for [i] from [0]. *)
Definition createdParticles (centralMass_ : R) (count : Z) : list Particle.t :=
  map (fun i : nat =>
         let angle := (2 * PI / IZR count) * INR i in
         let distance := 60 + INR i * 15 in
         Particle.Make angle distance
           (sqrt (centralMass_ / distance) * (2 / 100)) [])
      (seq 0 (Z.to_nat count)).

Definition createParticles (count : Z) (s : state) : state :=
  State (width s) (height s) (centralMass s) (speed s)
    (createdParticles (centralMass s) count).

Definition new (width_ height_ : R) : state :=
  createParticles 5 (State width_ height_ 100 1 []).

Definition updateParticle (centerX centerY speed_ : R) (p : Particle.t) : Particle.t :=
  let angle1 := Particle.angle p + Particle.speed p * speed_ in
  let x := centerX + cos angle1 * Particle.distance p in
  let y := centerY + sin angle1 * Particle.distance p in
  let pushed := Particle.trail p ++ [Point x y] in
  Particle.Make angle1 (Particle.distance p) (Particle.speed p)
    (if decide (30 < length pushed)%nat then tail pushed else pushed).

Definition update (s : state) : state :=
  let centerX := width s / 2 in
  let centerY := height s / 2 in
  State (width s) (height s) (centralMass s) (speed s)
    (map (updateParticle centerX centerY (speed s)) (particles s)).

Definition setCentralMass (mass : R) (s : state) : state :=
  State (width s) (height s) mass (speed s)
    (map (fun p => Particle.Make (Particle.angle p) (Particle.distance p)
                     (sqrt (mass / Particle.distance p) * (2 / 100))
                     (Particle.trail p))
         (particles s)).

Definition setParticleCount (count : Z) (s : state) : state :=
  createParticles count s.

Definition setSpeed (speed_ : R) (s : state) : state :=
  State (width s) (height s) (centralMass s) speed_ (particles s).

(** [reset] calls [Math.random ()] once per particle, in order. *)
Definition reset (rnd : nat -> R) (s : state) : state :=
  State (width s) (height s) (centralMass s) (speed s)
    (imap (fun i p => Particle.Make (rnd i * (2 * PI)) (Particle.distance p)
                        (Particle.speed p) [])
          (particles s)).

Definition resize (width_ height_ : R) (s : state) : state :=
  State width_ height_ (centralMass s) (speed s) (particles s).

Definition updateParameter (param : string) (value : paramValue) (s : state) : state :=
  if decide (param = "mass") then setCentralMass (toNumber value) s
  else if decide (param = "particles") then setParticleCount (parseInt (toNumber value)) s
  else if decide (param = "speed") then setSpeed (toNumber value) s
  else s.

End GravitySimulation.

#[export] Instance gravity_simulation : Simulation GravitySimulation.state := {
  update := GravitySimulation.update;
  reset := GravitySimulation.reset;
  resize := GravitySimulation.resize;
  updateParameter := GravitySimulation.updateParameter
}.

Module ElectricFieldSimulation.

Record state : Type := State {
  width : R;
  height : R;
  charge1 : R;
  charge2 : R;
  showLines : bool;
  fieldLines : list (list point)
}.

(** The field of one charge [q] placed at [c], felt at [(x, y)]. *)
Definition fieldOf (q : R) (c : point) (x y : R) : R * R :=
  let dx := x - px c in
  let dy := y - py c in
  let r := sqrt (dx * dx + dy * dy) in
  if Rlt_dec 0 r then
    let field := q / (r * r) in (field * dx / r, field * dy / r)
  else (0, 0).

Definition calculateFieldAt (width_ height_ charge1_ charge2_ x y : R) : point :=
  let charge1Pos := Point (width_ * (3 / 10)) (height_ * (5 / 10)) in
  let charge2Pos := Point (width_ * (7 / 10)) (height_ * (5 / 10)) in
  let f1 := fieldOf charge1_ charge1Pos x y in
  let f2 := fieldOf charge2_ charge2Pos x y in
  Point (0 + f1.1 + f2.1) (0 + f1.2 + f2.2).

(** The inner [for] loop of [generateFieldLines]: at most [steps] points,
    each a step of length 3 along the field after the previous one; the
    line stops when it leaves the canvas. *)
Fixpoint traceLine (width_ height_ charge1_ charge2_ : R) (steps : nat)
    (x y : R) : list point :=
  match steps with
  | O => []
  | S n =>
      let field := calculateFieldAt width_ height_ charge1_ charge2_ x y in
      let magnitude := sqrt (px field * px field + py field * py field) in
      let x1 := if Rlt_dec 0 magnitude then x + (px field / magnitude) * 3 else x in
      let y1 := if Rlt_dec 0 magnitude then y + (py field / magnitude) * 3 else y in
      Point x y ::
        (if Rlt_dec x1 0 then []
         else if Rlt_dec width_ x1 then []
         else if Rlt_dec y1 0 then []
         else if Rlt_dec height_ y1 then []
         else traceLine width_ height_ charge1_ charge2_ n x1 y1)
  end.

(** The outer [for] loop: one line per start angle, from [angle] in steps
    of [TWO_PI / 12] while [angle < TWO_PI]; [fuel] bounds the number of
    tests of the loop condition. *)
Fixpoint linesFrom (width_ height_ charge1_ charge2_ : R) (fuel : nat)
    (angle : R) : list (list point) :=
  match fuel with
  | O => []
  | S n =>
      if Rlt_dec angle (2 * PI) then
        let charge1Pos := Point (width_ * (3 / 10)) (height_ * (5 / 10)) in
        let x := px charge1Pos + cos angle * 10 in
        let y := py charge1Pos + sin angle * 10 in
        traceLine width_ height_ charge1_ charge2_ 50 x y ::
          linesFrom width_ height_ charge1_ charge2_ n (angle + 2 * PI / 12)
      else []
  end.

(** Over the reals the condition fails at the thirteenth test. *)
Definition generatedFieldLines (width_ height_ charge1_ charge2_ : R)
    : list (list point) :=
  if Rlt_dec 0 charge1_
  then linesFrom width_ height_ charge1_ charge2_ 13 0
  else [].

Definition generateFieldLines (s : state) : state :=
  State (width s) (height s) (charge1 s) (charge2 s) (showLines s)
    (generatedFieldLines (width s) (height s) (charge1 s) (charge2 s)).

Definition new (width_ height_ : R) : state :=
  generateFieldLines (State width_ height_ 5 (-5) true []).

(** The electric field is static: [update] has an empty body. *)
Definition update (s : state) : state := s.

Definition setCharge1 (charge : R) (s : state) : state :=
  generateFieldLines
    (State (width s) (height s) charge (charge2 s) (showLines s) (fieldLines s)).

Definition setCharge2 (charge : R) (s : state) : state :=
  generateFieldLines
    (State (width s) (height s) (charge1 s) charge (showLines s) (fieldLines s)).

Definition showFieldLines (show : bool) (s : state) : state :=
  State (width s) (height s) (charge1 s) (charge2 s) show (fieldLines s).

Definition reset (s : state) : state := generateFieldLines s.

Definition resize (width_ height_ : R) (s : state) : state :=
  generateFieldLines
    (State width_ height_ (charge1 s) (charge2 s) (showLines s) (fieldLines s)).

Definition updateParameter (param : string) (value : paramValue) (s : state) : state :=
  if decide (param = "charge1") then setCharge1 (toNumber value) s
  else if decide (param = "charge2") then setCharge2 (toNumber value) s
  else if decide (param = "field-lines") then showFieldLines (truthy value) s
  else s.

(** What an electric system is configured with, as opposed to the field
    lines computed from it. *)
Definition configuration (s : state) : R * R * R * R * bool :=
  (width s, height s, charge1 s, charge2 s, showLines s).

End ElectricFieldSimulation.

#[export] Instance electric_simulation : Simulation ElectricFieldSimulation.state := {
  update := ElectricFieldSimulation.update;
  reset := fun _ => ElectricFieldSimulation.reset;
  resize := ElectricFieldSimulation.resize;
  updateParameter := ElectricFieldSimulation.updateParameter
}.

(** ** The sketch around a simulation: the [isRunning] flag, the [draw]
    callback and the control object stored in [this.simulations] *)

Module Sketch.

Record t (S : Type) : Type := Make {
  sim : S;
  isRunning : bool
}.
Global Arguments Make {S} sim isRunning.
Global Arguments sim {S} t.
Global Arguments isRunning {S} t.

(** What can happen to a sketch: p5 calls [draw] for an animation frame or
    [windowResized]; the page calls one of the control methods. *)
Inductive event : Type :=
| Frame
| Start
| Pause
| Reset (rnd : nat -> R)
| UpdateParameter (param : string) (value : paramValue)
| WindowResized (width_ height_ : R).

Section WithSimulation.

Context {S : Type} `{Simulation S}.

(** [p.draw]: [update] only while running; [display] draws and changes
    nothing. *)
Definition draw (k : t S) : t S :=
  if isRunning k then Make (update (sim k)) (isRunning k) else k.

Definition start (k : t S) : t S := Make (sim k) true.

Definition pause (k : t S) : t S := Make (sim k) false.

Definition resetControl (rnd : nat -> R) (k : t S) : t S :=
  Make (reset rnd (sim k)) false.

Definition step (k : t S) (e : event) : t S :=
  match e with
  | Frame => draw k
  | Start => start k
  | Pause => pause k
  | Reset rnd => resetControl rnd k
  | UpdateParameter param value => Make (updateParameter param value (sim k)) (isRunning k)
  | WindowResized w h => Make (resize w h (sim k)) (isRunning k)
  end.

Definition run (k : t S) (events : list event) : t S := foldl step k events.

End WithSimulation.

(** [p.setup] creates the simulation; the sketch starts paused. *)
Definition setup {S : Type} (s : S) : t S := Make s false.

Definition isFrame (e : event) : bool :=
  match e with Frame => true | _ => false end.

Definition isStart (e : event) : bool :=
  match e with Start => true | _ => false end.

End Sketch.

(** ** SimulationsSystem: the registry of sketches and its controls *)

Module SimulationsSystem.

(** [s.split (sep)]: the pieces between the separators, at least one. *)
Fixpoint split (sep : ascii) (s : string) : list string :=
  match s with
  | EmptyString => [EmptyString]
  | String c s' =>
      if decide (c = sep) then EmptyString :: split sep s'
      else match split sep s' with
           | piece :: pieces => String c piece :: pieces
           | [] => [String c EmptyString]
           end
  end.

(** [parts.join (sep)] *)
Fixpoint join (sep : ascii) (parts : list string) : string :=
  match parts with
  | [] => EmptyString
  | [piece] => piece
  | piece :: parts' => piece +:+ String sep (join sep parts')
  end.

Definition getSimulationIdFromControl (controlId : string) : string :=
  default EmptyString (head (split "-" controlId)).

Definition getParameterFromControl (controlId : string) : string :=
  join "-" (drop 1 (split "-" controlId)).

Definition getActionFromButton (buttonId : string) : string :=
  default EmptyString (last (split "-" buttonId)).

(** [this.simulations]: a sketch is registered under its name when its
    container is on the page. *)
Record t : Type := Make {
  pendulum : option (Sketch.t PendulumSimulation.state);
  wave : option (Sketch.t WaveInterferenceSimulation.state);
  gravity : option (Sketch.t GravitySimulation.state);
  electric : option (Sketch.t ElectricFieldSimulation.state)
}.

(** An event delivered to the sketch registered under [simulationId], if
    there is one ([this.simulations.get (simulationId)]). *)
Definition deliver (simulationId : string) (e : Sketch.event) (sys : t) : t :=
  if decide (simulationId = "pendulum") then
    Make ((fun k => Sketch.step k e) <$> pendulum sys) (wave sys) (gravity sys)
      (electric sys)
  else if decide (simulationId = "wave") then
    Make (pendulum sys) ((fun k => Sketch.step k e) <$> wave sys) (gravity sys)
      (electric sys)
  else if decide (simulationId = "gravity") then
    Make (pendulum sys) (wave sys) ((fun k => Sketch.step k e) <$> gravity sys)
      (electric sys)
  else if decide (simulationId = "electric") then
    Make (pendulum sys) (wave sys) (gravity sys)
      ((fun k => Sketch.step k e) <$> electric sys)
  else sys.

Definition startSimulation (simulationId : string) (sys : t) : t :=
  deliver simulationId Sketch.Start sys.

Definition pauseSimulation (simulationId : string) (sys : t) : t :=
  deliver simulationId Sketch.Pause sys.

(** [rnd] gives the results of [Math.random] during the reset. *)
Definition resetSimulation (simulationId : string) (rnd : nat -> R) (sys : t) : t :=
  deliver simulationId (Sketch.Reset rnd) sys.

Definition updateSimulationParameter (simulationId parameter : string)
    (value : paramValue) (sys : t) : t :=
  deliver simulationId (Sketch.UpdateParameter parameter value) sys.

(** [handleControlButton]: the id of the button names the simulation in
    its first part and the action in its last. *)
Definition handleControlButton (buttonId : string) (rnd : nat -> R) (sys : t) : t :=
  let action := getActionFromButton buttonId in
  let simulationId := getSimulationIdFromControl buttonId in
  if decide (simulationId = EmptyString) then sys
  else if decide (action = EmptyString) then sys
  else if decide (action = "start") then startSimulation simulationId sys
  else if decide (action = "pause") then pauseSimulation simulationId sys
  else if decide (action = "reset") then resetSimulation simulationId rnd sys
  else sys.

(** [handleRangeInput] with the number read from the input, and
    [handleCheckboxInput] with its checked state. *)
Definition handleInput (inputId : string) (value : paramValue) (sys : t) : t :=
  let simulationId := getSimulationIdFromControl inputId in
  let parameter := getParameterFromControl inputId in
  if decide (simulationId = EmptyString) then sys
  else if decide (parameter = EmptyString) then sys
  else updateSimulationParameter simulationId parameter value sys.

(** One animation frame of every sketch. *)
Definition frame (sys : t) : t :=
  Make (Sketch.draw <$> pendulum sys) (Sketch.draw <$> wave sys)
    (Sketch.draw <$> gravity sys) (Sketch.draw <$> electric sys).

Definition pauseAll (sys : t) : t :=
  Make (Sketch.pause <$> pendulum sys) (Sketch.pause <$> wave sys)
    (Sketch.pause <$> gravity sys) (Sketch.pause <$> electric sys).

(** [resumeAll] only asks p5 to loop again; the running flags stay. *)
Definition resumeAll (sys : t) : t := sys.

End SimulationsSystem.

(** ** Strings and regular expressions

    Characters are 8-bit; white space is the part of JavaScript's
    [\s] that lies in that range. *)

Module Text.

Definition isSpace (c : ascii) : bool :=
  let n := nat_of_ascii c in
  ((9 <=? n) && (n <=? 13) || (n =? 32) || (n =? 160))%nat.

Definition isDigit (c : ascii) : bool :=
  let n := nat_of_ascii c in ((48 <=? n) && (n <=? 57))%nat.

Definition isChar (a c : ascii) : bool := bool_decide (a = c).

Definition chars (s : string) : list ascii := list_ascii_of_string s.

Fixpoint dropSpaces (l : list ascii) : list ascii :=
  match l with
  | c :: l' => if isSpace c then dropSpaces l' else l
  | [] => []
  end.

(** [String.prototype.trim] *)
Definition trim (s : string) : string :=
  string_of_list_ascii (reverse (dropSpaces (reverse (dropSpaces (chars s))))).

(** [s.replace(/\s/g, '')] *)
Definition removeSpaces (s : string) : string :=
  string_of_list_ascii (List.filter (fun c => negb (isSpace c)) (chars s)).

(** Regular expressions over character classes, matched with
    derivatives. *)
Inductive regex : Type :=
| Void
| Eps
| Class (p : ascii -> bool)
| Seq (r1 r2 : regex)
| Alt (r1 r2 : regex)
| Star (r : regex).

Definition Plus (r : regex) : regex := Seq r (Star r).
Definition Opt (r : regex) : regex := Alt Eps r.

(** [r{n}] and [r{n,n+k}] *)
Fixpoint Exactly (n : nat) (r : regex) : regex :=
  match n with
  | O => Eps
  | S n' => Seq r (Exactly n' r)
  end.

Fixpoint UpTo (k : nat) (r : regex) : regex :=
  match k with
  | O => Eps
  | S k' => Opt (Seq r (UpTo k' r))
  end.

Definition Between (n m : nat) (r : regex) : regex :=
  Seq (Exactly n r) (UpTo (m - n) r).

Fixpoint nullable (r : regex) : bool :=
  match r with
  | Void => false
  | Eps => true
  | Class _ => false
  | Seq r1 r2 => nullable r1 && nullable r2
  | Alt r1 r2 => nullable r1 || nullable r2
  | Star _ => true
  end.

Fixpoint deriv (c : ascii) (r : regex) : regex :=
  match r with
  | Void => Void
  | Eps => Void
  | Class p => if p c then Eps else Void
  | Seq r1 r2 =>
      if nullable r1
      then Alt (Seq (deriv c r1) r2) (deriv c r2)
      else Seq (deriv c r1) r2
  | Alt r1 r2 => Alt (deriv c r1) (deriv c r2)
  | Star r1 => Seq (deriv c r1) (Star r1)
  end.

(** [/^r$/.test(s)] *)
Definition test (r : regex) (s : string) : bool :=
  nullable (foldl (fun r c => deriv c r) r (chars s)).

(** The words of a regular expression. *)
Inductive matches : regex -> list ascii -> Prop :=
| matches_eps : matches Eps []
| matches_class p c : p c = true -> matches (Class p) [c]
| matches_seq r1 r2 w1 w2 :
    matches r1 w1 -> matches r2 w2 -> matches (Seq r1 r2) (w1 ++ w2)
| matches_alt_l r1 r2 w : matches r1 w -> matches (Alt r1 r2) w
| matches_alt_r r1 r2 w : matches r2 w -> matches (Alt r1 r2) w
| matches_star_nil r : matches (Star r) []
| matches_star_app r w1 w2 :
    matches r w1 -> matches (Star r) w2 -> matches (Star r) (w1 ++ w2).

Definition isUpper (c : ascii) : bool :=
  let n := nat_of_ascii c in ((65 <=? n) && (n <=? 90))%nat.

Definition isLower (c : ascii) : bool :=
  let n := nat_of_ascii c in ((97 <=? n) && (n <=? 122))%nat.

(** [/[...]/.test (s)] for a character class: some character is in it. *)
Definition contains (p : ascii -> bool) (s : string) : bool :=
  existsb p (chars s).

End Text.

(** ** Browser local storage

    A stored text is identified with the JSON document it encodes
    ([JSON.stringify] followed by [JSON.parse] is the identity on the
    documents the program writes); a plain string is a [JString]. *)

#[warnings="-register-all"]
Inductive json : Type :=
| JString (s : string)
| JArray (items : list json)
| JObject (entries : list (string * json)).

Abbreviation storage := (gmap string json).

(** A plain object with string values, such as
    [Object.fromEntries (new FormData (form))]: its keys in insertion
    order, no key twice. *)
Abbreviation formData := (list (string * string)).

(** [o[key]] *)
Fixpoint getKey (key : string) (o : formData) : option string :=
  match o with
  | [] => None
  | (k, v) :: o' => if decide (k = key) then Some v else getKey key o'
  end.

(** [o[key] = v]: an existing key keeps its place. *)
Fixpoint setKey (key v : string) (o : formData) : formData :=
  match o with
  | [] => [(key, v)]
  | (k, v') :: o' =>
      if decide (k = key) then (key, v) :: o' else (k, v') :: setKey key v o'
  end.

(** [delete o[key]] *)
Definition deleteKey (key : string) (o : formData) : formData :=
  filter (fun kv => kv.1 ≠ key) o.

Definition fromEntries (entries : list (string * string)) : formData :=
  foldl (fun o kv => setKey kv.1 kv.2 o) [] entries.

Definition objectOf (data : formData) : list (string * json) :=
  map (fun kv : string * string => (kv.1, JString kv.2)) data.

(** The array stored under [key]; nothing stored reads as ['[]'], and a
    document that is not an array has no [push] or [unshift]. *)
Definition storedArray (key : string) (st : storage) : JS.result (list json) :=
  match st !! key with
  | None => JS.Ok []
  | Some (JArray items) => JS.Ok items
  | Some _ => JS.Throw "TypeError: not a function"
  end.

(** ** ContactManager: the contact form *)

Module ContactManager.

Record errorElement : Type := ErrorElement {
  textContent : string;
  errorClasses : gset string
}.

Record formGroup : Type := FormGroup {
  classList : gset string;
  errorEl : option errorElement
}.

(** A form control: its value and name, whether it carries the
    [required] attribute, and the closest [.form-group], if any. *)
Record field : Type := Field {
  value : string;
  name : string;
  required : bool;
  group : option formGroup
}.

(** [/^[^\s@]+@[^\s@]+\.[^\s@]+$/] *)
Definition emailRegex : Text.regex :=
  let other := Text.Class (fun c => negb (Text.isSpace c) && negb (Text.isChar "@" c)) in
  Text.Seq (Text.Plus other)
    (Text.Seq (Text.Class (Text.isChar "@"))
       (Text.Seq (Text.Plus other)
          (Text.Seq (Text.Class (Text.isChar ".")) (Text.Plus other)))).

Definition isValidEmail (email : string) : bool := Text.test emailRegex email.

(** [/^[\+]?[1-9]?\d{9,15}$/] on the phone number without white space *)
Definition phoneRegex : Text.regex :=
  Text.Seq (Text.Opt (Text.Class (Text.isChar "+")))
    (Text.Seq
       (Text.Opt (Text.Class (fun c => Text.isDigit c && negb (Text.isChar "0" c))))
       (Text.Between 9 15 (Text.Class Text.isDigit))).

Definition isValidPhone (phone : string) : bool :=
  Text.test phoneRegex (Text.removeSpaces phone).

(** The verdict of [validateField] before it is shown: [isValid] and
    [errorMessage]. *)
Definition checkField (f : field) : bool * string :=
  let value_ := Text.trim (value f) in
  let fieldName := name f in
  if required f && bool_decide (value_ = "") then (false, "This field is required")
  else if bool_decide (value_ = "") then (true, "")
  else if decide (fieldName = "email") then
    if negb (isValidEmail value_)
    then (false, "Please enter a valid email address") else (true, "")
  else if decide (fieldName = "name") then
    if (String.length value_ <? 2)%nat
    then (false, "Name must be at least 2 characters long") else (true, "")
  else if decide (fieldName = "phone") then
    if negb (isValidPhone value_)
    then (false, "Please enter a valid phone number") else (true, "")
  else if decide (fieldName = "message") then
    if (String.length value_ <? 10)%nat
    then (false, "Message must be at least 10 characters long") else (true, "")
  else (true, "").

(** The messages [validateField] can show. *)
Definition validationMessages : list string :=
  ["This field is required";
   "Please enter a valid email address";
   "Name must be at least 2 characters long";
   "Please enter a valid phone number";
   "Message must be at least 10 characters long"].

Definition showFieldValidation (f : field) (isValid : bool) (errorMessage : string)
    : field :=
  match group f with
  | None => f
  | Some g =>
      let classes := classList g ∖ {["error"; "success"]} ∪
                     {[ if isValid then "success" else "error" ]} in
      let errorEl' :=
        (fun e => ErrorElement errorMessage
                    (if isValid then errorClasses e ∖ {["show"]}
                     else errorClasses e ∪ {["show"]})) <$> errorEl g in
      Field (value f) (name f) (required f) (Some (FormGroup classes errorEl'))
  end.

(** [validateField]: the field as displayed afterwards, and [isValid]. *)
Definition validateField (f : field) : field * bool :=
  let '(isValid, errorMessage) := checkField f in
  (showFieldValidation f isValid errorMessage, isValid).

(** [validateForm]: every input is validated, also after a failure. *)
Definition validateForm (inputs : list field) : list field * bool :=
  (fst ∘ validateField <$> inputs, forallb (snd ∘ validateField) inputs).

Definition autoSaveFormData (data : formData) (st : storage) : storage :=
  <["contact_form_draft" := JObject (objectOf data)]> st.

Definition clearSavedFormData (st : storage) : storage :=
  delete "contact_form_draft" st.

(** [submitContactForm]: [timestamp] is [new Date ().toISOString ()] and
    [now] the digits of [Date.now ()]. *)
Definition submitContactForm (data : formData) (timestamp now : string)
    (st : storage) : JS.result (storage * string) :=
  let messageData :=
    JObject (objectOf (setKey "id" ("msg_" +:+ now) (setKey "timestamp" timestamp data))) in
  match storedArray "contact_messages" st with
  | JS.Ok messages =>
      JS.Ok (<["contact_messages" := JArray (messages ++ [messageData])]> st,
             "msg_" +:+ now)
  | JS.Throw m => JS.Throw m
  end.

(** A question of the FAQ with its answer: whether the question has the
    class [active] and the answer the class [show], the [max-height] of
    the answer and the rotation of the icon, if there is one, in pixels
    and degrees, and the [scrollHeight] of the answer. *)
Record faqItem : Type := FaqItem {
  questionActive : bool;
  answerShown : bool;
  maxHeight : nat;
  iconRotation : option nat;
  scrollHeight : nat
}.

Definition closeItem (item : faqItem) : faqItem :=
  FaqItem false false 0 ((fun _ => 0%nat) <$> iconRotation item) (scrollHeight item).

Definition openItem (item : faqItem) : faqItem :=
  FaqItem true true (scrollHeight item) ((fun _ => 180%nat) <$> iconRotation item)
    (scrollHeight item).

(** [toggleFAQ] on the item at [index]: all items are closed, and the
    item is opened if it was not active. *)
Definition toggleFAQ (index : nat) (faqItems : list faqItem) : list faqItem :=
  match faqItems !! index with
  | None => faqItems
  | Some faqItem_ =>
      let isActive := questionActive faqItem_ in
      let closed := closeItem <$> faqItems in
      if negb isActive then alter openItem index closed else closed
  end.

End ContactManager.

(** ** AuthManager (auth.js): the mock registration and login *)

Module AuthManager.

(** [autoSaveFormData]: the draft of the registration form, without the
    password fields. *)
Definition autoSaveFormData (data : formData) (st : storage) : storage :=
  <["registration_draft" :=
      JObject (objectOf (deleteKey "confirmPassword" (deleteKey "password" data)))]> st.

Definition clearSavedFormData (st : storage) : storage :=
  delete "registration_draft" st.

Definition simulateRegistration (userData : json) (st : storage) : storage :=
  <["registration_pending" := JString "true"]> (<["user_data" := userData]> st).

(** [simulateLogin]: [now] is the digits of [Date.now ()]. *)
Definition simulateLogin (credentials : formData) (now : string) (st : storage)
    : JS.result storage :=
  if decide (getKey "email" credentials = Some "demo@physicslearn.com" ∧
             getKey "password" credentials = Some "demo123")
  then JS.Ok (<["user_email" := JString "demo@physicslearn.com"]>
                (<["user_token" := JString ("token_" +:+ now)]> st))
  else JS.Throw "Invalid credentials".

(** [/^[a-zA-Z0-9_]{3,20}$/] *)
Definition isWordChar (c : ascii) : bool :=
  Text.isLower c || Text.isUpper c || Text.isDigit c || Text.isChar "_" c.

Definition usernameRegex : Text.regex :=
  Text.Between 3 20 (Text.Class isWordChar).

Definition isValidUsername (username : string) : bool :=
  Text.test usernameRegex username.

(** The characters of the class of special characters of the
    password requirements; the double quote is character 34. *)
Definition specialChars : list ascii :=
  ["!"; "@"; "#"; "$"; "%"; "^"; "&"; "*"; "("; ")"; ","; "."; "?";
   ascii_of_nat 34; ":"; "{"; "}"; "|"; "<"; ">"]%char.

Definition isSpecial (c : ascii) : bool := bool_decide (c ∈ specialChars).

Record requirement : Type := Requirement {
  req_type : string;
  req_test : string -> bool;
  req_strength : nat
}.

Definition getPasswordRequirements : list requirement :=
  [Requirement "length" (fun password => (8 <=? String.length password)%nat) 20;
   Requirement "uppercase" (Text.contains Text.isUpper) 20;
   Requirement "lowercase" (Text.contains Text.isLower) 20;
   Requirement "number" (Text.contains Text.isDigit) 20;
   Requirement "special" (Text.contains isSpecial) 20].

(** [checkPasswordStrength]: the strength it stores in
    [this.passwordStrength] and the number of requirements met. *)
Definition checkPasswordStrength (password : string) : nat * nat :=
  foldl (fun (acc : nat * nat) req =>
           let strength := acc.1 in
           let metRequirements := acc.2 in
           if req_test req password
           then ((strength + req_strength req)%nat, S metRequirements)
           else (strength, metRequirements))
        (0%nat, 0%nat) getPasswordRequirements.

(** The level and class set by [updatePasswordStrengthIndicator]. *)
Definition strengthLevel (strength : nat) : string :=
  if (80 <=? strength)%nat then "strong"
  else if (60 <=? strength)%nat then "good"
  else if (40 <=? strength)%nat then "fair"
  else "weak".

(** [validatePassword], when there is a password input. *)
Definition validatePassword (passwordStrength : nat) : bool :=
  (60 <=? passwordStrength)%nat.

Definition isValidPassword (password : string) : bool :=
  (8 <=? String.length password)%nat &&
  Text.contains Text.isUpper password &&
  Text.contains Text.isLower password &&
  Text.contains Text.isDigit password &&
  Text.contains isSpecial password.

(** The year, the month (from 0) and the day of the month that the
    local getters of a valid [Date] return. *)
Record date : Type := Date { getFullYear : Z; getMonth : Z; getDate : Z }.

(** [isValidAge]: [today] is [new Date ()], and [parse] is the
    browser's [new Date (text)], both as their local getters read them.
    [parse] gives [None] for an Invalid Date: its getters return [NaN],
    no comparison with [NaN] holds, and the last [age >= 13] refuses the
    age. *)
Definition isValidAge (parse : string -> option date) (today : date)
    (birthDate : string) : bool :=
  match parse birthDate with
  | None => false
  | Some birth =>
      let age := (getFullYear today - getFullYear birth)%Z in
      let monthDiff := (getMonth today - getMonth birth)%Z in
      if (monthDiff <? 0)%Z ||
         ((monthDiff =? 0)%Z && (getDate today <? getDate birth)%Z)
      then (13 <=? age - 1)%Z
      else (13 <=? age)%Z
  end.

(** The registration form in steps. *)
Record wizard : Type := Wizard { currentStep : nat; totalSteps : nat }.

Definition newWizard : wizard := Wizard 1 3.

(** [nextStep]: [valid] is the result of [validateCurrentStep]. *)
Definition nextStep (valid : bool) (w : wizard) : wizard :=
  if negb valid then w
  else if (currentStep w <? totalSteps w)%nat
       then Wizard (S (currentStep w)) (totalSteps w)
       else w.

Definition prevStep (w : wizard) : wizard :=
  if (1 <? currentStep w)%nat
  then Wizard (currentStep w - 1) (totalSteps w)
  else w.

Inductive navigation : Type :=
| Next (valid : bool)
| Prev.

Definition navigate (w : wizard) (n : navigation) : wizard :=
  match n with
  | Next valid => nextStep valid w
  | Prev => prevStep w
  end.

End AuthManager.

(** ** PerformanceToggle, PhysicsLearnApp (main.js) and ForumManager:
    preferences and recent searches *)

Module PerformanceToggle.

Definition saveUserPreference (isAdvancedMode : bool) (st : storage) : storage :=
  <["physicslearn-performance-mode" :=
      JString (if isAdvancedMode then "advanced" else "performance")]> st.

(** [togglePerformanceMode] flips the mode and saves it. *)
Definition togglePerformanceMode (isAdvancedMode : bool) (st : storage)
    : bool * storage :=
  (negb isAdvancedMode, saveUserPreference (negb isAdvancedMode) st).

(** [loadUserPreference]: a saved mode is taken; without one, or with
    any other text, the mode is detected from the device ([detected]). *)
Definition loadUserPreference (detected : bool) (st : storage) : bool :=
  match st !! "physicslearn-performance-mode" with
  | Some (JString saved) =>
      if decide (saved = "advanced") then true
      else if decide (saved = "performance") then false
      else detected
  | _ => detected
  end.

End PerformanceToggle.

Module PhysicsLearnApp.

(** [toggleTheme]: [dark] tells whether the body has the class
    [dark-theme] before the call. *)
Definition toggleTheme (dark : bool) (st : storage) : bool * storage :=
  let isDark := negb dark in
  (isDark, <["theme" := JString (if isDark then "dark" else "light")]> st).

End PhysicsLearnApp.

Module ForumManager.

(** [trackSearchAnalytics]: the query goes to the front of the recent
    searches, of which the first ten are kept. *)
Definition trackSearchAnalytics (query : string) (st : storage) : JS.result storage :=
  match storedArray "forum_recent_searches" st with
  | JS.Ok recentSearches =>
      JS.Ok (<["forum_recent_searches" :=
                 JArray (take 10 (JString query :: recentSearches))]> st)
  | JS.Throw m => JS.Throw m
  end.

Definition isUserLoggedIn (st : storage) : bool :=
  bool_decide (is_Some (st !! "user_token")).

End ForumManager.

(** ** The operations of the program that can reach [localStorage] or the
    drawing state *)

Module Operations.

Record world : Type := World {
  drawingState : DrawingContext.state;
  localStorage : storage
}.

Inductive operation : Type :=
| Dispatch (a : DrawingContext.action)
| ContactAutoSave (data : formData)
| ContactClearDraft
| ContactSubmit (data : formData) (timestamp now : string)
| RegistrationAutoSave (data : formData)
| RegistrationClearDraft
| Register (userData : json)
| Login (credentials : formData) (now : string)
| SavePerformanceMode (isAdvancedMode : bool)
| ToggleTheme (dark : bool)
| TrackSearch (query : string).

(** The storage after an operation; an operation that throws has written
    nothing before it does. *)
Definition orUnchanged (st : storage) (r : JS.result storage) : storage :=
  match r with
  | JS.Ok st' => st'
  | JS.Throw _ => st
  end.

Definition perform (op : operation) (w : world) : world :=
  match op with
  | Dispatch a =>
      World (DrawingContext.drawingReducer (drawingState w) a) (localStorage w)
  | ContactAutoSave data =>
      World (drawingState w) (ContactManager.autoSaveFormData data (localStorage w))
  | ContactClearDraft =>
      World (drawingState w) (ContactManager.clearSavedFormData (localStorage w))
  | ContactSubmit data timestamp now =>
      World (drawingState w)
        (match ContactManager.submitContactForm data timestamp now (localStorage w) with
         | JS.Ok (st', _) => st'
         | JS.Throw _ => localStorage w
         end)
  | RegistrationAutoSave data =>
      World (drawingState w) (AuthManager.autoSaveFormData data (localStorage w))
  | RegistrationClearDraft =>
      World (drawingState w) (AuthManager.clearSavedFormData (localStorage w))
  | Register userData =>
      World (drawingState w) (AuthManager.simulateRegistration userData (localStorage w))
  | Login credentials now =>
      World (drawingState w)
        (orUnchanged (localStorage w)
           (AuthManager.simulateLogin credentials now (localStorage w)))
  | SavePerformanceMode isAdvancedMode =>
      World (drawingState w)
        (PerformanceToggle.saveUserPreference isAdvancedMode (localStorage w))
  | ToggleTheme dark =>
      World (drawingState w) (PhysicsLearnApp.toggleTheme dark (localStorage w)).2
  | TrackSearch query =>
      World (drawingState w)
        (orUnchanged (localStorage w)
           (ForumManager.trackSearchAnalytics query (localStorage w)))
  end.

(** The keys under which form drafts are kept. *)
Definition draftKeys : gset string :=
  {["contact_form_draft"; "registration_draft"]}.

(** All keys the program writes. *)
Definition writtenKeys : gset string :=
  draftKeys ∪
  {["contact_messages"; "user_data"; "registration_pending"; "user_token";
    "user_email"; "physicslearn-performance-mode"; "theme";
    "forum_recent_searches"]}.

(** A plain key/value document: an object whose values are strings. *)
Definition isKeyValue (d : json) : Prop :=
  match d with
  | JObject entries => Forall (fun kv => ∃ s, kv.2 = JString s) entries
  | _ => False
  end.

End Operations.

(** * Properties *)

(** A decidable closed proposition, settled by evaluation. *)
Ltac by_decide := apply (bool_decide_unpack _); vm_compute; exact I.

(** ** The drawing reducer *)

Section Reducer.

Import DrawingContext.

(** Filtering by a negated equality keeps exactly the other elements. *)
Lemma filter_ne_absent (k : Z) (l : list Z) :
  k ∉ l -> filter (fun i => i ≠ k) l = l.
Proof.
  induction l as [|a l IH]; intros Hk; [done|].
  rewrite not_elem_of_cons in Hk. destruct Hk as [Hak Hl].
  rewrite filter_cons_True; [|congruence].
  by rewrite IH.
Qed.

Lemma filter_ne_removed (k : Z) (l : list Z) :
  k ∉ filter (fun i => i ≠ k) l.
Proof. rewrite list_elem_of_filter. tauto. Qed.

Lemma includes_spec (l : list Z) (k : Z) :
  includes l k = true <-> k ∈ l.
Proof. unfold includes. by rewrite bool_decide_eq_true. Qed.

(** C3.  ADD_OBJECT appends the new object at the end of the list, so
    every existing object keeps its position; DELETE_OBJECT with id [k]
    keeps, in their order, exactly the objects whose id is not [k], and
    [k] is no longer selected. *)
Theorem drawingReducer_add_delete (s : state) :
  (forall o : drawnObject,
     objects (drawingReducer s (ADD_OBJECT o)) = objects s ++ [o] /\
     (forall i x, objects s !! i = Some x ->
                  objects (drawingReducer s (ADD_OBJECT o)) !! i = Some x) /\
     objects (drawingReducer s (ADD_OBJECT o)) !! length (objects s) = Some o /\
     selectedObjects (drawingReducer s (ADD_OBJECT o)) = selectedObjects s) /\
  (forall k : Z,
     let s' := drawingReducer s (DELETE_OBJECT k) in
     objects s' = filter (fun o => id o ≠ k) (objects s) /\
     (forall o, o ∈ objects s' <-> o ∈ objects s /\ id o ≠ k) /\
     objects s' `sublist_of` objects s /\
     selectedObjects s' = filter (fun i => i ≠ k) (selectedObjects s) /\
     (k ∉ selectedObjects s') /\
     (forall i, i ≠ k -> (i ∈ selectedObjects s' <-> i ∈ selectedObjects s))).
Proof.
  split.
  - intros o. cbn. split_and!; [done| |by rewrite list_lookup_middle|done].
    intros i x Hi. by apply lookup_app_l_Some.
  - intros k. cbn. split_and!; [done| |apply sublist_filter|done| |].
    + intros o. rewrite list_elem_of_filter. tauto.
    + apply filter_ne_removed.
    + intros i Hi. rewrite list_elem_of_filter. tauto.
Qed.

End Reducer.

Section Selection.

Import DrawingContext.

Lemma selectObject_selected (s : state) (k : Z) :
  k ∈ selectedObjects s ->
  selectedObjects (selectObject k s) = filter (fun i => i ≠ k) (selectedObjects s).
Proof. intros Hk. cbn. apply includes_spec in Hk. by rewrite Hk. Qed.

Lemma selectObject_unselected (s : state) (k : Z) :
  k ∉ selectedObjects s ->
  selectedObjects (selectObject k s) = selectedObjects s ++ [k].
Proof.
  intros Hk. cbn. destruct (includes (selectedObjects s) k) eqn:E; [|done].
  apply includes_spec in E. contradiction.
Qed.

Lemma selectObject_twice_selected (s : state) (k : Z) :
  k ∈ selectedObjects s ->
  selectedObjects (selectObject k (selectObject k s))
  = filter (fun i => i ≠ k) (selectedObjects s) ++ [k].
Proof.
  intros Hk. rewrite selectObject_unselected; rewrite selectObject_selected by done.
  - done.
  - apply filter_ne_removed.
Qed.

Lemma selectObject_twice_unselected (s : state) (k : Z) :
  k ∉ selectedObjects s ->
  selectedObjects (selectObject k (selectObject k s)) = selectedObjects s.
Proof.
  intros Hk. rewrite selectObject_selected; rewrite selectObject_unselected by done.
  - rewrite filter_app, filter_ne_absent by done.
    rewrite filter_cons_False, filter_nil by tauto. apply app_nil_r.
  - set_solver.
Qed.

(** No action puts an id into the selection twice. *)
Lemma drawingReducer_selection_NoDup (s : state) (a : action) :
  NoDup (selectedObjects s) -> NoDup (selectedObjects (drawingReducer s a)).
Proof.
  intros Hnd. destruct a; cbn; try done; try apply NoDup_nil_2.
  - by apply NoDup_filter.
  - destruct (includes (selectedObjects s) payload) eqn:E.
    + by apply NoDup_filter.
    + apply NoDup_app. split_and!; [done| |apply NoDup_singleton].
      intros i Hi Hi'. apply list_elem_of_singleton in Hi'. subst.
      apply includes_spec in Hi. congruence.
Qed.

Lemma dispatchAll_selection_NoDup (actions : list action) :
  NoDup (selectedObjects (dispatchAll initialState actions)).
Proof.
  unfold dispatchAll.
  enough (Hgen : forall s, NoDup (selectedObjects s) ->
                           NoDup (selectedObjects (foldl drawingReducer s actions))).
  { apply Hgen. apply NoDup_nil_2. }
  induction actions as [|a actions IH]; intros s Hs; [done|].
  cbn. apply IH. by apply drawingReducer_selection_NoDup.
Qed.

(** Selecting twice an id that was already selected moves it to the end
    of the selection: after [1] and [2] were selected, selecting [1] twice
    leaves [2; 1]. *)
Lemma select_twice_reorders :
  let s := dispatchAll initialState [SELECT_OBJECT 1; SELECT_OBJECT 2] in
  selectedObjects s = [1; 2]%Z /\
  selectedObjects (selectObject 1 (selectObject 1 s)) = [2; 1]%Z /\
  selectedObjects (selectObject 1 (selectObject 1 s)) ≠ selectedObjects s.
Proof. vm_compute. split_and!; [done|done|discriminate]. Qed.

(** C9, amended.  SELECT_OBJECT toggles membership: a selected id is
    removed, an unselected id is appended, and the objects are untouched.
    Dispatching it twice gives back a selection with the same members; it
    gives back the same list when the id was not selected before, and a
    permutation of it when the selection had no duplicates. *)
Theorem select_object_toggle (s : state) (k : Z) :
  (k ∈ selectedObjects s ->
     selectedObjects (selectObject k s) = filter (fun i => i ≠ k) (selectedObjects s) /\
     k ∉ selectedObjects (selectObject k s)) /\
  (k ∉ selectedObjects s ->
     selectedObjects (selectObject k s) = selectedObjects s ++ [k]) /\
  objects (selectObject k s) = objects s /\
  objects (selectObject k (selectObject k s)) = objects s /\
  (forall i, i ∈ selectedObjects (selectObject k (selectObject k s))
             <-> i ∈ selectedObjects s) /\
  (k ∉ selectedObjects s ->
     selectedObjects (selectObject k (selectObject k s)) = selectedObjects s) /\
  (NoDup (selectedObjects s) ->
     selectedObjects (selectObject k (selectObject k s)) ≡ₚ selectedObjects s).
Proof.
  split_and!; [| apply selectObject_unselected | done | done | |
               apply selectObject_twice_unselected | ].
  - intros Hk. rewrite selectObject_selected by done.
    split; [done | apply filter_ne_removed].
  - intros i. destruct (decide (k ∈ selectedObjects s)) as [Hk|Hk].
    + rewrite selectObject_twice_selected by done.
      rewrite elem_of_app, list_elem_of_filter, list_elem_of_singleton.
      destruct (decide (i = k)); subst; tauto.
    + by rewrite selectObject_twice_unselected.
  - intros Hnd. destruct (decide (k ∈ selectedObjects s)) as [Hk|Hk].
    + rewrite selectObject_twice_selected by done.
      apply NoDup_Permutation; [|done|].
      * apply NoDup_app. split_and!; [by apply NoDup_filter| |apply NoDup_singleton].
        intros i Hi Hi'. apply list_elem_of_singleton in Hi'. subst.
        by apply filter_ne_removed in Hi.
      * intros i. rewrite elem_of_app, list_elem_of_filter, list_elem_of_singleton.
        destruct (decide (i = k)); subst; tauto.
    + by rewrite selectObject_twice_unselected.
Qed.

(** The toggle at work on the state reached by selecting [1] and [2]:
    [1] is selected there, [3] is not, and the selection has no
    duplicates. *)
Lemma select_object_toggle_witness :
  let s := dispatchAll initialState [SELECT_OBJECT 1; SELECT_OBJECT 2] in
  selectedObjects (selectObject 1 s) = [2]%Z /\
  selectedObjects (selectObject 3 s) = [1; 2; 3]%Z /\
  selectedObjects (selectObject 3 (selectObject 3 s)) = [1; 2]%Z /\
  selectedObjects (selectObject 1 (selectObject 1 s)) ≡ₚ [1; 2]%Z.
Proof.
  intros s.
  assert (H1 : (1 : Z) ∈ selectedObjects s) by by_decide.
  assert (H3 : (3 : Z) ∉ selectedObjects s) by by_decide.
  assert (Hnd : NoDup (selectedObjects s)) by by_decide.
  split_and!.
  - exact (proj1 (proj1 (select_object_toggle s 1) H1)).
  - exact (proj1 (proj2 (select_object_toggle s 3)) H3).
  - exact (proj1 (proj2 (proj2 (proj2 (proj2 (proj2 (select_object_toggle s 3)))))) H3).
  - exact (proj2 (proj2 (proj2 (proj2 (proj2 (proj2 (select_object_toggle s 1)))))) Hnd).
Defined.

End Selection.

(** ** Snapping to the grid *)

Section Snap.

Import DrawingContext DrawingCanvas.





(** With a grid size other than zero the real coordinates are the
    numbers the code computes. *)
Lemma snapToGridPoint_numbers (ctx : state) (p : point) :
  gridSize ctx <> 0 ->
  Numbers.snapToGridPoint (snapToGrid ctx) (JS.Finite (gridSize ctx))
    (Numbers.Point (JS.Finite (px p)) (JS.Finite (py p)))
  = Numbers.Point (JS.Finite (px (snapToGridPoint ctx p)))
                  (JS.Finite (py (snapToGridPoint ctx p))).
Proof.
  intros Hg. unfold Numbers.snapToGridPoint, snapToGridPoint.
  destruct (snapToGrid ctx); cbn; [|done].
  destruct (Req_dec_T (gridSize ctx) 0) as [H0|_]; [done|]. by cbn.
Qed.


(** The mouse position (33, 47) snaps to (40, 40) on that grid. *)
Example snapToGridPoint_33_47 :
  snapToGridPoint initialState (Point 33 47) = Point 40 40.
Proof.
  unfold snapToGridPoint. cbn. unfold JS.round.
  rewrite (Zfloor_eq 2) by lra. rewrite (Zfloor_eq 2) by lra.
  f_equal; lra.
Qed.

End Snap.

(** ** The extrusion of rectangles and lines *)

Section Extrusion.

Import Building3D.



(** [Math.atan2] gives the polar angle: a vector other than zero is its
    length times the cosine and the sine of that angle. *)
Lemma sqrt_one_plus_slope (dx dy : R) :
  dx <> 0 ->
  sqrt (1 + (dy / dx)²) = sqrt (dx ^ 2 + dy ^ 2) / Rabs dx.
Proof.
  intros Hdx.
  replace (1 + (dy / dx)²) with ((dx ^ 2 + dy ^ 2) / dx²)
    by (unfold Rsqr; field; exact Hdx).
  rewrite sqrt_div_alt by (by apply Rlt_0_sqr).
  by rewrite sqrt_Rsqr_abs.
Qed.

Lemma atan2_polar (dx dy : R) :
  dx <> 0 \/ dy <> 0 ->
  let r := sqrt (dx ^ 2 + dy ^ 2) in
  r * cos (JS.atan2 dy dx) = dx /\ r * sin (JS.atan2 dy dx) = dy.
Proof.
  intros Hnz r.
  assert (Hr : 0 < r).
  { apply sqrt_lt_R0. destruct Hnz; nra. }
  unfold JS.atan2.
  destruct (Rlt_dec 0 dx) as [Hpos|Hnpos].
  - rewrite cos_atan, sin_atan, sqrt_one_plus_slope by lra.
    fold r. rewrite Rabs_right by lra. split; field; lra.
  - destruct (Rlt_dec dx 0) as [Hneg|Hnneg].
    + assert (Hc : r * - cos (atan (dy / dx)) = dx /\
                   r * - sin (atan (dy / dx)) = dy).
      { rewrite cos_atan, sin_atan, sqrt_one_plus_slope by lra.
        fold r. rewrite Rabs_left by lra. split; field; lra. }
      destruct (Rle_dec 0 dy).
      * by rewrite neg_cos, neg_sin.
      * unfold Rminus. rewrite cos_plus, sin_plus, cos_neg, sin_neg, cos_PI, sin_PI.
        destruct Hc as [Hc1 Hc2].
        split; (etrans; [|eassumption]); ring.
    + assert (Hdx : dx = 0) by lra. subst dx.
      assert (Hsq : r = Rabs dy).
      { unfold r. replace (0 ^ 2 + dy ^ 2) with (dy²) by (unfold Rsqr; ring).
        apply sqrt_Rsqr_abs. }
      destruct (Rlt_dec 0 dy); [|destruct (Rlt_dec dy 0)].
      * rewrite cos_PI2, sin_PI2, Hsq, Rabs_right by lra. split; ring.
      * rewrite cos_neg, sin_neg, cos_PI2, sin_PI2, Hsq, Rabs_left by lra. split; ring.
      * destruct Hnz; lra.
Qed.

(** The drawn line from (0, 0) to (3, 4) with the initial wall settings. *)
Lemma createLine_3_4 :
  let ws := DrawingContext.wallSettings DrawingContext.initialState in
  exists n, createLine [Point 0 0; Point 3 4] ws 0 false = JS.Ok n /\
    Forall (fun m => (footprint m).1 = 5) (meshes n).
Proof.
  eexists. split; [reflexivity|].
  assert (H5 : segmentLength (Point 0 0) (Point 3 4) = 5).
  { unfold segmentLength. cbn.
    replace ((3 - 0) * ((3 - 0) * 1) + (4 - 0) * ((4 - 0) * 1)) with (5 * 5) by lra.
    apply sqrt_square. lra. }
  cbn. repeat constructor; exact H5.
Qed.

(** C2.  A drawn line from [p0] to [p1] becomes a wall box and a floor
    slab.  The wall box is as long as the Euclidean distance between the
    endpoints, as high as the wall setting and as deep as the wall
    thickness over 12; its centre lies over the midpoint of the endpoints
    and it is rotated about the vertical axis by minus
    [atan2 (p1.y - p0.y, p1.x - p0.x)]. *)
Theorem createLine_box (obj : drawnObject) (p0 p1 : point) (rest : list point)
    (ws : wall_settings) (index : nat) (showDimensions : bool) :
  obj_shape obj = line (p0 :: p1 :: rest) ->
  exists n,
    convert ws showDimensions index obj = JS.Ok (Some n) /\
    createLine (p0 :: p1 :: rest) ws index showDimensions = JS.Ok n /\
    exists wallMesh floorMesh,
      meshes n = [wallMesh; floorMesh] /\
      geom wallMesh =
        boxGeometry (dist_euc (px p0) (py p0) (px p1) (py p1))
                    (wall_height ws) (wall_thickness ws / 12) /\
      position wallMesh =
        ((px p0 + px p1) / 2, wall_height ws / 2, (py p0 + py p1) / 2) /\
      rotation wallMesh = (0, - JS.atan2 (py p1 - py p0) (px p1 - px p0), 0).
Proof.
  intros Hobj. unfold convert. rewrite Hobj. cbn.
  eexists. split_and!; [reflexivity|reflexivity|].
  exists (wallSegment p0 p1 ws), (floorSegment p0 p1 ws).
  split_and!; try reflexivity.
  - by destruct showDimensions.
  - cbn. unfold segmentLength, dist_euc, Rsqr. do 2 f_equal. ring.
Qed.

(** For the line from (0, 0) to (3, 4). *)
Lemma createLine_box_witness :
  let obj := DrawnObject 1 (line [Point 0 0; Point 3 4])
               (DrawingContext.drawingSettings DrawingContext.initialState) in
  exists n,
    convert (DrawingContext.wallSettings DrawingContext.initialState) true 0 obj
    = JS.Ok (Some n).
Proof.
  intros obj.
  destruct (createLine_box obj (Point 0 0) (Point 3 4) []
              (DrawingContext.wallSettings DrawingContext.initialState) 0%nat true
              eq_refl) as (n & Hn & _).
  exists n. exact Hn.
Defined.

(** Where the wall box of a line lies: the ends of its length axis are
    the two endpoints of the line. *)
Lemma wallSegment_ends (p0 p1 : point) (ws : wall_settings) :
  let m := wallSegment p0 p1 ws in
  lengthAxisEnd (-1) m = (px p0, wall_height ws / 2, py p0) /\
  lengthAxisEnd 1 m = (px p1, wall_height ws / 2, py p1).
Proof.
  cbn. unfold segmentAngle, segmentLength.
  set (dx := px p1 - px p0). set (dy := py p1 - py p0).
  rewrite cos_neg, sin_neg.
  destruct (Req_dec_T dx 0) as [Hx|Hx]; [destruct (Req_dec_T dy 0) as [Hy|Hy]|].
  - assert (Hr : sqrt (dx ^ 2 + dy ^ 2) = 0).
    { rewrite Hx, Hy. replace (0 ^ 2 + 0 ^ 2) with 0 by ring. apply sqrt_0. }
    rewrite Hr. unfold dx, dy in *. split; f_equal; [f_equal| |f_equal|]; lra.
  - destruct (atan2_polar dx dy (or_intror Hy)) as [Hc Hs].
    cbn zeta in Hc, Hs. unfold dx, dy in *.
    split; f_equal; [f_equal| |f_equal|]; lra.
  - destruct (atan2_polar dx dy (or_introl Hx)) as [Hc Hs].
    cbn zeta in Hc, Hs. unfold dx, dy in *.
    split; f_equal; [f_equal| |f_equal|]; lra.
Qed.

End Extrusion.

(** ** The pendulum's trail *)

Section PendulumTrail.

Import PendulumSimulation.

Lemma trailBounded_new (w h : R) : trailBounded (new w h).
Proof. split; cbn; lia. Qed.

Lemma trailBounded_update (s : state) : trailBounded s -> trailBounded (update s).
Proof.
  intros [Hmax Hlen]. split; [done|].
  unfold update. cbn [trail maxTrailLength]. rewrite Hmax.
  destruct (decide _) as [Hgt|Hle].
  - rewrite length_tl, length_app. cbn. lia.
  - lia.
Qed.

Lemma trailBounded_apply (s : state) (c : call) :
  trailBounded s -> trailBounded (apply s c).
Proof.
  destruct c; cbn; try apply trailBounded_update;
    intros [Hmax Hlen]; split; cbn; try done; lia.
Qed.

Lemma trailBounded_applyAll (calls : list call) (s : state) :
  trailBounded s -> trailBounded (applyAll s calls).
Proof.
  revert s. induction calls as [|c calls IH]; intros s Hs; [done|].
  cbn. apply IH. by apply trailBounded_apply.
Qed.

Lemma trailBounded_step (k : Sketch.t state) (e : Sketch.event) :
  trailBounded (Sketch.sim k) -> trailBounded (Sketch.sim (Sketch.step k e)).
Proof.
  intros Hk. destruct e as [| | |rnd|param value|w h]; cbn.
  - unfold Sketch.draw. destruct (Sketch.isRunning k); [|exact Hk].
    by apply trailBounded_update.
  - exact Hk.
  - exact Hk.
  - exact (trailBounded_apply _ Reset Hk).
  - unfold updateParameter. repeat case_decide;
      first [ exact Hk
            | exact (trailBounded_apply _ (SetLength _) Hk)
            | exact (trailBounded_apply _ (SetInitialAngle _) Hk)
            | exact (trailBounded_apply _ (SetGravity _) Hk) ].
  - exact (trailBounded_apply _ (Resize _ _) Hk).
Qed.

(** C10.  The trail of a pendulum never holds more than 50 points: the
    bound is 50 from the constructor on, an update appends exactly one
    point and drops the oldest one when the bound is exceeded, reset
    empties the trail, and after every sequence of method calls, and
    after every run of the sketch, the trail has at most 50 points. *)
Theorem pendulum_trail_bounded (w h : R) :
  maxTrailLength (new w h) = 50%nat /\
  trail (new w h) = [] /\
  (forall s : state, exists pt : point,
     trail (update s) =
       if decide (Datatypes.length (trail s) < maxTrailLength s)%nat
       then trail s ++ [pt]
       else tail (trail s ++ [pt])) /\
  (forall s : state, trail (reset s) = []) /\
  (forall calls : list call,
     maxTrailLength (applyAll (new w h) calls) = 50%nat /\
     (Datatypes.length (trail (applyAll (new w h) calls)) <= 50)%nat) /\
  (forall events : list Sketch.event,
     (Datatypes.length
        (trail (Sketch.sim (Sketch.run (Sketch.setup (new w h)) events))) <= 50)%nat).
Proof.
  split_and!; try done.
  - intros s. eexists. cbn. rewrite length_app. cbn.
    destruct (decide (maxTrailLength s < _)%nat), (decide (_ < maxTrailLength s)%nat);
      try reflexivity; lia.
  - intros calls. apply trailBounded_applyAll, trailBounded_new.
  - intros events.
    enough (Hgen : forall k : Sketch.t state,
               trailBounded (Sketch.sim k) ->
               trailBounded (Sketch.sim (Sketch.run k events))).
    { apply Hgen, trailBounded_new. }
    induction events as [|e events IH]; intros k Hk; [done|].
    cbn. apply IH. by apply trailBounded_step.
Qed.

(** Sixty updates of a fresh pendulum leave exactly 50 points. *)
Example pendulum_sixty_updates :
  Datatypes.length (trail (applyAll (new 800 600) (replicate 60 Update))) = 50%nat.
Proof. reflexivity. Qed.

End PendulumTrail.

(** ** Start, pause and reset of a sketch *)

Section Paused.

Context {S : Type} `{Simulation S}.

Lemma draw_paused (k : Sketch.t S) :
  Sketch.isRunning k = false -> Sketch.draw k = k.
Proof. intros Hk. unfold Sketch.draw. by rewrite Hk. Qed.

(** A step other than [Start] keeps a paused sketch paused. *)
Lemma step_keeps_paused (k : Sketch.t S) (e : Sketch.event) :
  Sketch.isRunning k = false -> Sketch.isStart e = false ->
  Sketch.isRunning (Sketch.step k e) = false.
Proof.
  intros Hk He. destruct e; cbn; try done.
  by rewrite draw_paused.
Qed.

Lemma run_keeps_paused (events : list Sketch.event) (k : Sketch.t S) :
  Sketch.isRunning k = false ->
  Forall (fun e => Sketch.isStart e = false) events ->
  Sketch.isRunning (Sketch.run k events) = false.
Proof.
  revert k. induction events as [|e events IH]; intros k Hk Hev; [done|].
  apply Forall_cons in Hev as [He Hev].
  cbn. apply IH; [|done]. by apply step_keeps_paused.
Qed.

(** While paused, the frames of a run can be left out. *)
Lemma run_paused_without_frames (events : list Sketch.event) (k : Sketch.t S) :
  Sketch.isRunning k = false ->
  Forall (fun e => Sketch.isStart e = false) events ->
  Sketch.run k events
  = Sketch.run k (filter (fun e => Sketch.isFrame e = false) events).
Proof.
  revert k. induction events as [|e events IH]; intros k Hk Hev; [done|].
  apply Forall_cons in Hev as [He Hev].
  destruct (Sketch.isFrame e) eqn:Hf.
  - rewrite filter_cons_False by (rewrite Hf; discriminate).
    destruct e; try discriminate. cbn. rewrite draw_paused by done. by apply IH.
  - rewrite filter_cons_True by done. cbn.
    apply IH; [|done]. by apply step_keeps_paused.
Qed.

(** C4.  For every simulation: the sketch calls [update] in a frame only
    when the running flag is set; [start], [pause] and [reset] change
    nothing of the mode but that flag; and after [pause], whatever happens
    before the next [start], the sketch stays paused, the next frame
    leaves sketch and simulation as they are, and the whole run ends in
    the state it would reach without its frames. *)
Theorem paused_frames_change_nothing (k : Sketch.t S) (events : list Sketch.event) :
  Forall (fun e => Sketch.isStart e = false) events ->
  let paused := Sketch.run (Sketch.pause k) events in
  Sketch.draw k
    = (if Sketch.isRunning k then Sketch.Make (update (Sketch.sim k)) true else k) /\
  Sketch.start k = Sketch.Make (Sketch.sim k) true /\
  Sketch.pause k = Sketch.Make (Sketch.sim k) false /\
  (forall rnd, Sketch.isRunning (Sketch.resetControl rnd k) = false) /\
  Sketch.isRunning paused = false /\
  Sketch.step paused Sketch.Frame = paused /\
  Sketch.sim (Sketch.step paused Sketch.Frame) = Sketch.sim paused /\
  paused = Sketch.run (Sketch.pause k)
             (filter (fun e => Sketch.isFrame e = false) events).
Proof.
  intros Hev paused.
  assert (Hp : Sketch.isRunning paused = false) by by apply run_keeps_paused.
  split_and!; try done.
  - unfold Sketch.draw. by destruct k as [s []].
  - cbn. by apply draw_paused.
  - cbn. by rewrite draw_paused.
  - by apply run_paused_without_frames.
Qed.

End Paused.

(** A running pendulum, a running wave, gravity and electric-field sketch
    are paused; frames, a reset, a parameter change and a resize follow. *)
Lemma paused_frames_change_nothing_witness :
  let events := [Sketch.Frame; Sketch.Reset (fun _ => 1 / 2); Sketch.Frame;
                 Sketch.UpdateParameter "length" (VNum 2); Sketch.Frame;
                 Sketch.WindowResized 640 480; Sketch.Frame] in
  let others := [Sketch.Reset (fun _ => 1 / 2);
                 Sketch.UpdateParameter "length" (VNum 2);
                 Sketch.WindowResized 640 480] in
  let p := Sketch.start (Sketch.setup (PendulumSimulation.new 800 600)) in
  let w := Sketch.start (Sketch.setup (WaveInterferenceSimulation.new 800 600)) in
  let g := Sketch.start (Sketch.setup (GravitySimulation.new 800 600)) in
  let e := Sketch.start (Sketch.setup (ElectricFieldSimulation.new 800 600)) in
  Sketch.run (Sketch.pause p) events = Sketch.run (Sketch.pause p) others /\
  Sketch.run (Sketch.pause w) events = Sketch.run (Sketch.pause w) others /\
  Sketch.run (Sketch.pause g) events = Sketch.run (Sketch.pause g) others /\
  Sketch.run (Sketch.pause e) events = Sketch.run (Sketch.pause e) others.
Proof.
  intros events others p w g e.
  assert (Hev : Forall (fun e => Sketch.isStart e = false) events)
    by (repeat constructor).
  split_and!.
  - exact (proj2 (proj2 (proj2 (proj2 (proj2 (proj2 (proj2
            (paused_frames_change_nothing p events Hev)))))))).
  - exact (proj2 (proj2 (proj2 (proj2 (proj2 (proj2 (proj2
            (paused_frames_change_nothing w events Hev)))))))).
  - exact (proj2 (proj2 (proj2 (proj2 (proj2 (proj2 (proj2
            (paused_frames_change_nothing g events Hev)))))))).
  - exact (proj2 (proj2 (proj2 (proj2 (proj2 (proj2 (proj2
            (paused_frames_change_nothing e events Hev)))))))).
Defined.

(** ** Reset *)

Section ResetControl.

(** C5 fails on the code for the gravity simulation: its reset draws a
    new random angle for every particle.  With [Math.random] returning
    one half, the first particle of a fresh system, which starts at angle
    0, is put at angle [PI]. *)
Lemma gravity_reset_is_random :
  let s := GravitySimulation.new 800 600 in
  let s' := Sketch.sim (Sketch.resetControl (fun _ => 1 / 2) (Sketch.setup s)) in
  exists p p',
    head (GravitySimulation.particles s) = Some p /\
    head (GravitySimulation.particles s') = Some p' /\
    GravitySimulation.Particle.angle p = 0 /\
    GravitySimulation.Particle.angle p' = PI /\
    p' <> p /\ s' <> s.
Proof.
  cbn. do 2 eexists. split_and!; [reflexivity|reflexivity| | | |].
  - cbn. ring.
  - cbn. field.
  - intros [= Ha]. pose proof PI_RGT_0. lra.
  - intros [= Ha]. pose proof PI_RGT_0. lra.
Qed.

(** The loop over start angles ends by itself: with 13 tests of its
    condition or more it produces the same lines. *)
Lemma linesFrom_S (w h c1 c2 : R) (n : nat) (angle : R) :
  ElectricFieldSimulation.linesFrom w h c1 c2 (S n) angle
  = if Rlt_dec angle (2 * PI) then
      ElectricFieldSimulation.traceLine w h c1 c2 50
        (w * (3 / 10) + cos angle * 10) (h * (5 / 10) + sin angle * 10)
      :: ElectricFieldSimulation.linesFrom w h c1 c2 n (angle + 2 * PI / 12)
    else [].
Proof. reflexivity. Qed.

Lemma linesFrom_enough_fuel (w h c1 c2 : R) (steps n m : nat) (angle : R) :
  2 * PI <= angle + INR steps * (2 * PI / 12) ->
  (steps < n)%nat -> (steps < m)%nat ->
  ElectricFieldSimulation.linesFrom w h c1 c2 n angle
  = ElectricFieldSimulation.linesFrom w h c1 c2 m angle.
Proof.
  revert n m angle. induction steps as [|steps IH]; intros n m angle Hend Hn Hm;
    destruct n as [|n]; [lia| |lia|]; (destruct m as [|m]; [lia|]);
    rewrite !linesFrom_S; destruct (Rlt_dec angle (2 * PI)) as [Hlt|Hge];
    try reflexivity.
  - change (INR 0) with 0 in Hend. lra.
  - f_equal. apply IH; [|lia|lia]. rewrite S_INR in Hend. lra.
Qed.

Lemma generatedFieldLines_fuel (w h c1 c2 : R) (n : nat) :
  (13 <= n)%nat ->
  ElectricFieldSimulation.linesFrom w h c1 c2 n 0
  = ElectricFieldSimulation.linesFrom w h c1 c2 13 0.
Proof.
  intros Hn. apply (linesFrom_enough_fuel w h c1 c2 12); [|lia|lia].
  rewrite INR_IZR_INZ. change (IZR (Z.of_nat 12)) with 12. lra.
Qed.

(** A reset pendulum depends on its configuration only. *)
Lemma pendulum_reset_configuration (s1 s2 : PendulumSimulation.state) :
  PendulumSimulation.configuration s1 = PendulumSimulation.configuration s2 ->
  PendulumSimulation.reset s1 = PendulumSimulation.reset s2.
Proof.
  destruct s1, s2. unfold PendulumSimulation.configuration. cbn.
  intros [= -> -> -> -> -> -> -> -> ->]. reflexivity.
Qed.

Lemma wave_reset_configuration (s1 s2 : WaveInterferenceSimulation.state) :
  WaveInterferenceSimulation.configuration s1
  = WaveInterferenceSimulation.configuration s2 ->
  WaveInterferenceSimulation.reset s1 = WaveInterferenceSimulation.reset s2.
Proof.
  destruct s1, s2. unfold WaveInterferenceSimulation.configuration. cbn.
  intros [= -> -> -> -> -> ->]. reflexivity.
Qed.

Lemma electric_reset_configuration (s1 s2 : ElectricFieldSimulation.state) :
  ElectricFieldSimulation.configuration s1
  = ElectricFieldSimulation.configuration s2 ->
  ElectricFieldSimulation.reset s1 = ElectricFieldSimulation.reset s2.
Proof.
  destruct s1, s2. unfold ElectricFieldSimulation.configuration. cbn.
  intros [= -> -> -> -> ->]. reflexivity.
Qed.

(** C5, amended.  The reset control stops the sketch.  For the pendulum
    it puts the angle back to the configured initial angle when a non-zero
    one is configured and to [PI / 6] when none is, zeroes angular velocity
    and acceleration and empties the trail; for the wave system it puts
    the clock back to zero; for the electric field it recomputes the field
    lines.  These three keep their configuration, a fresh one is reset to
    itself, and two sketches with the same configuration behave alike
    after a reset.  For the gravity simulation reset empties every trail
    and gives the [i]-th particle the angle [rnd i * TWO_PI], keeping its
    distance and speed. *)
Theorem reset_restores_motion :
  (forall (k : Sketch.t PendulumSimulation.state) (rnd : nat -> R),
     let k' := Sketch.resetControl rnd k in
     Sketch.isRunning k' = false /\
     PendulumSimulation.angleVel (Sketch.sim k') = 0 /\
     PendulumSimulation.angleAcc (Sketch.sim k') = 0 /\
     PendulumSimulation.trail (Sketch.sim k') = [] /\
     (PendulumSimulation.initialAngle (Sketch.sim k) = None ->
        PendulumSimulation.angle (Sketch.sim k') = PI / 6) /\
     (forall a, PendulumSimulation.initialAngle (Sketch.sim k) = Some a -> a <> 0 ->
        PendulumSimulation.angle (Sketch.sim k') = a) /\
     PendulumSimulation.configuration (Sketch.sim k')
     = PendulumSimulation.configuration (Sketch.sim k)) /\
  (forall (k : Sketch.t WaveInterferenceSimulation.state) (rnd : nat -> R),
     let k' := Sketch.resetControl rnd k in
     Sketch.isRunning k' = false /\
     WaveInterferenceSimulation.time (Sketch.sim k') = 0 /\
     WaveInterferenceSimulation.configuration (Sketch.sim k')
     = WaveInterferenceSimulation.configuration (Sketch.sim k)) /\
  (forall (k : Sketch.t ElectricFieldSimulation.state) (rnd : nat -> R),
     let k' := Sketch.resetControl rnd k in
     let s := Sketch.sim k in
     Sketch.isRunning k' = false /\
     ElectricFieldSimulation.fieldLines (Sketch.sim k')
     = ElectricFieldSimulation.generatedFieldLines
         (ElectricFieldSimulation.width s) (ElectricFieldSimulation.height s)
         (ElectricFieldSimulation.charge1 s) (ElectricFieldSimulation.charge2 s) /\
     ElectricFieldSimulation.configuration (Sketch.sim k')
     = ElectricFieldSimulation.configuration s) /\
  (forall (w h : R) (rnd : nat -> R),
     Sketch.resetControl rnd (Sketch.setup (PendulumSimulation.new w h))
     = Sketch.setup (PendulumSimulation.new w h) /\
     Sketch.resetControl rnd (Sketch.setup (WaveInterferenceSimulation.new w h))
     = Sketch.setup (WaveInterferenceSimulation.new w h) /\
     Sketch.resetControl rnd (Sketch.setup (ElectricFieldSimulation.new w h))
     = Sketch.setup (ElectricFieldSimulation.new w h)) /\
  (forall (k1 k2 : Sketch.t PendulumSimulation.state) rnd1 rnd2 events,
     PendulumSimulation.configuration (Sketch.sim k1)
     = PendulumSimulation.configuration (Sketch.sim k2) ->
     Sketch.run (Sketch.resetControl rnd1 k1) events
     = Sketch.run (Sketch.resetControl rnd2 k2) events) /\
  (forall (k1 k2 : Sketch.t WaveInterferenceSimulation.state) rnd1 rnd2 events,
     WaveInterferenceSimulation.configuration (Sketch.sim k1)
     = WaveInterferenceSimulation.configuration (Sketch.sim k2) ->
     Sketch.run (Sketch.resetControl rnd1 k1) events
     = Sketch.run (Sketch.resetControl rnd2 k2) events) /\
  (forall (k1 k2 : Sketch.t ElectricFieldSimulation.state) rnd1 rnd2 events,
     ElectricFieldSimulation.configuration (Sketch.sim k1)
     = ElectricFieldSimulation.configuration (Sketch.sim k2) ->
     Sketch.run (Sketch.resetControl rnd1 k1) events
     = Sketch.run (Sketch.resetControl rnd2 k2) events) /\
  (forall (k : Sketch.t GravitySimulation.state) (rnd : nat -> R),
     let k' := Sketch.resetControl rnd k in
     Sketch.isRunning k' = false /\
     length (GravitySimulation.particles (Sketch.sim k'))
     = length (GravitySimulation.particles (Sketch.sim k)) /\
     (forall i p, GravitySimulation.particles (Sketch.sim k) !! i = Some p ->
        GravitySimulation.particles (Sketch.sim k') !! i
        = Some (GravitySimulation.Particle.Make (rnd i * (2 * PI))
                  (GravitySimulation.Particle.distance p)
                  (GravitySimulation.Particle.speed p) []))).
Proof.
  split_and!.
  - intros k rnd. cbn. split_and!; try reflexivity.
    + by intros ->.
    + intros a -> Ha. cbn. by destruct (Req_dec_T a 0).
  - intros k rnd. cbn. by split_and!.
  - intros k rnd. cbn. by split_and!.
  - intros w h rnd. by split_and!.
  - intros k1 k2 rnd1 rnd2 events Hc. unfold Sketch.resetControl. cbn.
    by rewrite (pendulum_reset_configuration _ _ Hc).
  - intros k1 k2 rnd1 rnd2 events Hc. unfold Sketch.resetControl. cbn.
    by rewrite (wave_reset_configuration _ _ Hc).
  - intros k1 k2 rnd1 rnd2 events Hc. unfold Sketch.resetControl. cbn.
    by rewrite (electric_reset_configuration _ _ Hc).
  - intros k rnd. cbn. split_and!; [done|by rewrite length_imap|].
    intros i p Hp. by rewrite list_lookup_imap, Hp.
Qed.

(** A pendulum configured with the initial angle 1, started and run for
    two frames, is reset to the angle 1; a fresh pendulum is reset to
    [PI / 6]. *)
Lemma reset_restores_motion_witness :
  let k := Sketch.run
             (Sketch.setup (PendulumSimulation.setInitialAngle 1
                              (PendulumSimulation.new 800 600)))
             [Sketch.Start; Sketch.Frame; Sketch.Frame] in
  let fresh := Sketch.setup (PendulumSimulation.new 800 600) in
  PendulumSimulation.angle (Sketch.sim (Sketch.resetControl (fun _ => 0) k)) = 1 /\
  PendulumSimulation.angle (Sketch.sim (Sketch.resetControl (fun _ => 0) fresh))
  = PI / 6 /\
  Sketch.run (Sketch.resetControl (fun _ => 0) k) [Sketch.Start; Sketch.Frame]
  = Sketch.run (Sketch.resetControl (fun _ => 0)
                  (Sketch.setup (PendulumSimulation.setInitialAngle 1
                                   (PendulumSimulation.new 800 600))))
      [Sketch.Start; Sketch.Frame].
Proof.
  intros k fresh.
  destruct reset_restores_motion as (Hp & _ & _ & _ & Hd & _).
  split_and!.
  - destruct (Hp k (fun _ => 0)) as (_ & _ & _ & _ & _ & Hsome & _).
    apply Hsome; [reflexivity|lra].
  - destruct (Hp fresh (fun _ => 0)) as (_ & _ & _ & _ & Hnone & _).
    apply Hnone. reflexivity.
  - apply Hd. reflexivity.
Defined.

(** The configured initial angle 0 is read as "none": the reset angle is
    [PI / 6]. *)
Example pendulum_initial_angle_zero (s : PendulumSimulation.state) :
  PendulumSimulation.angle (PendulumSimulation.setInitialAngle 0 s) = PI / 6.
Proof.
  cbn. destruct (Req_dec_T 0 0) as [_|Hne]; [reflexivity|].
  exfalso. by apply Hne.
Qed.

End ResetControl.

(** ** What is written to local storage *)

Section Persistence.

Import Operations.

(** C6 fails on the code: submitting the contact form stores the message
    under [contact_messages], which is not a form draft. *)
Lemma contact_messages_are_persisted :
  let w := World DrawingContext.initialState ∅ in
  let w' := perform (ContactSubmit [("name", "Ada")] "2024-01-01T00:00:00.000Z" "17") w in
  localStorage w !! "contact_messages" = None /\
  localStorage w' !! "contact_messages"
  = Some (JArray [JObject [("name", JString "Ada");
                           ("timestamp", JString "2024-01-01T00:00:00.000Z");
                           ("id", JString "msg_17")]]) /\
  "contact_messages" ∉ draftKeys.
Proof. split_and!; [done|by vm_compute|by_decide]. Qed.

Lemma objectOf_isKeyValue (data : formData) : isKeyValue (JObject (objectOf data)).
Proof.
  unfold isKeyValue, objectOf. apply Forall_map, Forall_forall.
  intros [k v] _. by exists v.
Qed.

(** Writing a key leaves every other key as it was. *)
Lemma insert_written_frame (st : storage) (key k : string) (d : json) :
  key ∈ writtenKeys -> k ∉ writtenKeys -> <[key := d]> st !! k = st !! k.
Proof. intros Hkey Hk. apply lookup_insert_ne. intros ->. exact (Hk Hkey). Qed.

Lemma delete_written_frame (st : storage) (key k : string) :
  key ∈ writtenKeys -> k ∉ writtenKeys -> delete key st !! k = st !! k.
Proof. intros Hkey Hk. apply lookup_delete_ne. intros ->. exact (Hk Hkey). Qed.

Lemma written_key_cases :
  Forall (fun key => key ∈ writtenKeys)
    ["contact_form_draft"; "registration_draft"; "contact_messages"; "user_data";
     "registration_pending"; "user_token"; "user_email";
     "physicslearn-performance-mode"; "theme"; "forum_recent_searches"].
Proof. repeat constructor; by_decide. Qed.

(** Every operation leaves the keys outside [writtenKeys] alone. *)
Lemma perform_frame (op : operation) (w : world) (k : string) :
  k ∉ writtenKeys -> localStorage (perform op w) !! k = localStorage w !! k.
Proof.
  intros Hk.
  pose proof written_key_cases as Hw. rewrite !Forall_cons in Hw.
  destruct Hw as (? & ? & ? & ? & ? & ? & ? & ? & ? & ? & _).
  destruct op; unfold perform; cbn [localStorage].
  - reflexivity.
  - by apply insert_written_frame.
  - by apply delete_written_frame.
  - unfold ContactManager.submitContactForm.
    destruct (storedArray _ _); [|reflexivity]. by apply insert_written_frame.
  - by apply insert_written_frame.
  - by apply delete_written_frame.
  - unfold AuthManager.simulateRegistration.
    by rewrite !insert_written_frame.
  - unfold AuthManager.simulateLogin. case_decide; [|reflexivity].
    unfold orUnchanged. by rewrite !insert_written_frame.
  - by apply insert_written_frame.
  - unfold PhysicsLearnApp.toggleTheme. cbn [snd]. by apply insert_written_frame.
  - unfold ForumManager.trackSearchAnalytics.
    destruct (storedArray _ _); [|reflexivity]. by apply insert_written_frame.
Qed.

(** What an operation leaves under a draft key is what was there, or
    nothing, or a plain key/value object. *)
Lemma perform_drafts (op : operation) (w : world) (k : string) (d : json) :
  k ∈ draftKeys ->
  localStorage (perform op w) !! k = Some d ->
  localStorage w !! k = Some d \/ isKeyValue d.
Proof.
  intros Hk. unfold draftKeys in Hk.
  apply elem_of_union in Hk as [Hk|Hk]; apply elem_of_singleton in Hk; subst k;
    destruct op; cbn;
    unfold ContactManager.autoSaveFormData, ContactManager.clearSavedFormData,
      ContactManager.submitContactForm, AuthManager.autoSaveFormData,
      AuthManager.clearSavedFormData, AuthManager.simulateRegistration,
      AuthManager.simulateLogin, PerformanceToggle.saveUserPreference,
      ForumManager.trackSearchAnalytics;
    repeat first [ destruct (storedArray _ _) | case_decide ]; cbn;
    intros Hd; simplify_map_eq; auto;
    right; apply (objectOf_isKeyValue _).
Qed.

(** Each of the written keys is written by some operation, here on an
    empty storage. *)
Lemma written_key_written (k : string) :
  k ∈ writtenKeys ->
  exists op, localStorage (perform op (World DrawingContext.initialState ∅)) !! k
             <> None.
Proof.
  unfold writtenKeys, draftKeys.
  rewrite !elem_of_union, !elem_of_singleton.
  intros H. destruct_or!; subst k.
  - by exists (ContactAutoSave []).
  - by exists (RegistrationAutoSave []).
  - by exists (ContactSubmit [] "" "").
  - by exists (Register (JObject [])).
  - by exists (Register (JObject [])).
  - by exists (Login [("email", "demo@physicslearn.com"); ("password", "demo123")] "").
  - by exists (Login [("email", "demo@physicslearn.com"); ("password", "demo123")] "").
  - by exists (SavePerformanceMode true).
  - by exists (ToggleTheme false).
  - by exists (TrackSearch "").
Qed.

(** What each operation leaves in the storage. *)
Lemma perform_persists (op : operation) (w : world) :
  let st := localStorage w in
  let st' := localStorage (perform op w) in
  match op with
  | Dispatch _ => st' = st
  | ContactAutoSave data =>
      st' !! "contact_form_draft" = Some (JObject (objectOf data))
  | ContactClearDraft => st' !! "contact_form_draft" = None
  | ContactSubmit data timestamp now =>
      forall messages, storedArray "contact_messages" st = JS.Ok messages ->
        st' !! "contact_messages"
        = Some (JArray (messages ++
                  [JObject (objectOf (setKey "id" ("msg_" +:+ now)
                                        (setKey "timestamp" timestamp data)))]))
  | RegistrationAutoSave data =>
      st' !! "registration_draft"
      = Some (JObject (objectOf (deleteKey "confirmPassword"
                                   (deleteKey "password" data))))
  | RegistrationClearDraft => st' !! "registration_draft" = None
  | Register userData =>
      st' !! "user_data" = Some userData /\
      st' !! "registration_pending" = Some (JString "true")
  | Login credentials now =>
      getKey "email" credentials = Some "demo@physicslearn.com" ->
      getKey "password" credentials = Some "demo123" ->
      st' !! "user_token" = Some (JString ("token_" +:+ now)) /\
      st' !! "user_email" = Some (JString "demo@physicslearn.com")
  | SavePerformanceMode isAdvancedMode =>
      st' !! "physicslearn-performance-mode"
      = Some (JString (if isAdvancedMode then "advanced" else "performance"))
  | ToggleTheme dark =>
      st' !! "theme" = Some (JString (if dark then "light" else "dark"))
  | TrackSearch query =>
      forall searches, storedArray "forum_recent_searches" st = JS.Ok searches ->
        st' !! "forum_recent_searches"
        = Some (JArray (take 10 (JString query :: searches)))
  end.
Proof.
  destruct op; unfold perform; cbn [localStorage]; cbv zeta.
  - done.
  - apply lookup_insert_eq.
  - apply lookup_delete_eq.
  - intros messages Hm. unfold ContactManager.submitContactForm. rewrite Hm.
    apply lookup_insert_eq.
  - apply lookup_insert_eq.
  - apply lookup_delete_eq.
  - unfold AuthManager.simulateRegistration. split.
    + rewrite lookup_insert_ne by done. apply lookup_insert_eq.
    + apply lookup_insert_eq.
  - intros He Hp. unfold AuthManager.simulateLogin.
    rewrite decide_True by done. cbn [orUnchanged]. split.
    + rewrite lookup_insert_ne by done. apply lookup_insert_eq.
    + apply lookup_insert_eq.
  - apply lookup_insert_eq.
  - unfold PhysicsLearnApp.toggleTheme. cbn [snd].
    rewrite lookup_insert_eq. by destruct dark.
  - intros searches Hs. unfold ForumManager.trackSearchAnalytics. rewrite Hs.
    apply lookup_insert_eq.
Qed.

(** C6, amended.  Drawing actions never touch local storage, so the
    drawn-shape list is kept in memory only; the other operations leave
    the drawing state alone.  Form drafts are kept under
    [contact_form_draft] and [registration_draft] as plain key/value
    objects.  Besides the drafts the program persists the submitted
    contact messages, the registration data and its pending mark, the
    login token and email, the performance mode, the theme and the recent
    forum searches, and it writes under no other key: the keys that
    some operation changes are exactly these ten, and every operation
    leaves its data under its key. *)
Theorem storage_writes (op : operation) (w : world) :
  (forall a, op = Dispatch a ->
     localStorage (perform op w) = localStorage w /\
     drawingState (perform op w) = DrawingContext.drawingReducer (drawingState w) a) /\
  ((forall a, op <> Dispatch a) -> drawingState (perform op w) = drawingState w) /\
  (forall k, k ∉ writtenKeys ->
     localStorage (perform op w) !! k = localStorage w !! k) /\
  (forall k d, k ∈ draftKeys ->
     localStorage (perform op w) !! k = Some d ->
     localStorage w !! k = Some d \/ isKeyValue d) /\
  writtenKeys =
    {["contact_form_draft"; "registration_draft"; "contact_messages"; "user_data";
      "registration_pending"; "user_token"; "user_email";
      "physicslearn-performance-mode"; "theme"; "forum_recent_searches"]} /\
  (forall k, k ∈ writtenKeys <->
     exists op' w', localStorage (perform op' w') !! k <> localStorage w' !! k) /\
  (let st := localStorage w in
   let st' := localStorage (perform op w) in
   match op with
   | Dispatch _ => st' = st
   | ContactAutoSave data =>
       st' !! "contact_form_draft" = Some (JObject (objectOf data))
   | ContactClearDraft => st' !! "contact_form_draft" = None
   | ContactSubmit data timestamp now =>
       forall messages, storedArray "contact_messages" st = JS.Ok messages ->
         st' !! "contact_messages"
         = Some (JArray (messages ++
                   [JObject (objectOf (setKey "id" ("msg_" +:+ now)
                                         (setKey "timestamp" timestamp data)))]))
   | RegistrationAutoSave data =>
       st' !! "registration_draft"
       = Some (JObject (objectOf (deleteKey "confirmPassword"
                                    (deleteKey "password" data))))
   | RegistrationClearDraft => st' !! "registration_draft" = None
   | Register userData =>
       st' !! "user_data" = Some userData /\
       st' !! "registration_pending" = Some (JString "true")
   | Login credentials now =>
       getKey "email" credentials = Some "demo@physicslearn.com" ->
       getKey "password" credentials = Some "demo123" ->
       st' !! "user_token" = Some (JString ("token_" +:+ now)) /\
       st' !! "user_email" = Some (JString "demo@physicslearn.com")
   | SavePerformanceMode isAdvancedMode =>
       st' !! "physicslearn-performance-mode"
       = Some (JString (if isAdvancedMode then "advanced" else "performance"))
   | ToggleTheme dark =>
       st' !! "theme" = Some (JString (if dark then "light" else "dark"))
   | TrackSearch query =>
       forall searches, storedArray "forum_recent_searches" st = JS.Ok searches ->
         st' !! "forum_recent_searches"
         = Some (JArray (take 10 (JString query :: searches)))
   end).
Proof.
  split_and!.
  - by intros a ->.
  - intros Hop. destruct op; try done. by destruct (Hop a).
  - intros k. apply perform_frame.
  - intros k d. apply perform_drafts.
  - unfold writtenKeys, draftKeys. set_solver.
  - intros k. split.
    + intros Hk. destruct (written_key_written k Hk) as [op' Hop'].
      exists op', (World DrawingContext.initialState ∅).
      cbn [localStorage] in *. by rewrite lookup_empty.
    + intros (op' & w' & Hne). destruct (decide (k ∈ writtenKeys)) as [|Hk]; [done|].
      destruct Hne. by apply perform_frame.
  - apply perform_persists.
Qed.

(** Adding a rectangle leaves a stored draft where it is; saving a draft
    leaves a key of another program alone and stores a key/value object. *)
Lemma storage_writes_witness :
  let st : storage := {["contact_form_draft" := JObject [("name", JString "Ada")]]} in
  let w := World DrawingContext.initialState st in
  let o := DrawnObject 1 (rectangle (Rect 0 0 4 3))
             (DrawingContext.drawingSettings DrawingContext.initialState) in
  localStorage (perform (Dispatch (DrawingContext.ADD_OBJECT o)) w) = st /\
  drawingState (perform (ContactAutoSave [("email", "a@b.c")]) w)
  = DrawingContext.initialState /\
  localStorage (perform (ContactAutoSave [("email", "a@b.c")]) w) !! "cart"
  = st !! "cart" /\
  (st !! "contact_form_draft" = Some (JObject [("email", JString "a@b.c")]) \/
   isKeyValue (JObject [("email", JString "a@b.c")])).
Proof.
  intros st w o. split_and!.
  - exact (proj1 (proj1 (storage_writes (Dispatch (DrawingContext.ADD_OBJECT o)) w)
                    _ eq_refl)).
  - apply (storage_writes (ContactAutoSave [("email", "a@b.c")]) w).
    intros a. discriminate.
  - apply (proj1 (proj2 (proj2
             (storage_writes (ContactAutoSave [("email", "a@b.c")]) w)))).
    by_decide.
  - apply (proj1 (proj2 (proj2 (proj2
             (storage_writes (ContactAutoSave [("email", "a@b.c")]) w))))
           "contact_form_draft").
    + by_decide.
    + by vm_compute.
Defined.

End Persistence.

(** ** How errors are reported *)

Section Errors.

Import ContactManager.

(** C7 fails on the code: outside a [DrawingProvider] the hook
    [useDrawing] throws to its caller. *)
Lemma useDrawing_throws :
  DrawingContext.useDrawing None
  = JS.Throw "useDrawing must be used within a DrawingProvider" /\
  forall c, DrawingContext.useDrawing None <> JS.Ok c.
Proof. split; [reflexivity|discriminate]. Qed.

Lemma checkField_verdict (f : field) :
  ((checkField f).1 = true /\ (checkField f).2 = "") \/
  ((checkField f).1 = false /\ (checkField f).2 ∈ validationMessages).
Proof.
  unfold checkField, validationMessages.
  repeat first [ case_decide | case_match ]; cbn;
    first [ by left | right; split; [done|]; set_solver ].
Qed.

(** C7, amended.  [validateField] gives a verdict for every field and
    reports a failure only through the form: the field is invalid exactly
    when one of the five validation messages is shown, the message is the
    text of the error element, which carries the class [show] exactly when
    the field is invalid, and the form group is marked [error] or
    [success].  [useDrawing] throws exactly when no provider encloses the
    caller, and [simulateLogin] throws exactly when the credentials are
    not the demo ones. *)
Theorem errors_reported (f : field) (context : option DrawingContext.state)
    (credentials : formData) (now : string) (st : storage) :
  let isValid := (validateField f).2 in
  let shown := (validateField f).1 in
  let errorMessage := (checkField f).2 in
  (isValid = true <-> errorMessage = "") /\
  (isValid = false <-> errorMessage ∈ validationMessages) /\
  value shown = value f /\ name shown = name f /\ required shown = required f /\
  (group f = None -> shown = f) /\
  (forall g, group f = Some g ->
     exists g', group shown = Some g' /\
       ((if isValid then "success" else "error") ∈ classList g') /\
       ((if isValid then "error" else "success") ∉ classList g') /\
       (forall e, errorEl g = Some e ->
          exists e', errorEl g' = Some e' /\
            textContent e' = errorMessage /\
            ("show" ∈ errorClasses e' <-> isValid = false))) /\
  (DrawingContext.useDrawing context
   = JS.Throw "useDrawing must be used within a DrawingProvider" <-> context = None) /\
  (forall c, context = Some c -> DrawingContext.useDrawing context = JS.Ok c) /\
  (AuthManager.simulateLogin credentials now st = JS.Throw "Invalid credentials" <->
   ~ (getKey "email" credentials = Some "demo@physicslearn.com" /\
      getKey "password" credentials = Some "demo123")).
Proof.
  intros isValid shown errorMessage.
  assert (Hv : isValid = (checkField f).1).
  { unfold isValid, validateField. by destruct (checkField f). }
  assert (Hs : shown = showFieldValidation f isValid errorMessage).
  { unfold shown, isValid, errorMessage, validateField. by destruct (checkField f). }
  assert (Hempty : "" ∉ validationMessages) by by_decide.
  split_and!.
  - rewrite Hv. destruct (checkField_verdict f) as [[-> H2]|[-> H2]]; fold errorMessage in H2.
    + done.
    + split; [done|]. intros He. rewrite He in H2. contradiction.
  - rewrite Hv. destruct (checkField_verdict f) as [[-> H2]|[-> H2]]; fold errorMessage in H2.
    + split; [done|]. intros He. rewrite H2 in He. contradiction.
    + done.
  - rewrite Hs. unfold showFieldValidation. by destruct (group f).
  - rewrite Hs. unfold showFieldValidation. by destruct (group f).
  - rewrite Hs. unfold showFieldValidation. by destruct (group f).
  - intros Hg. rewrite Hs. unfold showFieldValidation. by rewrite Hg.
  - intros g Hg. rewrite Hs. unfold showFieldValidation. rewrite Hg. cbn.
    eexists. split; [reflexivity|]. cbn. split_and!.
    + set_solver.
    + destruct isValid; set_solver.
    + intros e ->. cbn. eexists. split; [reflexivity|]. cbn. split; [done|].
      destruct isValid; set_solver.
  - destruct context; cbn; split; done.
  - by intros c ->.
  - unfold AuthManager.simulateLogin. case_decide; split; try done.
Qed.

(** A required name field left empty, inside a form group with an error
    element, outside any provider, with wrong credentials. *)
Lemma errors_reported_witness :
  let f := Field "  " "name" true
             (Some (FormGroup {["form-group"]} (Some (ErrorElement "" ∅)))) in
  (validateField f).2 = false /\
  (exists g' e', group (validateField f).1 = Some g' /\ errorEl g' = Some e' /\
                 textContent e' = "This field is required" /\
                 "show" ∈ errorClasses e' /\ "error" ∈ classList g') /\
  DrawingContext.useDrawing None
  = JS.Throw "useDrawing must be used within a DrawingProvider" /\
  AuthManager.simulateLogin [("email", "eve@example.com")] "17" ∅
  = JS.Throw "Invalid credentials".
Proof.
  intros f.
  destruct (errors_reported f None [("email", "eve@example.com")] "17" ∅)
    as (_ & Hinvalid & _ & _ & _ & _ & Hgroup & Hctx & _ & Hlogin).
  assert (Hf : (validateField f).2 = false).
  { apply Hinvalid. by_decide. }
  split_and!.
  - exact Hf.
  - destruct (Hgroup _ eq_refl) as (g' & Hg' & Hcls & _ & He).
    destruct (He _ eq_refl) as (e' & He' & Htext & Hshow).
    exists g', e'. split_and!; [done|done|done|by apply Hshow|].
    by rewrite Hf in Hcls.
  - by apply Hctx.
  - apply Hlogin. intros [Hemail _]. by vm_compute in Hemail.
Defined.

End Errors.

(** * Further properties of the code *)

(** ** Drawing with the mouse *)

Section CanvasGestures.

Import DrawingContext DrawingCanvas.

(** Moving the mouse changes nothing but the remembered position. *)
Lemma moves_keep_drawing (v : viewport) (es : list mouseEvent) (c : component) :
  let c' := foldl (fun c e => handleMouseMove v e c) c es in
  context c' = context c /\ DrawingCanvas.currentPath c' = DrawingCanvas.currentPath c.
Proof.
  revert c. induction es as [|e es IH]; intros c; [done|].
  cbn. destruct (IH (handleMouseMove v e c)) as [H1 H2]. by rewrite H1, H2.
Qed.

(** Snapping looks at the grid settings only. *)
Lemma snap_same_grid (s1 s2 : state) (p : point) :
  snapToGrid s1 = snapToGrid s2 -> gridSize s1 = gridSize s2 ->
  snapToGridPoint s1 p = snapToGridPoint s2 p.
Proof. intros H1 H2. unfold snapToGridPoint. by rewrite H1, H2. Qed.



(** One press and release with the polygon or the freehand tool, on an
    idle canvas, adds nothing and leaves the canvas idle. *)
Lemma perform_polygon_freehand (v : viewport) (c : component) (g : gesture) :
  activeTool (context c) = POLYGON \/ activeTool (context c) = FREEHAND ->
  isDrawing (context c) = false ->
  let c' := DrawingCanvas.perform v c g in
  objects (context c') = objects (context c) /\
  activeTool (context c') = activeTool (context c) /\
  isDrawing (context c') = false /\
  DrawingCanvas.currentPath c' = [].
Proof.
  intros Ht Hd c'. unfold c', DrawingCanvas.perform.
  destruct (moves_keep_drawing v (moves g) (handleMouseDown v (press g) c))
    as [Hctx Hpath].
  set (c1 := foldl _ _ _) in *.
  unfold handleMouseUp. rewrite Hctx, Hpath.
  unfold handleMouseDown.
  destruct Ht as [Ht|Ht]; rewrite Ht, ?Hd; cbn; rewrite Ht; cbn; done.
Qed.

(** On an idle canvas, presses and releases that alternate add nothing
    with the polygon or the freehand tool. *)
Lemma idle_gestures_add_nothing (v : viewport) (c : component)
    (gestures : list gesture) :
  activeTool (context c) = POLYGON \/ activeTool (context c) = FREEHAND ->
  isDrawing (context c) = false ->
  objects (context (performAll v c gestures)) = objects (context c) /\
  isDrawing (context (performAll v c gestures)) = false.
Proof.
  revert c. induction gestures as [|g gestures IH]; intros c Ht Hd; [done|].
  destruct (perform_polygon_freehand v c g Ht Hd) as (Ho & Ht' & Hd' & _).
  cbn. fold (performAll v (DrawingCanvas.perform v c g) gestures).
  destruct (IH (DrawingCanvas.perform v c g)) as [Ho2 Hd2];
    [by rewrite Ht'|done|].
  by rewrite Ho2, Ho.
Qed.

(** A press and release with the freehand tool, whatever went before,
    adds nothing and leaves the canvas idle. *)
Lemma perform_freehand (v : viewport) (c : component) (g : gesture) :
  activeTool (context c) = FREEHAND ->
  let c' := DrawingCanvas.perform v c g in
  objects (context c') = objects (context c) /\
  activeTool (context c') = FREEHAND /\
  isDrawing (context c') = false.
Proof.
  intros Ht c'. unfold c', DrawingCanvas.perform.
  destruct (moves_keep_drawing v (moves g) (handleMouseDown v (press g) c))
    as [Hctx Hpath].
  set (c1 := foldl _ _ _) in *.
  unfold handleMouseUp. rewrite Hctx, Hpath.
  unfold handleMouseDown. rewrite Ht; cbn; rewrite Ht; cbn; done.
Qed.

(** What a press and release with the polygon tool adds. *)
Lemma perform_polygon (v : viewport) (c : component) (g : gesture) :
  activeTool (context c) = POLYGON ->
  objects (context (DrawingCanvas.perform v c g))
  = if isDrawing (context c) && bool_decide (2 <= length (DrawingCanvas.currentPath c))%nat
    then objects (context c) ++
         [DrawnObject (releasedAt g)
            (polygon (DrawingCanvas.currentPath c ++
               [snapToGridPoint (context c) (getMousePos v (press g));
                snapToGridPoint (context c) (getMousePos v (release g))]))
            (drawingSettings (context c))]
    else objects (context c).
Proof.
  intros Ht. unfold DrawingCanvas.perform.
  destruct (moves_keep_drawing v (moves g) (handleMouseDown v (press g) c))
    as [Hctx Hpath].
  set (c1 := foldl _ _ _) in *.
  unfold handleMouseUp. rewrite Hctx, Hpath.
  unfold handleMouseDown. rewrite Ht.
  destruct (isDrawing (context c)) eqn:Hd; cbn.
  - rewrite Hd. cbn. unfold newObject. rewrite Hd, Ht. cbn [negb].
    rewrite length_app. cbn [length].
    case_bool_decide as Hlen.
    + rewrite decide_True by lia. cbn. by rewrite <- app_assoc.
    + rewrite decide_False by lia. done.
  - by rewrite Ht.
Qed.

(** X2.  With the freehand tool no press and release ever adds an object:
    the path is started anew at each press and holds a single point at
    the release, short of the two points required.  With the polygon
    tool the same holds on an idle canvas, the path being short of three
    points; a press and release adds a polygon exactly when a drawing was
    under way before the press, its release missed, with two points or
    more in the path. *)
Theorem polygon_freehand_add_nothing (v : viewport) (c : component)
    (gestures : list gesture) :
  (activeTool (context c) = FREEHAND ->
   objects (context (performAll v c gestures)) = objects (context c)) /\
  (activeTool (context c) = POLYGON -> isDrawing (context c) = false ->
   objects (context (performAll v c gestures)) = objects (context c) /\
   isDrawing (context (performAll v c gestures)) = false) /\
  (activeTool (context c) = POLYGON ->
   forall g,
     objects (context (DrawingCanvas.perform v c g)) <> objects (context c)
     <-> isDrawing (context c) = true /\
         (2 <= length (DrawingCanvas.currentPath c))%nat).
Proof.
  split_and!.
  - intros Ht. destruct gestures as [|g gestures]; [done|].
    destruct (perform_freehand v c g Ht) as (Ho & Ht' & Hd').
    cbn. fold (performAll v (DrawingCanvas.perform v c g) gestures).
    destruct (idle_gestures_add_nothing v (DrawingCanvas.perform v c g) gestures)
      as [Ho2 _]; [by right|done|].
    by rewrite Ho2, Ho.
  - intros Ht Hd. apply idle_gestures_add_nothing; [by left|done].
  - intros Ht g. rewrite (perform_polygon v c g Ht).
    destruct (isDrawing (context c)); cbn [andb].
    + case_bool_decide as Hlen.
      * split; [done|]. intros _ Heq. apply (f_equal length) in Heq.
        rewrite length_app in Heq. cbn in Heq. lia.
      * split; [done|]. by intros [_ ?].
    + split; [done|]. by intros [? _].
Qed.

(** Three clicks with the polygon tool on a fresh canvas. *)
Lemma polygon_freehand_add_nothing_witness :
  let v := Viewport 0 0 800 600 800 600 in
  let c := Component (drawingReducer initialState (SET_ACTIVE_TOOL POLYGON))
             (Point 0 0) None [] in
  let click x y := Gesture (MouseEvent x y) [] (MouseEvent x y) 7 in
  objects (context (performAll v c [click 100 100; click 200 100; click 200 200]))
  = [].
Proof.
  intros v c click.
  apply (proj1 (proj2 (polygon_freehand_add_nothing v c
                         [click 100 100; click 200 100; click 200 200])));
    reflexivity.
Defined.

(** X3.  With snapping enabled and a grid size other than zero, what a
    press and release draws lies on the grid: the corner and the sides
    of a rectangle, and both ends of a line, are integer multiples of
    the grid size. *)
Theorem drawn_shapes_on_grid (v : viewport) (c : component) (g : gesture) :
  snapToGrid (context c) = true ->
  gridSize (context c) <> 0 ->
  let size := gridSize (context c) in
  let c' := DrawingCanvas.perform v c g in
  (activeTool (context c) = RECTANGLE ->
   exists kx ky kw kh : Z,
     obj_shape <$> last (objects (context c'))
     = Some (rectangle (Rect (IZR kx * size) (IZR ky * size)
                             (IZR kw * size) (IZR kh * size)))) /\
  (activeTool (context c) = LINE ->
   exists kx ky kx' ky' : Z,
     obj_shape <$> last (objects (context c'))
     = Some (line [Point (IZR kx * size) (IZR ky * size);
                   Point (IZR kx' * size) (IZR ky' * size)])).
Proof.
  intros Hsnap _ size c'. unfold c', DrawingCanvas.perform.
  destruct (moves_keep_drawing v (moves g) (handleMouseDown v (press g) c))
    as [Hctx Hpath].
  set (c1 := foldl _ _ _) in *.
  unfold handleMouseUp. rewrite Hctx, Hpath. unfold handleMouseDown.
  set (p := getMousePos v (press g)). set (q := getMousePos v (release g)).
  split; intros Ht; rewrite Ht; cbn; rewrite Ht; cbn; rewrite last_snoc; cbn;
    unfold snapToGridPoint; cbn; rewrite Hsnap; cbn; fold size; unfold JS.round.
  - exists (Zfloor (px p / size + / 2)), (Zfloor (py p / size + / 2)),
      (Zfloor (px q / size + / 2) - Zfloor (px p / size + / 2))%Z,
      (Zfloor (py q / size + / 2) - Zfloor (py p / size + / 2))%Z.
    rewrite !minus_IZR. do 3 f_equal; subst p q size; cbn; ring.
  - by exists (Zfloor (px p / size + / 2)), (Zfloor (py p / size + / 2)),
      (Zfloor (px q / size + / 2)), (Zfloor (py q / size + / 2)).
Qed.

(** On the initial grid, with the rectangle tool. *)
Lemma drawn_shapes_on_grid_witness :
  let v := Viewport 0 0 800 600 800 600 in
  let c := Component (drawingReducer initialState (SET_ACTIVE_TOOL RECTANGLE))
             (Point 0 0) None [] in
  let g := Gesture (MouseEvent 33 47) [] (MouseEvent 170 130) 7 in
  exists kx ky kw kh : Z,
    obj_shape <$> last (objects (context (DrawingCanvas.perform v c g)))
    = Some (rectangle (Rect (IZR kx * 20) (IZR ky * 20) (IZR kw * 20) (IZR kh * 20))).
Proof.
  intros v c g.
  assert (Hsize : gridSize (context c) <> 0) by (cbn; lra).
  exact (proj1 (drawn_shapes_on_grid v c g eq_refl Hsize) eq_refl).
Defined.

(** [getMousePos] maps the corners of the canvas on the page to the
    corners of its drawing area, and is a plain translation when the
    canvas is shown at its own size. *)
Theorem getMousePos_corners (v : viewport) :
  rect_width v <> 0 -> rect_height v <> 0 ->
  getMousePos v (MouseEvent (rect_left v) (rect_top v)) = Point 0 0 /\
  getMousePos v (MouseEvent (rect_left v + rect_width v) (rect_top v + rect_height v))
  = Point (canvas_width v) (canvas_height v) /\
  (canvas_width v = rect_width v -> canvas_height v = rect_height v ->
   forall e, getMousePos v e = Point (clientX e - rect_left v) (clientY e - rect_top v)).
Proof.
  intros Hw Hh. unfold getMousePos. cbn. split_and!.
  - f_equal; field; done.
  - f_equal; field; done.
  - intros -> -> e. f_equal; field; done.
Qed.

Lemma getMousePos_corners_witness :
  let v := Viewport 10 20 400 300 800 600 in
  getMousePos v (MouseEvent (10 + 400) (20 + 300)) = Point 800 600.
Proof.
  intros v.
  assert (Hw : rect_width v <> 0) by (cbn; lra).
  assert (Hh : rect_height v <> 0) by (cbn; lra).
  exact (proj1 (proj2 (getMousePos_corners v Hw Hh))).
Defined.

End CanvasGestures.

(** ** The conversion of a whole drawing *)

Section Conversion.

Import Building3D.

Lemma createLine_throws (points : list point) (ws : wall_settings) (index : nat)
    (showDimensions : bool) :
  (exists m, createLine points ws index showDimensions = JS.Throw m)
  <-> (length points < 2)%nat.
Proof.
  destruct points as [|a [|b l]]; cbn; split; try lia; try (by eexists).
  all: intros [m Hm]; discriminate.
Qed.

Lemma convert_throws (ws : wall_settings) (showDimensions : bool) (index : nat)
    (obj : drawnObject) :
  (exists m, convert ws showDimensions index obj = JS.Throw m) <-> isBrokenLine obj.
Proof.
  unfold convert, isBrokenLine. destruct (obj_shape obj) as [pts|r|? ? ?|pts|pts].
  - split.
    + intros [m Hm]. exists pts. split; [done|].
      apply (createLine_throws pts ws index showDimensions).
      destruct (createLine _ _ _ _) eqn:E; [discriminate|by eexists].
    + intros (pts' & [= <-] & Hlen).
      apply (createLine_throws pts ws index showDimensions) in Hlen as [m Hm].
      rewrite Hm. by eexists.
  - split; [intros [m Hm]; discriminate|intros (? & ? & _); discriminate].
  - split; [intros [m Hm]; discriminate|intros (? & ? & _); discriminate].
  - split; [intros [m Hm]; discriminate|intros (? & ? & _); discriminate].
  - split; [intros [m Hm]; discriminate|intros (? & ? & _); discriminate].
Qed.

Lemma convert_ok_length (ws : wall_settings) (showDimensions : bool) (index : nat)
    (obj : drawnObject) (component : option node) :
  convert ws showDimensions index obj = JS.Ok component ->
  length (option_list component) = if isExtruded obj then 1%nat else 0%nat.
Proof.
  unfold convert, isExtruded. destruct (obj_shape obj); try (by intros [= <-]).
  destruct (createLine _ _ _ _); [by intros [= <-]|discriminate].
Qed.

Lemma convertFrom_outcome (ws : wall_settings) (showDimensions : bool)
    (objects : list drawnObject) (index : nat) :
  (Exists isBrokenLine objects /\
   exists m, convertFrom ws showDimensions index objects = JS.Throw m) \/
  (Forall (fun o => ~ isBrokenLine o) objects /\
   exists nodes, convertFrom ws showDimensions index objects = JS.Ok nodes /\
     length nodes = length (List.filter isExtruded objects)).
Proof.
  revert index. induction objects as [|o objects IH]; intros index.
  { right. split; [constructor|]. by exists []. }
  cbn [convertFrom]. destruct (convert ws showDimensions index o) as [r|m] eqn:Ho.
  - assert (Hnb : ~ isBrokenLine o).
    { intros Hb. apply (convert_throws ws showDimensions index) in Hb as [m Hm].
      congruence. }
    destruct (IH (S index)) as [[Hex [m Hm]]|[Hall (nodes & Hn & Hlen)]].
    + left. split; [by apply Exists_cons_tl|]. rewrite Hm. by eexists.
    + right. split; [by constructor|]. rewrite Hn. eexists. split; [done|].
      rewrite length_app, (convert_ok_length _ _ _ _ _ Ho), Hlen. cbn.
      by destruct (isExtruded o).
  - left. split; [|by eexists]. apply Exists_cons_hd.
    apply (convert_throws ws showDimensions index). by eexists.
Qed.

(** X4.  [buildingComponents] throws exactly when the drawing has a line
    object with fewer than two points; otherwise it yields one component
    for every rectangle, line and polygon, and none for the other
    objects. *)
Theorem buildingComponents_outcome (objects : list drawnObject)
    (ws : wall_settings) (showDimensions : bool) :
  ((exists m, buildingComponents objects ws showDimensions = JS.Throw m)
   <-> Exists isBrokenLine objects) /\
  (forall nodes, buildingComponents objects ws showDimensions = JS.Ok nodes ->
     length nodes = length (List.filter isExtruded objects)).
Proof.
  unfold buildingComponents.
  destruct (convertFrom_outcome ws showDimensions objects 0)
    as [[Hex [m Hm]]|[Hall (nodes & Hn & Hlen)]].
  - split; [split; [done|by eexists]|]. intros nodes Hn. congruence.
  - split.
    + split; [intros [m Hm]; congruence|].
      intros Hex. apply Exists_exists in Hex as (o & Ho & Hb).
      rewrite Forall_forall in Hall. destruct (Hall o Ho Hb).
    + intros nodes' Hn'. congruence.
Qed.

(** A line object with a single point makes the conversion throw. *)
Lemma buildingComponents_outcome_witness :
  let broken := DrawnObject 1 (line [Point 0 0])
                  (DrawingContext.drawingSettings DrawingContext.initialState) in
  let room := DrawnObject 2 (rectangle (Rect 0 0 4 3))
                (DrawingContext.drawingSettings DrawingContext.initialState) in
  exists m,
    buildingComponents [room; broken]
      (DrawingContext.wallSettings DrawingContext.initialState) true = JS.Throw m.
Proof.
  intros broken room.
  apply (buildingComponents_outcome [room; broken]).
  apply Exists_cons_tl, Exists_cons_hd.
  exists [Point 0 0]. split; [reflexivity|cbn; lia].
Defined.

(** What the canvas makes is never a broken line. *)
Lemma canvasMade_not_broken (o : drawnObject) :
  DrawingCanvas.canvasMade o -> ~ isBrokenLine o.
Proof.
  intros (ctx & now & path & q & Ho) (pts & Hpts & Hlen).
  unfold DrawingCanvas.newObject in Ho.
  destruct (negb _); [discriminate|].
  destruct (DrawingContext.activeTool ctx), path as [|p0 path];
    repeat case_decide; try discriminate;
    injection Ho as <-; cbn in Hpts; try discriminate;
    injection Hpts as <-; cbn in Hlen; lia.
Qed.

Lemma perform_canvasMade (v : DrawingCanvas.viewport) (c : DrawingCanvas.component)
    (g : DrawingCanvas.gesture) :
  Forall DrawingCanvas.canvasMade (DrawingContext.objects (DrawingCanvas.context c)) ->
  Forall DrawingCanvas.canvasMade
    (DrawingContext.objects (DrawingCanvas.context (DrawingCanvas.perform v c g))).
Proof.
  intros Hc. unfold DrawingCanvas.perform.
  destruct (moves_keep_drawing v (DrawingCanvas.moves g)
              (DrawingCanvas.handleMouseDown v (DrawingCanvas.press g) c))
    as [Hctx Hpath].
  set (c1 := foldl _ _ _) in *.
  assert (Hdown : DrawingContext.objects (DrawingCanvas.context c1)
                  = DrawingContext.objects (DrawingCanvas.context c)).
  { rewrite Hctx. unfold DrawingCanvas.handleMouseDown.
    destruct (DrawingContext.activeTool _); cbn; try done.
    by destruct (DrawingContext.isDrawing _). }
  unfold DrawingCanvas.handleMouseUp.
  destruct (negb _); [by rewrite Hdown|]. cbn.
  destruct (DrawingCanvas.newObject _ _ _ _) as [o|] eqn:Ho; cbn;
    rewrite Hdown; [|done].
  apply Forall_app. split; [done|]. apply Forall_singleton.
  by eexists _, _, _, _.
Qed.

(** X5.  The 3D view never throws on a drawing made with the canvas: after
    any gestures on a canvas whose objects the canvas made (such as the
    empty one), [buildingComponents] yields the components. *)
Theorem canvas_drawing_converts (v : DrawingCanvas.viewport)
    (c : DrawingCanvas.component) (gestures : list DrawingCanvas.gesture)
    (ws : wall_settings) (showDimensions : bool) :
  Forall DrawingCanvas.canvasMade (DrawingContext.objects (DrawingCanvas.context c)) ->
  exists nodes,
    buildingComponents
      (DrawingContext.objects
         (DrawingCanvas.context (DrawingCanvas.performAll v c gestures)))
      ws showDimensions = JS.Ok nodes.
Proof.
  intros Hc.
  assert (Hall : Forall DrawingCanvas.canvasMade
                   (DrawingContext.objects
                      (DrawingCanvas.context (DrawingCanvas.performAll v c gestures)))).
  { revert c Hc. induction gestures as [|g gestures IH]; intros c Hc; [done|].
    cbn. apply IH. by apply perform_canvasMade. }
  unfold buildingComponents.
  destruct (convertFrom_outcome ws showDimensions
              (DrawingContext.objects
                 (DrawingCanvas.context (DrawingCanvas.performAll v c gestures))) 0)
    as [[Hex _]|[_ (nodes & Hn & _)]]; [|by exists nodes].
  apply Exists_exists in Hex as (o & Ho & Hb).
  rewrite Forall_forall in Hall. destruct (canvasMade_not_broken o (Hall o Ho) Hb).
Qed.

(** Two lines drawn on the empty canvas. *)
Lemma canvas_drawing_converts_witness :
  let v := DrawingCanvas.Viewport 0 0 800 600 800 600 in
  let c := DrawingCanvas.Component
             (DrawingContext.drawingReducer DrawingContext.initialState
                (DrawingContext.SET_ACTIVE_TOOL DrawingContext.LINE))
             (Point 0 0) None [] in
  let g := DrawingCanvas.Gesture (DrawingCanvas.MouseEvent 100 100) []
             (DrawingCanvas.MouseEvent 170 130) 7 in
  exists nodes,
    buildingComponents
      (DrawingContext.objects
         (DrawingCanvas.context (DrawingCanvas.performAll v c [g; g])))
      (DrawingContext.wallSettings DrawingContext.initialState) true = JS.Ok nodes.
Proof.
  intros v c g. apply (canvas_drawing_converts v c [g; g]). constructor.
Defined.

End Conversion.

(** ** Where the walls of lines and polygons stand *)

Section Walls.

Import Building3D.

(** X6.  The wall box made by [createLine] runs from the first point of the
    line to the second: these are the ends of its length axis, at half
    the wall height. *)
Theorem createLine_wall_ends (p0 p1 : point) (rest : list point)
    (ws : wall_settings) (index : nat) (showDimensions : bool) :
  exists n m,
    createLine (p0 :: p1 :: rest) ws index showDimensions = JS.Ok n /\
    head (meshes n) = Some m /\
    lengthAxisEnd (-1) m = (px p0, wall_height ws / 2, py p0) /\
    lengthAxisEnd 1 m = (px p1, wall_height ws / 2, py p1).
Proof.
  eexists _, (wallSegment p0 p1 ws). split_and!; [reflexivity|done| |];
    apply wallSegment_ends.
Qed.

(** The meshes of the segment groups of a polygon, by position. *)
Lemma segment_meshes (l : list point) :
  forall (key : nat -> string * nat) (f g : nat -> point -> mesh),
    let groups := imap (fun j q => Group (key j) [MeshNode (f j q); MeshNode (g j q)]) l in
    length (flat_map meshes groups) = (2 * length l)%nat /\
    forall i p, l !! i = Some p ->
      flat_map meshes groups !! (2 * i)%nat = Some (f i p) /\
      flat_map meshes groups !! (2 * i + 1)%nat = Some (g i p).
Proof.
  induction l as [|q l IH]; intros key f g groups; [done|].
  destruct (IH (fun j => key (S j)) (fun j => f (S j)) (fun j => g (S j)))
    as [Hlen Hlook].
  cbn zeta in Hlen, Hlook. unfold groups. rewrite imap_cons.
  change (imap _ l)
    with (imap (fun j q => Group (key (S j))
                             [MeshNode (f (S j) q); MeshNode (g (S j) q)]) l).
  cbn [flat_map meshes app].
  set (tl_ := flat_map meshes (imap _ l)) in *.
  split.
  - cbn [length]. rewrite Hlen. lia.
  - intros [|i] p Hp.
    + cbn in Hp. injection Hp as <-. done.
    + cbn in Hp. destruct (Hlook i p Hp) as [H1 H2].
      replace (2 * S i)%nat with (S (S (2 * i))) by lia.
      replace (S (S (2 * i)) + 1)%nat with (S (S (2 * i + 1))) by lia.
      split; [exact H1|exact H2].
Qed.

(** X7.  The walls of a polygon form a closed loop: there are a wall and a
    floor segment for every point and one floor plane after them; the
    wall of the [i]-th point runs from that point to the next one, and
    the wall of the last point runs back to the first. *)
Theorem createPolygonWall_loop (points : list point) (ws : wall_settings)
    (index : nat) (showDimensions : bool) :
  let walls := meshes (createPolygonWall points ws index showDimensions) in
  length walls = (2 * length points + 1)%nat /\
  (exists plane, last walls = Some plane /\ geom plane = planeGeometry 100 100) /\
  forall i p, points !! i = Some p ->
    exists next m,
      points !! ((i + 1) mod length points)%nat = Some next /\
      walls !! (2 * i)%nat = Some m /\
      walls !! (2 * i + 1)%nat = Some (floorSegment p next ws) /\
      lengthAxisEnd (-1) m = (px p, wall_height ws / 2, py p) /\
      lengthAxisEnd 1 m = (px next, wall_height ws / 2, py next).
Proof.
  intros walls. unfold walls, createPolygonWall. cbn [meshes].
  rewrite flat_map_app. cbn [flat_map meshes app].
  set (f := fun (j : nat) (q : point) =>
              wallSegment q (default q (points !! ((j + 1) mod length points)%nat)) ws).
  set (g := fun (j : nat) (q : point) =>
              floorSegment q (default q (points !! ((j + 1) mod length points)%nat)) ws).
  destruct (segment_meshes points (fun j => ("segment", j)) f g) as [Hlen Hlook].
  cbn zeta in Hlen, Hlook.
  change (imap _ points)
    with (imap (fun j q => Group ("segment", j) [MeshNode (f j q); MeshNode (g j q)])
               points).
  split_and!.
  - rewrite length_app, Hlen. cbn. lia.
  - eexists. split; [apply last_snoc|done].
  - intros i p Hp.
    assert (Hi : (i < length points)%nat) by (by eapply lookup_lt_Some).
    assert (Hnext : is_Some (points !! ((i + 1) mod length points)%nat)).
    { apply lookup_lt_is_Some. apply Nat.mod_upper_bound. lia. }
    destruct Hnext as [next Hnext].
    destruct (Hlook i p Hp) as [H1 H2].
    exists next, (wallSegment p next ws). split_and!; [done| | | |].
    + rewrite lookup_app_l by (rewrite Hlen; lia).
      rewrite H1. unfold f. by rewrite Hnext.
    + rewrite lookup_app_l by (rewrite Hlen; lia).
      rewrite H2. unfold g. by rewrite Hnext.
    + apply wallSegment_ends.
    + apply wallSegment_ends.
Qed.

(** A triangle: the third wall runs from the third point to the first. *)
Lemma createPolygonWall_loop_witness :
  let points := [Point 0 0; Point 4 0; Point 4 3] in
  let ws := DrawingContext.wallSettings DrawingContext.initialState in
  exists m,
    meshes (createPolygonWall points ws 0 false) !! 4%nat = Some m /\
    lengthAxisEnd (-1) m = (4, 10 / 2, 3) /\
    lengthAxisEnd 1 m = (0, 10 / 2, 0).
Proof.
  intros points ws.
  destruct (createPolygonWall_loop points ws 0 false) as (_ & _ & Hloop).
  destruct (Hloop 2%nat (Point 4 3) eq_refl) as (next & m & Hnext & Hm & _ & H1 & H2).
  injection Hnext as <-. by exists m.
Defined.

End Walls.

(** ** The gravity simulation *)

Section Gravity.

Import GravitySimulation.

(** Every particle keeps a short trail, moves at the speed that its
    distance and the central mass give, and the [i]-th particle is at
    distance [60 + 15 i]. *)
Lemma created_wellFormed (mass : R) (count : Z) :
  Forall (fun p => (length (Particle.trail p) <= 30)%nat /\
                   Particle.speed p = sqrt (mass / Particle.distance p) * (2 / 100))
         (createdParticles mass count) /\
  forall i p, createdParticles mass count !! i = Some p ->
              Particle.distance p = 60 + INR i * 15.
Proof.
  unfold createdParticles. split.
  - apply Forall_map, Forall_forall. intros i _. cbn. split; [lia|done].
  - intros i p Hp. rewrite list_lookup_fmap in Hp.
    destruct (seq 0 (Z.to_nat count) !! i) as [j|] eqn:Hj; [|done].
    apply lookup_seq in Hj as [-> _]. cbn in Hp. by injection Hp as <-.
Qed.

Lemma step_wellFormed (k : Sketch.t state) (e : Sketch.event) :
  let good (s : state) :=
    Forall (fun p => (length (Particle.trail p) <= 30)%nat /\
                     Particle.speed p
                     = sqrt (centralMass s / Particle.distance p) * (2 / 100))
           (particles s) /\
    forall i p, particles s !! i = Some p ->
                Particle.distance p = 60 + INR i * 15 in
  good (Sketch.sim k) -> good (Sketch.sim (Sketch.step k e)).
Proof.
  intros good [Hall Hdist].
  assert (Hupd : good (update (Sketch.sim k))).
  { split; cbn.
    - apply Forall_map. eapply Forall_impl; [exact Hall|].
      intros p [Hlen Hsp]. cbn. split; [|done].
      destruct (decide _); [|lia].
      rewrite length_tl, length_app in *. cbn in *. lia.
    - intros i p Hp. rewrite list_lookup_fmap in Hp.
      destruct (particles (Sketch.sim k) !! i) as [p0|] eqn:Hp0; [|done].
      cbn in Hp. injection Hp as <-. cbn. by apply Hdist. }
  destruct e as [| | |rnd|param value|w h]; cbn; try done.
  - unfold Sketch.draw. by destruct (Sketch.isRunning k).
  - split; cbn.
    + apply Forall_forall. intros p Hp.
      apply list_elem_of_lookup in Hp as [i Hp].
      rewrite list_lookup_imap in Hp.
      destruct (particles (Sketch.sim k) !! i) as [p0|] eqn:Hp0; [|done].
      cbn in Hp. injection Hp as <-. cbn. split; [lia|].
      rewrite Forall_forall in Hall.
      apply (Hall p0). by eapply list_elem_of_lookup_2.
    + intros i p Hp. rewrite list_lookup_imap in Hp.
      destruct (particles (Sketch.sim k) !! i) as [p0|] eqn:Hp0; [|done].
      cbn in Hp. injection Hp as <-. cbn. by apply Hdist.
  - unfold updateParameter. repeat case_decide; try done.
    + split; cbn.
      * apply Forall_map. eapply Forall_impl; [exact Hall|].
        intros p [Hlen _]. by cbn.
      * intros i p Hp. rewrite list_lookup_fmap in Hp.
        destruct (particles (Sketch.sim k) !! i) as [p0|] eqn:Hp0; [|done].
        cbn in Hp. injection Hp as <-. cbn. by apply Hdist.
    + apply created_wellFormed.
Qed.

(** X8.  Whatever happens to the gravity sketch, every particle has at most
    30 trail points, its speed is [sqrt (centralMass / distance) * 0.02]
    for the current central mass, and the [i]-th particle circles at
    distance [60 + 15 i]. *)
Theorem gravity_particles_invariant (w h : R) (events : list Sketch.event) :
  let s := Sketch.sim (Sketch.run (Sketch.setup (new w h)) events) in
  Forall (fun p => (length (Particle.trail p) <= 30)%nat /\
                   Particle.speed p
                   = sqrt (centralMass s / Particle.distance p) * (2 / 100))
         (particles s) /\
  forall i p, particles s !! i = Some p ->
              Particle.distance p = 60 + INR i * 15.
Proof.
  cbn zeta.
  enough (Hgen : forall k : Sketch.t state,
     (Forall (fun p => (length (Particle.trail p) <= 30)%nat /\
                       Particle.speed p
                       = sqrt (centralMass (Sketch.sim k) / Particle.distance p)
                         * (2 / 100))
             (particles (Sketch.sim k)) /\
      forall i p, particles (Sketch.sim k) !! i = Some p ->
                  Particle.distance p = 60 + INR i * 15) ->
     let s := Sketch.sim (Sketch.run k events) in
     Forall (fun p => (length (Particle.trail p) <= 30)%nat /\
                      Particle.speed p
                      = sqrt (centralMass s / Particle.distance p) * (2 / 100))
            (particles s) /\
     forall i p, particles s !! i = Some p ->
                 Particle.distance p = 60 + INR i * 15).
  { apply Hgen. apply created_wellFormed. }
  induction events as [|e events IH]; intros k Hk; [done|].
  cbn. apply IH. by apply (step_wellFormed k e).
Qed.

(** After a start and a frame the first particle still circles at 60. *)
Lemma gravity_particles_invariant_witness :
  let s := Sketch.sim (Sketch.run (Sketch.setup (new 800 600))
                         [Sketch.Start; Sketch.Frame]) in
  exists p, particles s !! 0%nat = Some p /\ Particle.distance p = 60 + INR 0 * 15.
Proof.
  intros s.
  assert (Hp : is_Some (particles s !! 0%nat)) by (eexists; reflexivity).
  destruct Hp as [p Hp]. exists p. split; [exact Hp|].
  exact (proj2 (gravity_particles_invariant 800 600 [Sketch.Start; Sketch.Frame])
           0%nat p Hp).
Defined.

Lemma last_pushed {A : Type} (l : list A) (a : A) (bound : nat) :
  (0 < bound)%nat ->
  last (if decide (bound < length (l ++ [a]))%nat then tail (l ++ [a]) else l ++ [a])
  = Some a.
Proof.
  intros Hb. destruct (decide _) as [Hlt|_]; [|apply last_snoc].
  destruct l as [|b l]; [cbn in Hlt; lia|]. cbn. apply last_snoc.
Qed.

(** X9.  An update moves every particle along its circle: the angle advances
    by the particle's speed times the speed setting, distance and speed
    stay, and the new trail point lies on the circle of that distance
    around the centre of the canvas. *)
Theorem gravity_update_orbit (s : state) (i : nat) (p : Particle.t) :
  particles s !! i = Some p ->
  exists p' pt,
    particles (update s) !! i = Some p' /\
    Particle.angle p' = Particle.angle p + Particle.speed p * speed s /\
    Particle.distance p' = Particle.distance p /\
    Particle.speed p' = Particle.speed p /\
    last (Particle.trail p') = Some pt /\
    (px pt - width s / 2) ^ 2 + (py pt - height s / 2) ^ 2
    = Particle.distance p ^ 2.
Proof.
  intros Hp. eexists _, _. cbn. rewrite list_lookup_fmap, Hp. cbn.
  split_and!; try reflexivity.
  - apply last_pushed. lia.
  - cbn.
    set (a := Particle.angle p + Particle.speed p * speed s).
    pose proof (sin2_cos2 a) as Hsc. unfold Rsqr in Hsc.
    replace ((width s / 2 + cos a * Particle.distance p - width s / 2)
             * ((width s / 2 + cos a * Particle.distance p - width s / 2) * 1)
             + (height s / 2 + sin a * Particle.distance p - height s / 2)
               * ((height s / 2 + sin a * Particle.distance p - height s / 2) * 1))
      with ((sin a * sin a + cos a * cos a)
            * (Particle.distance p * Particle.distance p)) by ring.
    rewrite Hsc. ring.
Qed.

Lemma gravity_update_orbit_witness :
  exists p' pt,
    particles (update (new 800 600)) !! 0%nat = Some p' /\
    last (Particle.trail p') = Some pt /\
    (px pt - 800 / 2) ^ 2 + (py pt - 600 / 2) ^ 2 = (60 + INR 0 * 15) ^ 2.
Proof.
  destruct (gravity_update_orbit (new 800 600) 0%nat _ eq_refl)
    as (p' & pt & Hp' & _ & _ & _ & Hlast & Hcircle).
  exists p', pt. split_and!; [exact Hp'|exact Hlast|exact Hcircle].
Defined.

End Gravity.

(** ** The pendulum and the wave system *)

Section PendulumMotion.

Import PendulumSimulation.

(** X10.  [setLength] takes metres and stores pixels; [getPeriod] undoes the
    conversion: with length [l] and gravity [g] set, the period shown is
    that of the ideal pendulum, [2 PI sqrt (l / g)]. *)
Theorem pendulum_period (s : state) (l g : R) :
  g <> 0 ->
  getPeriod (setGravity g (setLength l s)) = 2 * PI * sqrt (l / g) /\
  getPeriod (setLength l (setGravity g s)) = 2 * PI * sqrt (l / g).
Proof.
  intros Hg. unfold getPeriod. cbn.
  replace (l * 100 / (g * 100)) with (l / g) by (field; exact Hg). done.
Qed.

Lemma pendulum_period_witness :
  getPeriod (setGravity (98 / 10) (setLength 1 (new 800 600)))
  = 2 * PI * sqrt (1 / (98 / 10)).
Proof. apply (pendulum_period (new 800 600) 1 (98 / 10)). lra. Defined.

(** X11.  An update puts the bob's new position at the end of the trail: the
    point at the string's length from the pivot, at the new angle. *)
Theorem pendulum_update_bob (s : state) :
  (0 < maxTrailLength s)%nat ->
  exists pt,
    last (trail (update s)) = Some pt /\
    pt = Point (cx s + length s * sin (angle (update s)))
               (cy s + length s * cos (angle (update s))) /\
    (px pt - cx s) ^ 2 + (py pt - cy s) ^ 2 = length s ^ 2.
Proof.
  intros Hmax. eexists. split_and!.
  - unfold update. cbn [trail]. by apply last_pushed.
  - reflexivity.
  - cbn. set (a := angle s + _).
    pose proof (sin2_cos2 a) as Hsc. unfold Rsqr in Hsc.
    replace ((cx s + length s * sin a - cx s) * ((cx s + length s * sin a - cx s) * 1)
             + (cy s + length s * cos a - cy s)
               * ((cy s + length s * cos a - cy s) * 1))
      with ((sin a * sin a + cos a * cos a) * (length s * length s)) by ring.
    rewrite Hsc. ring.
Qed.

Lemma pendulum_update_bob_witness :
  exists pt, last (trail (update (new 800 600))) = Some pt /\
             (px pt - 800 / 2) ^ 2 + (py pt - 50) ^ 2 = 150 ^ 2.
Proof.
  destruct (pendulum_update_bob (new 800 600)) as (pt & Hlast & _ & Hcircle).
  - cbn. lia.
  - exists pt. split; [exact Hlast|exact Hcircle].
Defined.

(** X12.  A pendulum at rest where the sine of its angle is zero, hanging
    straight down or standing straight up, stays at rest through any
    number of updates. *)
Theorem pendulum_at_rest (s : state) (n : nat) :
  sin (angle s) = 0 -> angleVel s = 0 ->
  let s' := applyAll s (replicate n Update) in
  angle s' = angle s /\ angleVel s' = 0 /\ ((0 < n)%nat -> angleAcc s' = 0).
Proof.
  unfold applyAll. revert s. induction n as [|n IH]; intros s Hsin Hvel.
  { cbn. split_and!; [done|done|lia]. }
  cbn [replicate foldl apply].
  assert (Hu : angle (update s) = angle s /\ angleVel (update s) = 0 /\
               angleAcc (update s) = 0).
  { cbn. rewrite Hsin, Hvel. split_and!; ring. }
  destruct Hu as (Ha & Hv & Hc).
  destruct (IH (update s)) as (H1 & H2 & H3); [by rewrite Ha|done|].
  split_and!; [by rewrite H1|done|]. intros _.
  destruct n as [|n]; [exact Hc|apply H3; lia].
Qed.

(** A pendulum hanging straight down, left alone for a hundred frames. *)
Lemma pendulum_at_rest_witness :
  let s := State 800 600 150 (98 / 10) 0 0 0 (999 / 1000) 400 50 [] 50 None in
  angle (applyAll s (replicate 100 Update)) = 0.
Proof.
  intros s. apply (pendulum_at_rest s 100); cbn; [apply sin_0|reflexivity].
Defined.

End PendulumMotion.

Section WaveClock.

Import WaveInterferenceSimulation.

Lemma running_frames_time (n : nat) (k : Sketch.t state) :
  Sketch.isRunning k = true ->
  let k' := Sketch.run k (replicate n Sketch.Frame) in
  Sketch.isRunning k' = true /\ time (Sketch.sim k') = time (Sketch.sim k) + INR n.
Proof.
  revert k. induction n as [|n IH]; intros k Hk.
  { cbn. split; [done|ring]. }
  cbn [replicate Sketch.run foldl Sketch.step].
  assert (Hd : Sketch.draw k = Sketch.Make (update (Sketch.sim k)) true).
  { unfold Sketch.draw. by rewrite Hk. }
  rewrite Hd. destruct (IH (Sketch.Make (update (Sketch.sim k)) true) eq_refl)
    as [Hr Ht].
  split; [exact Hr|]. unfold Sketch.run in Ht. rewrite Ht. cbn [Sketch.sim update time].
  rewrite S_INR. ring.
Qed.

(** X13.  The clock of the wave system counts the frames drawn while running:
    after a reset, a start and [n] frames it shows [n], and frames drawn
    after a pause do not count. *)
Theorem wave_time_counts_frames (k : Sketch.t state) (rnd : nat -> R) (n m : nat) :
  let events := [Sketch.Reset rnd; Sketch.Start] ++ replicate n Sketch.Frame
                ++ [Sketch.Pause] ++ replicate m Sketch.Frame in
  time (Sketch.sim (Sketch.run k events)) = INR n.
Proof.
  cbn zeta. unfold Sketch.run. rewrite !foldl_app. cbn [foldl Sketch.step].
  set (k1 := Sketch.start (Sketch.resetControl rnd k)).
  destruct (running_frames_time n k1 eq_refl) as [_ Ht]. unfold Sketch.run in Ht.
  set (k2 := foldl Sketch.step k1 (replicate n Sketch.Frame)) in *.
  assert (Hp : forall j (p : Sketch.t state), Sketch.isRunning p = false ->
            foldl Sketch.step p (replicate j Sketch.Frame) = p).
  { induction j as [|j IH]; intros p Hp; [done|].
    cbn. unfold Sketch.draw. rewrite Hp. by apply IH. }
  rewrite Hp by done. cbn [Sketch.pause Sketch.sim]. rewrite Ht. cbn. ring.
Qed.

End WaveClock.

(** ** The electric field *)

Section ElectricField.

Import ElectricFieldSimulation.



Lemma traceLine_S (w h c1 c2 : R) (n : nat) (x y : R) :
  traceLine w h c1 c2 (S n) x y
  = let field := calculateFieldAt w h c1 c2 x y in
    let magnitude := sqrt (px field * px field + py field * py field) in
    let x1 := if Rlt_dec 0 magnitude then x + (px field / magnitude) * 3 else x in
    let y1 := if Rlt_dec 0 magnitude then y + (py field / magnitude) * 3 else y in
    Point x y ::
      (if Rlt_dec x1 0 then []
       else if Rlt_dec w x1 then []
       else if Rlt_dec y1 0 then []
       else if Rlt_dec h y1 then []
       else traceLine w h c1 c2 n x1 y1).
Proof. reflexivity. Qed.

Lemma traceLine_length (w h c1 c2 : R) (n : nat) (x y : R) :
  (length (traceLine w h c1 c2 n x y) <= n)%nat.
Proof.
  revert x y. induction n as [|n IH]; intros x y; [done|].
  rewrite traceLine_S. cbn zeta. cbn [length].
  repeat destruct (Rlt_dec _ _); cbn [length]; try lia; apply le_n_S, IH.
Qed.

Lemma traceLine_inside (w h c1 c2 : R) (n : nat) (x y : R) :
  0 <= x <= w -> 0 <= y <= h ->
  Forall (fun p => 0 <= px p <= w /\ 0 <= py p <= h) (traceLine w h c1 c2 n x y).
Proof.
  revert x y. induction n as [|n IH]; intros x y Hx Hy; [constructor|].
  rewrite traceLine_S. cbn zeta. constructor; [done|].
  repeat destruct (Rlt_dec _ _); try constructor; apply IH; lra.
Qed.

Lemma traceLine_tail_inside (w h c1 c2 : R) (n : nat) (x y : R) :
  Forall (fun p => 0 <= px p <= w /\ 0 <= py p <= h)
         (tail (traceLine w h c1 c2 n x y)).
Proof.
  destruct n as [|n]; [constructor|].
  rewrite traceLine_S. cbn zeta. cbn [tail tl].
  repeat destruct (Rlt_dec _ _); try constructor; apply traceLine_inside; lra.
Qed.

Lemma linesFrom_lines (w h c1 c2 : R) (fuel : nat) (angle : R) :
  Forall (fun l => (1 <= length l <= 50)%nat /\
                   Forall (fun p => 0 <= px p <= w /\ 0 <= py p <= h) (tail l))
         (linesFrom w h c1 c2 fuel angle).
Proof.
  revert angle. induction fuel as [|fuel IH]; intros angle; [constructor|].
  rewrite linesFrom_S. destruct (Rlt_dec _ _); [|constructor].
  constructor; [|apply IH]. split_and!.
  - rewrite traceLine_S. cbn zeta. cbn [length]. lia.
  - apply traceLine_length.
  - apply traceLine_tail_inside.
Qed.

Lemma linesFrom_twelve (w h c1 c2 : R) :
  length (linesFrom w h c1 c2 13 0) = 12%nat.
Proof.
  pose proof PI_RGT_0 as Hpi.
  do 12 (rewrite linesFrom_S;
         destruct (Rlt_dec _ (2 * PI)) as [_|Hn]; [|exfalso; apply Hn; lra];
         cbn [length]).
  rewrite linesFrom_S. destruct (Rlt_dec _ (2 * PI)) as [Hlt|_]; [exfalso; lra|done].
Qed.

(** X15.  Field lines are drawn from the first charge only, and only when it
    is positive: then there are exactly twelve, otherwise none, whatever
    the second charge.  Every line has between 1 and 50 points, and all
    its points after the first lie within the canvas. *)
Theorem generateFieldLines_lines (s : state) :
  let lines := fieldLines (generateFieldLines s) in
  (0 < charge1 s -> length lines = 12%nat) /\
  (charge1 s <= 0 -> lines = []) /\
  Forall (fun l => (1 <= length l <= 50)%nat /\
                   Forall (fun p => 0 <= px p <= width s /\ 0 <= py p <= height s)
                          (tail l))
         lines.
Proof.
  cbn zeta. unfold generateFieldLines. cbn [fieldLines]. unfold generatedFieldLines.
  destruct (Rlt_dec 0 (charge1 s)) as [Hpos|Hneg]; split_and!.
  - intros _. apply linesFrom_twelve.
  - intros Hle. lra.
  - apply linesFrom_lines.
  - intros Hpos. lra.
  - done.
  - constructor.
Qed.

(** The fresh system has charges 5 and -5. *)
Lemma generateFieldLines_lines_witness :
  length (fieldLines (new 800 600)) = 12%nat /\
  fieldLines (setCharge1 (-5) (new 800 600)) = [].
Proof.
  split.
  - apply (generateFieldLines_lines (State 800 600 5 (-5) true [])). cbn. lra.
  - apply (generateFieldLines_lines
             (State 800 600 (-5) (-5) true (fieldLines (new 800 600)))).
    cbn. lra.
Defined.

End ElectricField.

(** ** The controls of the simulations *)

Section Controls.

Import SimulationsSystem.

Lemma split_nonempty (sep : ascii) (s : string) : split sep s <> [].
Proof.
  destruct s as [|c s]; cbn; [done|].
  destruct (decide _); [done|]. by destruct (split sep s).
Qed.

Lemma append_cons (c : ascii) (a b : string) :
  String c a +:+ b = String c (a +:+ b).
Proof. reflexivity. Qed.

(** Splitting around a separator splits both sides. *)
Lemma split_around (sep : ascii) (a b : string) :
  split sep (a +:+ String sep b) = split sep a ++ split sep b.
Proof.
  induction a as [|c a IH].
  - change (EmptyString +:+ String sep b) with (String sep b). cbn.
    by destruct (decide (sep = sep)).
  - rewrite append_cons. cbn. destruct (decide (c = sep)); [by rewrite IH|].
    rewrite IH. pose proof (split_nonempty sep a).
    by destruct (split sep a).
Qed.

Lemma split_whole (sep : ascii) (s : string) :
  sep ∉ Text.chars s -> split sep s = [s].
Proof.
  induction s as [|c s IH]; cbn; [done|].
  intros Hs. apply not_elem_of_cons in Hs as [Hc Hs].
  destruct (decide (c = sep)); [done|]. by rewrite IH.
Qed.

(** [join] undoes [split]. *)
Lemma join_split (sep : ascii) (s : string) : join sep (split sep s) = s.
Proof.
  induction s as [|c s IH]; cbn; [done|].
  pose proof (split_nonempty sep s) as Hne.
  destruct (decide (c = sep)) as [->|Hc].
  - cbn. destruct (split sep s) as [|p ps]; [done|]. by rewrite IH.
  - destruct (split sep s) as [|p ps]; [done|].
    destruct ps as [|p' ps]; cbn in *; by rewrite <- IH.
Qed.

Lemma decoded_ids (name rest : string) :
  "-"%char ∉ Text.chars name ->
  getSimulationIdFromControl (name +:+ String "-" rest) = name /\
  getParameterFromControl (name +:+ String "-" rest) = rest /\
  getSimulationIdFromControl name = name /\
  getParameterFromControl name = EmptyString /\
  getActionFromButton (rest +:+ String "-" name) = name.
Proof.
  intros Hname.
  unfold getSimulationIdFromControl, getParameterFromControl, getActionFromButton.
  rewrite !split_around, (split_whole _ name Hname). cbn [app head drop default].
  split_and!; try done.
  - apply join_split.
  - by rewrite last_snoc.
Qed.

(** X16.  The id of a control is read back as it was composed: for a
    simulation name without a dash, the control [name-parameter] belongs
    to that simulation with that parameter, also when the parameter has
    dashes of its own; the action of a button is what follows its last
    dash; and an id without a dash has no parameter. *)
Theorem control_id_decoding (name rest : string) :
  "-"%char ∉ Text.chars name ->
  getSimulationIdFromControl (name +:+ String "-" rest) = name /\
  getParameterFromControl (name +:+ String "-" rest) = rest /\
  getSimulationIdFromControl name = name /\
  getParameterFromControl name = EmptyString /\
  getActionFromButton (rest +:+ String "-" name) = name.
Proof. exact (decoded_ids name rest). Qed.

Lemma control_id_decoding_witness :
  getSimulationIdFromControl "electric-field-lines" = "electric" /\
  getParameterFromControl "electric-field-lines" = "field-lines".
Proof.
  assert (Hn : "-"%char ∉ Text.chars "electric") by by_decide.
  destruct (control_id_decoding "electric" "field-lines" Hn) as (H1 & H2 & _).
  split; [exact H1|exact H2].
Defined.

(** An event for a name that is none of the four simulations is dropped,
    and an event for one simulation leaves the other three alone. *)
Lemma deliver_elsewhere (simulationId : string) (e : Sketch.event) (sys : t) :
  (simulationId ≠ "pendulum" -> pendulum (deliver simulationId e sys) = pendulum sys) /\
  (simulationId ≠ "wave" -> wave (deliver simulationId e sys) = wave sys) /\
  (simulationId ≠ "gravity" -> gravity (deliver simulationId e sys) = gravity sys) /\
  (simulationId ≠ "electric" -> electric (deliver simulationId e sys) = electric sys).
Proof. unfold deliver. repeat case_decide; subst; by split_and!. Qed.

(** X17.  A button [name-start], [name-pause] or [name-reset] acts on the
    sketch registered under [name] and on no other; a button with
    another action, or for a name that is not registered, does
    nothing. *)
Theorem handleControlButton_routes (name action : string) (rnd : nat -> R) (sys : t) :
  "-"%char ∉ Text.chars name -> "-"%char ∉ Text.chars action ->
  name ≠ EmptyString ->
  let sys' := handleControlButton (name +:+ String "-" action) rnd sys in
  (action = "start" -> sys' = deliver name Sketch.Start sys) /\
  (action = "pause" -> sys' = deliver name Sketch.Pause sys) /\
  (action = "reset" -> sys' = deliver name (Sketch.Reset rnd) sys) /\
  (action ≠ "start" -> action ≠ "pause" -> action ≠ "reset" -> sys' = sys) /\
  (name ≠ "pendulum" -> pendulum sys' = pendulum sys) /\
  (name ≠ "wave" -> wave sys' = wave sys) /\
  (name ≠ "gravity" -> gravity sys' = gravity sys) /\
  (name ≠ "electric" -> electric sys' = electric sys).
Proof.
  intros Hname Haction Hne sys'. unfold sys', handleControlButton.
  destruct (decoded_ids name action Hname) as (Hid & _).
  destruct (decoded_ids action name Haction) as (_ & _ & _ & _ & Hact).
  rewrite Hid, Hact.
  unfold startSimulation, pauseSimulation, resetSimulation.
  repeat case_decide; subst; split_and!; try done;
    intros; by apply deliver_elsewhere.
Qed.

Lemma handleControlButton_routes_witness :
  let sys := Make None None
               (Some (Sketch.setup (GravitySimulation.new 800 600))) None in
  handleControlButton "gravity-start" (fun _ => 0) sys
  = deliver "gravity" Sketch.Start sys.
Proof.
  intros sys.
  assert (Hn : "-"%char ∉ Text.chars "gravity") by by_decide.
  assert (Ha : "-"%char ∉ Text.chars "start") by by_decide.
  assert (He : "gravity" ≠ EmptyString) by discriminate.
  exact (proj1 (handleControlButton_routes "gravity" "start" (fun _ => 0) sys Hn Ha He)
           eq_refl).
Defined.

(** X18.  Hiding the page pauses every sketch and showing it again restarts
    none: after [pauseAll] and [resumeAll] no frame changes any
    simulation, and all sketches stay paused. *)
Theorem hidden_page_stops_all (sys : t) (n : nat) :
  let sys' := Nat.iter n frame (resumeAll (pauseAll sys)) in
  sys' = pauseAll sys /\
  Sketch.sim <$> pendulum sys' = Sketch.sim <$> pendulum sys /\
  Sketch.sim <$> wave sys' = Sketch.sim <$> wave sys /\
  Sketch.sim <$> gravity sys' = Sketch.sim <$> gravity sys /\
  Sketch.sim <$> electric sys' = Sketch.sim <$> electric sys /\
  Sketch.isRunning <$> pendulum sys' = (fun _ => false) <$> pendulum sys /\
  Sketch.isRunning <$> wave sys' = (fun _ => false) <$> wave sys /\
  Sketch.isRunning <$> gravity sys' = (fun _ => false) <$> gravity sys /\
  Sketch.isRunning <$> electric sys' = (fun _ => false) <$> electric sys.
Proof.
  intros sys'.
  assert (Hfix : frame (pauseAll sys) = pauseAll sys).
  { unfold frame, pauseAll. cbn.
    by destruct (pendulum sys), (wave sys), (gravity sys), (electric sys). }
  assert (Hsys : sys' = pauseAll sys).
  { unfold sys', resumeAll. clear sys'. induction n as [|n IH]; [done|].
    change (Nat.iter (S n) frame (pauseAll sys))
      with (frame (Nat.iter n frame (pauseAll sys))).
    by rewrite IH. }
  rewrite Hsys. unfold pauseAll. cbn.
  by destruct (pendulum sys), (wave sys), (gravity sys), (electric sys).
Qed.

End Controls.

(** ** Regular expressions: the matcher accepts the words of the
    expression *)

Section Matcher.

Import Text.

Ltac invert H := inversion H; subst; clear H.

Lemma nullable_matches (r : regex) : nullable r = true <-> matches r [].
Proof.
  induction r as [| |p|r1 IH1 r2 IH2|r1 IH1 r2 IH2|r IH]; cbn.
  - split; [discriminate|intros H; invert H].
  - split; [constructor|done].
  - split; [discriminate|intros H; invert H].
  - rewrite andb_true_iff, IH1, IH2. split.
    + intros [H1 H2]. by apply (matches_seq r1 r2 [] []).
    + intros H. inversion H as [| |? ? w1 w2 H1 H2 Hr Hw| | | |]; subst.
      apply app_eq_nil in Hw as [-> ->]. done.
  - rewrite orb_true_iff, IH1, IH2. split.
    + intros [H|H]; [by apply matches_alt_l|by apply matches_alt_r].
    + intros H. invert H; tauto.
  - split; [constructor|done].
Qed.

Lemma matches_star_cons (r : regex) (c : ascii) (w : list ascii) :
  matches (Star r) (c :: w) ->
  exists w1 w2, w = w1 ++ w2 /\ matches r (c :: w1) /\ matches (Star r) w2.
Proof.
  enough (Hgen : forall sr cw, matches sr cw ->
            forall v, sr = Star r -> cw = c :: v ->
            exists w1 w2, v = w1 ++ w2 /\ matches r (c :: w1) /\ matches (Star r) w2).
  { intros H. by apply (Hgen _ _ H). }
  intros sr cw H.
  induction H as [| | | | | |r' u1 u2 H1 _ H2 IH2]; intros v Hsr Hcw;
    try discriminate.
  injection Hsr as ->. destruct u1 as [|c' u1].
  - cbn in Hcw. by apply IH2.
  - cbn in Hcw. injection Hcw as -> <-. by exists u1, u2.
Qed.

Lemma deriv_matches (r : regex) (c : ascii) (w : list ascii) :
  matches (deriv c r) w <-> matches r (c :: w).
Proof.
  revert w. induction r as [| |p|r1 IH1 r2 IH2|r1 IH1 r2 IH2|r IH]; intros w; cbn.
  - split; intros H; invert H.
  - split; intros H; invert H.
  - destruct (p c) eqn:Hp.
    + split; intros H; invert H; by constructor.
    + split; intros H; invert H. congruence.
  - assert (Hseq : matches (Seq (deriv c r1) r2) w <->
                   exists w1 w2, w = w1 ++ w2 /\ matches r1 (c :: w1) /\ matches r2 w2).
    { split.
      - intros H. invert H. eexists _, _. split; [done|]. by rewrite <- IH1.
      - intros (w1 & w2 & -> & H1 & H2). constructor; [by apply IH1|done]. }
    assert (Hcons : matches (Seq r1 r2) (c :: w) <->
                    (exists w1 w2, w = w1 ++ w2 /\ matches r1 (c :: w1) /\ matches r2 w2)
                    \/ (matches r1 [] /\ matches r2 (c :: w))).
    { split.
      - intros H. inversion H as [| |? ? w1 w2 H1 H2 Hr Hw| | | |]; subst.
        destruct w1 as [|c' w1]; cbn in Hw.
        + right. by subst.
        + injection Hw as -> <-. left. by exists w1, w2.
      - intros [(w1 & w2 & -> & H1 & H2)|[H1 H2]].
        + by apply (matches_seq r1 r2 (c :: w1) w2).
        + by apply (matches_seq r1 r2 [] (c :: w)). }
    rewrite Hcons. destruct (nullable r1) eqn:Hn.
    + apply nullable_matches in Hn. split.
      * intros H. invert H; [left; by apply Hseq|right; by rewrite <- IH2].
      * intros [H|[_ H]]; [apply matches_alt_l; by apply Hseq|].
        apply matches_alt_r. by apply IH2.
    + rewrite Hseq. split; [tauto|]. intros [H|[H _]]; [done|].
      apply nullable_matches in H. congruence.
  - split; intros H; invert H;
      solve [apply matches_alt_l; by apply IH1 | apply matches_alt_r; by apply IH2].
  - split.
    + intros H. invert H.
      match goal with
      | H1 : matches (deriv c r) ?u1, H2 : matches (Star r) ?u2 |- _ =>
          apply (matches_star_app r (c :: u1) u2); [by apply IH|done]
      end.
    + intros H. apply matches_star_cons in H as (w1 & w2 & -> & H1 & H2).
      constructor; [by apply IH|done].
Qed.

Lemma test_matches (r : regex) (s : string) :
  test r s = true <-> matches r (chars s).
Proof.
  unfold test. generalize (chars s) as w. intros w. revert r.
  induction w as [|c w IH]; intros r; cbn.
  - apply nullable_matches.
  - rewrite IH. apply deriv_matches.
Qed.

Lemma matches_star_class (p : ascii -> bool) (w : list ascii) :
  matches (Star (Class p)) w <-> Forall (fun c => p c = true) w.
Proof.
  split.
  - enough (Hgen : forall sr u, matches sr u -> sr = Star (Class p) ->
                                Forall (fun c => p c = true) u) by eauto.
    intros sr u H.
    induction H as [| | | | | |r' w1 w2 H1 _ H2 IH2]; intros Hsr; try discriminate.
    + constructor.
    + injection Hsr as ->. invert H1. constructor; [done|by apply IH2].
  - induction 1 as [|c u Hc _ IH]; [constructor|].
    apply (matches_star_app (Class p) [c] u); [by constructor|done].
Qed.

Lemma matches_plus_class (p : ascii -> bool) (w : list ascii) :
  matches (Plus (Class p)) w <-> w <> [] /\ Forall (fun c => p c = true) w.
Proof.
  unfold Plus. split.
  - intros H. invert H.
    match goal with H1 : matches (Class p) _ |- _ => invert H1 end.
    split; [done|]. constructor; [done|by apply matches_star_class].
  - intros [Hne Hall]. destruct Hall as [|c u Hc Hall]; [done|].
    apply (matches_seq (Class p) _ [c] u); [by constructor|by apply matches_star_class].
Qed.

Lemma matches_exactly_class (p : ascii -> bool) (n : nat) (w : list ascii) :
  matches (Exactly n (Class p)) w <-> length w = n /\ Forall (fun c => p c = true) w.
Proof.
  revert w. induction n as [|n IH]; intros w; cbn.
  - split.
    + intros H. invert H. by split.
    + intros [Hl _]. apply nil_length_inv in Hl as ->. constructor.
  - split.
    + intros H. invert H.
      match goal with H1 : matches (Class p) _ |- _ => invert H1 end.
      match goal with H2 : matches (Exactly n _) _ |- _ =>
        apply IH in H2 as [Hl Hall] end.
      cbn. split; [lia|by constructor].
    + intros [Hl Hall]. destruct Hall as [|c u Hc Hall]; [done|].
      cbn in Hl. apply (matches_seq (Class p) _ [c] u); [by constructor|].
      apply IH. split; [lia|done].
Qed.

Lemma matches_upto_class (p : ascii -> bool) (k : nat) (w : list ascii) :
  matches (UpTo k (Class p)) w
  <-> (length w <= k)%nat /\ Forall (fun c => p c = true) w.
Proof.
  revert w. induction k as [|k IH]; intros w; cbn.
  - split.
    + intros H. invert H. split; [cbn; lia|done].
    + intros [Hl _]. destruct w; [constructor|cbn in Hl; lia].
  - unfold Opt. split.
    + intros H. invert H.
      * match goal with H1 : matches Eps _ |- _ => invert H1 end.
        split; [cbn; lia|done].
      * match goal with H1 : matches (Seq _ _) _ |- _ => invert H1 end.
        match goal with H1 : matches (Class p) _ |- _ => invert H1 end.
        match goal with H2 : matches (UpTo k _) _ |- _ =>
          apply IH in H2 as [Hl Hall] end.
        cbn. split; [lia|by constructor].
    + intros [Hl Hall]. destruct Hall as [|c u Hc Hall].
      * apply matches_alt_l. constructor.
      * apply matches_alt_r. cbn in Hl.
        apply (matches_seq (Class p) _ [c] u); [by constructor|].
        apply IH. split; [lia|done].
Qed.

Lemma matches_between_class (p : ascii -> bool) (n m : nat) (w : list ascii) :
  (n <= m)%nat ->
  matches (Between n m (Class p)) w
  <-> (n <= length w <= m)%nat /\ Forall (fun c => p c = true) w.
Proof.
  intros Hnm. unfold Between. split.
  - intros H. invert H.
    match goal with H1 : matches (Exactly n _) _ |- _ =>
      apply matches_exactly_class in H1 as [Hl1 Ha1] end.
    match goal with H2 : matches (UpTo _ _) _ |- _ =>
      apply matches_upto_class in H2 as [Hl2 Ha2] end.
    rewrite length_app. split; [lia|by apply Forall_app].
  - intros [Hl Hall]. rewrite <- (take_drop n w).
    constructor.
    + apply matches_exactly_class. split; [rewrite length_take; lia|].
      by apply Forall_take.
    + apply matches_upto_class. split; [rewrite length_drop; lia|].
      by apply Forall_drop.
Qed.

Lemma matches_opt_class (p : ascii -> bool) (w : list ascii) :
  matches (Opt (Class p)) w <-> w = [] \/ exists c, w = [c] /\ p c = true.
Proof.
  unfold Opt. split.
  - intros H. invert H.
    + match goal with H1 : matches Eps _ |- _ => invert H1 end. by left.
    + match goal with H1 : matches (Class p) _ |- _ => invert H1 end.
      right. by eexists.
  - intros [->|(c & -> & Hc)].
    + apply matches_alt_l. constructor.
    + apply matches_alt_r. by constructor.
Qed.

End Matcher.

(** ** The validators of the contact and registration forms *)

Section Validators.
Import Text.

Lemma matches_seq_iff (r1 r2 : regex) (w : list ascii) :
  matches (Seq r1 r2) w
  <-> exists w1 w2, w = w1 ++ w2 /\ matches r1 w1 /\ matches r2 w2.
Proof.
  split.
  - intros H. inversion H; subst. eauto.
  - intros (w1 & w2 & -> & H1 & H2). by constructor.
Qed.

Lemma matches_class_iff (p : ascii -> bool) (w : list ascii) :
  matches (Class p) w <-> exists c, w = [c] /\ p c = true.
Proof.
  split.
  - intros H. inversion H; subst. eauto.
  - intros (c & -> & H). by constructor.
Qed.

Lemma isChar_true (a c : ascii) : isChar a c = true <-> c = a.
Proof. unfold isChar. rewrite bool_decide_eq_true. split; congruence. Qed.

Lemma chars_length (s : string) : length (chars s) = String.length s.
Proof. induction s as [|c s IH]; cbn; [done|by f_equal]. Qed.

Lemma chars_string_of_list (l : list ascii) : chars (string_of_list_ascii l) = l.
Proof. apply list_ascii_of_string_of_list_ascii. Qed.

Lemma other_char (c : ascii) :
  negb (isSpace c) && negb (isChar "@" c) = true
  <-> isSpace c = false /\ c <> "@"%char.
Proof.
  rewrite andb_true_iff, !negb_true_iff. unfold isChar.
  rewrite bool_decide_eq_false. split; intros [? ?]; split; congruence.
Qed.

(** X19.  An address is accepted exactly when it is a
    local part, an [@], a domain, a dot and an ending, the three parts
    not empty and without white space and [@]. *)
Theorem isValidEmail_shape (email : string) :
  ContactManager.isValidEmail email = true <->
  exists local domain ending : list ascii,
    chars email = local ++ "@"%char :: domain ++ "."%char :: ending /\
    local <> [] /\ domain <> [] /\ ending <> [] /\
    Forall (fun c => isSpace c = false /\ c <> "@"%char)
           (local ++ domain ++ ending).
Proof.
  unfold ContactManager.isValidEmail, ContactManager.emailRegex. cbv zeta.
  rewrite test_matches. split.
  - intros H.
    apply matches_seq_iff in H as (w1 & r1 & Heq & H1 & H).
    apply matches_seq_iff in H as (a & r2 & -> & Ha & H).
    apply matches_seq_iff in H as (w2 & r3 & -> & H2 & H).
    apply matches_seq_iff in H as (d & w3 & -> & Hd & H3).
    apply matches_class_iff in Ha as (ca & -> & Hca).
    apply matches_class_iff in Hd as (cd & -> & Hcd).
    apply isChar_true in Hca as ->. apply isChar_true in Hcd as ->.
    apply matches_plus_class in H1 as [Hn1 Hf1].
    apply matches_plus_class in H2 as [Hn2 Hf2].
    apply matches_plus_class in H3 as [Hn3 Hf3].
    exists w1, w2, w3. split_and!; try done.
    rewrite !Forall_app. split_and!;
      (eapply Forall_impl; [eassumption|]); intros c; apply other_char.
  - intros (w1 & w2 & w3 & Heq & Hn1 & Hn2 & Hn3 & Hf).
    rewrite !Forall_app in Hf. destruct Hf as (Hf1 & Hf2 & Hf3).
    rewrite Heq.
    apply matches_seq_iff. exists w1, ("@"%char :: w2 ++ "."%char :: w3).
    split; [done|]. split.
    { apply matches_plus_class. split; [done|].
      eapply Forall_impl; [eassumption|]. intros c; apply other_char. }
    apply matches_seq_iff. exists ["@"%char], (w2 ++ "."%char :: w3).
    split; [done|]. split.
    { apply matches_class_iff. exists "@"%char. split; [done|]. by apply isChar_true. }
    apply matches_seq_iff. exists w2, ("."%char :: w3).
    split; [done|]. split.
    { apply matches_plus_class. split; [done|].
      eapply Forall_impl; [eassumption|]. intros c; apply other_char. }
    apply matches_seq_iff. exists ["."%char], w3.
    split; [done|]. split.
    { apply matches_class_iff. exists "."%char. split; [done|]. by apply isChar_true. }
    apply matches_plus_class. split; [done|].
    eapply Forall_impl; [eassumption|]. intros c; apply other_char.
Qed.

(** X20.  A phone number is accepted exactly when, its
    white space removed, it is an optional [+] and then 9 to 16 digits,
    the first of which is not 0 when there are 16. *)
Theorem isValidPhone_shape (phone : string) :
  ContactManager.isValidPhone phone = true <->
  exists sign digits : list ascii,
    List.filter (fun c => negb (isSpace c)) (chars phone) = sign ++ digits /\
    (sign = [] \/ sign = ["+"%char]) /\
    Forall (fun c => isDigit c = true) digits /\
    (9 <= length digits <= 16)%nat /\
    (length digits = 16%nat -> head digits <> Some "0"%char).
Proof.
  unfold ContactManager.isValidPhone, ContactManager.phoneRegex, removeSpaces.
  rewrite test_matches, chars_string_of_list.
  generalize (List.filter (fun c => negb (isSpace c)) (chars phone)) as w.
  intros w. split.
  - intros H.
    apply matches_seq_iff in H as (sign & r1 & -> & Hs & H).
    apply matches_seq_iff in H as (lead & ds & -> & Hl & Hd).
    apply matches_opt_class in Hs, Hl.
    apply matches_between_class in Hd as [Hlen Hall]; [|lia].
    exists sign, (lead ++ ds). split; [done|]. split.
    { destruct Hs as [->|(c & -> & Hc)]; [by left|].
      apply isChar_true in Hc as ->. by right. }
    destruct Hl as [->|(c & -> & Hc)]; cbn.
    + split_and!; [done|lia|lia|lia].
    + apply andb_true_iff in Hc as [Hc1 Hc2].
      apply negb_true_iff in Hc2. unfold isChar in Hc2.
      apply bool_decide_eq_false in Hc2.
      split_and!; [by constructor|lia|lia|]. intros _. congruence.
  - intros (sign & ds & -> & Hs & Hall & Hlen & Hz).
    apply matches_seq_iff. exists sign.
    destruct (decide (length ds = 16%nat)) as [H16|H16].
    + destruct ds as [|c ds]; [done|].
      exists (c :: ds). split; [done|]. split.
      { apply matches_opt_class. destruct Hs as [->| ->]; [by left|].
        right. exists "+"%char. split; [done|]. by apply isChar_true. }
      apply matches_seq_iff. exists [c], ds. split; [done|].
      apply Forall_cons in Hall as [Hc Hall]. split.
      * apply matches_opt_class. right. exists c. split; [done|].
        rewrite Hc. cbn. apply negb_true_iff. unfold isChar.
        apply bool_decide_eq_false. intros <-. by apply Hz.
      * apply matches_between_class; [lia|]. cbn in H16. split; [lia|done].
    + exists ds. split; [done|]. split.
      { apply matches_opt_class. destruct Hs as [->| ->]; [by left|].
        right. exists "+"%char. split; [done|]. by apply isChar_true. }
      apply matches_seq_iff. exists [], ds. split; [done|]. split.
      * apply matches_opt_class. by left.
      * apply matches_between_class; [lia|]. split; [lia|done].
Qed.

(** X21.  A user name is accepted exactly when it has 3
    to 20 characters, each a letter, a digit or an underscore. *)
Theorem isValidUsername_shape (username : string) :
  AuthManager.isValidUsername username = true <->
  (3 <= String.length username <= 20)%nat /\
  Forall (fun c => isLower c = true \/ isUpper c = true \/ isDigit c = true \/
                   c = "_"%char) (chars username).
Proof.
  unfold AuthManager.isValidUsername, AuthManager.usernameRegex.
  rewrite test_matches, matches_between_class by lia.
  rewrite chars_length. apply and_iff_compat_l.
  apply Forall_iff. intros c. unfold AuthManager.isWordChar.
  rewrite !orb_true_iff, isChar_true. tauto.
Qed.

Lemma dropSpaces_nil (l : list ascii) :
  dropSpaces l = [] <-> Forall (fun c => isSpace c = true) l.
Proof.
  induction l as [|c l IH]; cbn; [by split; [constructor|]|].
  destruct (isSpace c) eqn:Hc.
  - rewrite IH. split; [by constructor|]. by intros [_ ?]%Forall_cons.
  - split; [done|]. intros [? _]%Forall_cons. congruence.
Qed.

Lemma trim_empty (s : string) :
  trim s = "" <-> Forall (fun c => isSpace c = true) (chars s).
Proof.
  unfold trim. split.
  - intros H. apply (f_equal chars) in H. rewrite chars_string_of_list in H.
    cbn in H. apply (f_equal reverse) in H. rewrite reverse_involutive in H.
    cbn in H. apply dropSpaces_nil in H.
    destruct (dropSpaces (chars s)) as [|c l] eqn:Hd.
    + by apply dropSpaces_nil.
    + exfalso. rewrite Forall_reverse in H.
      assert (Hc : isSpace c = true) by by apply Forall_cons in H as [? _].
      clear H. induction (chars s) as [|a k IH]; cbn in Hd; [done|].
      destruct (isSpace a) eqn:Ha; [by apply IH|]. congruence.
  - intros H. apply dropSpaces_nil in H. by rewrite H.
Qed.

(** X22.  The message [This field is
    required] is the verdict exactly for a required field whose value is
    white space only, and an optional field of white space only is
    valid whatever its name. *)
Theorem blank_field_verdict (f : ContactManager.field) :
  (ContactManager.checkField f = (false, "This field is required")
   <-> ContactManager.required f = true /\
       Forall (fun c => isSpace c = true) (chars (ContactManager.value f))) /\
  (ContactManager.required f = false ->
   Forall (fun c => isSpace c = true) (chars (ContactManager.value f)) ->
   ContactManager.checkField f = (true, "")).
Proof.
  unfold ContactManager.checkField. cbv zeta.
  rewrite <- trim_empty.
  destruct (ContactManager.required f); cbn [andb].
  - case_bool_decide as Ht.
    + split; [by split|done].
    + split; [|done]. split; [|by intros [_ ?]].
      repeat case_decide; repeat case_match; intros; simplify_eq.
  - split; [|by intros _ ->].
    split; [|by intros [? _]].
    case_bool_decide; [done|].
    repeat case_decide; repeat case_match; intros; simplify_eq.
Qed.

Lemma blank_field_verdict_witness :
  ContactManager.checkField (ContactManager.Field "  " "email" false None)
  = (true, "").
Proof.
  apply (proj2 (blank_field_verdict
                  (ContactManager.Field "  " "email" false None))).
  - reflexivity.
  - cbn. repeat constructor.
Defined.

End Validators.

(** ** The registration form: password strength, age and steps *)

Section Registration.
Import AuthManager.

(** X23.  The strength is 20 for each of the five
    requirements met; [isValidPassword] holds exactly at strength 100,
    and [validatePassword] exactly when three requirements are met,
    which are the levels [good] and [strong]. *)
Theorem password_strength (password : string) :
  let '(strength, metRequirements) := checkPasswordStrength password in
  strength = (20 * metRequirements)%nat /\
  (metRequirements <= length getPasswordRequirements)%nat /\
  (isValidPassword password = true <-> strength = 100%nat) /\
  (validatePassword strength = true <-> (3 <= metRequirements)%nat) /\
  (validatePassword strength = true
   <-> strengthLevel strength = "good" \/ strengthLevel strength = "strong").
Proof.
  unfold checkPasswordStrength, isValidPassword, getPasswordRequirements.
  cbn [foldl req_test req_strength length fst snd].
  destruct (8 <=? String.length password)%nat,
    (Text.contains Text.isUpper password),
    (Text.contains Text.isLower password),
    (Text.contains Text.isDigit password),
    (Text.contains isSpecial password);
    cbn; unfold validatePassword, strengthLevel; cbn;
    (split_and!; [lia|lia|split; (done || lia)|split; (done || lia)|
                  split; [(done || auto)|intros [?|?]; done]]).
Qed.

(** X24.  A birth date is accepted exactly when its text gives a valid
    [Date] and the thirteenth anniversary of that date, as the local
    getters read it, is today or earlier: year, month and day, the year
    advanced by 13, are compared with today's in lexicographic order.
    An Invalid Date is refused. *)
Theorem isValidAge_thirteenth_birthday (parse : string -> option date)
    (today : date) (birthDate : string) :
  isValidAge parse today birthDate = true <->
  exists birth,
    parse birthDate = Some birth /\
    (getFullYear birth + 13 < getFullYear today \/
     getFullYear birth + 13 = getFullYear today /\
     (getMonth birth < getMonth today \/
      getMonth birth = getMonth today /\ getDate birth <= getDate today))%Z.
Proof.
  unfold isValidAge. destruct (parse birthDate) as [birth|].
  - cbv zeta.
    assert (Hb : forall P : date -> Prop,
               (exists b, Some birth = Some b /\ P b) <-> P birth).
    { intros P. split; [by intros (b & [= <-] & ?)|by exists birth]. }
    rewrite Hb.
    destruct (Z.ltb_spec (getMonth today - getMonth birth) 0),
      (Z.eqb_spec (getMonth today - getMonth birth) 0),
      (Z.ltb_spec (getDate today) (getDate birth));
      cbn [orb andb]; rewrite Z.leb_le; lia.
  - split; [done|]. by intros (b & ? & _).
Qed.

Lemma navigate_steps (w : wizard) (n : navigation) :
  totalSteps w = 3%nat -> (1 <= currentStep w <= 3)%nat ->
  totalSteps (navigate w n) = 3%nat /\
  (1 <= currentStep (navigate w n) <= 3)%nat /\
  (currentStep (navigate w n) <=
   currentStep w + match n with Next true => 1 | _ => 0 end)%nat.
Proof.
  intros Ht Hc.
  destruct n as [[|]|]; unfold navigate, nextStep, prevStep; cbn [negb].
  - rewrite Ht.
    destruct (currentStep w <? 3)%nat eqn:E;
      [apply Nat.ltb_lt in E|apply Nat.ltb_ge in E];
      cbn [currentStep totalSteps]; lia.
  - lia.
  - destruct (1 <? currentStep w)%nat eqn:E;
      [apply Nat.ltb_lt in E|apply Nat.ltb_ge in E];
      cbn [currentStep totalSteps]; lia.
Qed.

Lemma navigate_all_steps (ns : list navigation) (w : wizard) :
  totalSteps w = 3%nat -> (1 <= currentStep w <= 3)%nat ->
  let w' := foldl navigate w ns in
  totalSteps w' = 3%nat /\
  (1 <= currentStep w' <= 3)%nat /\
  (currentStep w' <=
   currentStep w +
   length (List.filter (fun n => match n with Next true => true | _ => false end) ns))%nat.
Proof.
  revert w. induction ns as [|n ns IH]; intros w Ht Hc; cbn.
  - lia.
  - destruct (navigate_steps w n Ht Hc) as (Ht' & Hc' & Hle).
    destruct (IH _ Ht' Hc') as (? & ? & ?). cbn zeta in *.
    split_and!; [done|lia|lia|].
    destruct n as [[|]|]; cbn [length] in *; lia.
Qed.

(** X25.  Whatever the buttons pressed, the form has three steps and is
    at one of them, and it has advanced at most once for each press of
    the next button on a valid step: the last step is reached after two
    of them at the earliest. *)
Theorem wizard_steps (ns : list navigation) :
  let w := foldl navigate newWizard ns in
  totalSteps w = 3%nat /\
  (1 <= currentStep w <= 3)%nat /\
  (currentStep w <=
   1 + length (List.filter (fun n => match n with Next true => true | _ => false end) ns))%nat.
Proof.
  cbn zeta.
  destruct (navigate_all_steps ns newWizard) as (Ht & Hc & Hle); [done|cbn; lia|].
  cbn zeta in *. cbn [newWizard currentStep] in Hle. done.
Qed.

End Registration.

(** ** The questions of the contact page *)

Section FAQ.
Import ContactManager.

(** X26.  After a click on a question all other items are
    closed and the item itself is open exactly if it was closed before,
    so at most one item is open; an answer is shown, at its full height,
    exactly when its question is active. *)
Theorem toggleFAQ_one_open (faqItems : list faqItem) (index : nat) :
  (index < length faqItems)%nat ->
  let items' := toggleFAQ index faqItems in
  length items' = length faqItems /\
  (questionActive <$> items' !! index)
    = (negb ∘ questionActive <$> faqItems !! index) /\
  (forall j item, items' !! j = Some item -> j <> index ->
                  questionActive item = false) /\
  Forall (fun item =>
            answerShown item = questionActive item /\
            maxHeight item = if questionActive item then scrollHeight item else 0%nat)
         items'.
Proof.
  intros Hi. cbn zeta. unfold toggleFAQ.
  destruct (lookup_lt_is_Some_2 _ _ Hi) as [it Hit]. rewrite Hit. cbv zeta.
  assert (Hclosed : Forall (fun item =>
            answerShown item = questionActive item /\
            maxHeight item = if questionActive item then scrollHeight item else 0%nat)
            (closeItem <$> faqItems)).
  { apply Forall_fmap, Forall_true. by intros ?. }
  destruct (questionActive it) eqn:Hact; cbn [negb].
  - split_and!.
    + by rewrite length_fmap.
    + by rewrite list_lookup_fmap, Hit; cbn; rewrite Hact.
    + intros j item Hj _. rewrite list_lookup_fmap in Hj.
      destruct (faqItems !! j); by simplify_eq/=.
    + done.
  - split_and!.
    + by rewrite length_alter, length_fmap.
    + rewrite list_lookup_alter, list_lookup_fmap, Hit. cbn. unfold compose.
      rewrite decide_True by done. cbn. by rewrite Hact.
    + intros j item Hj Hne.
      rewrite list_lookup_alter_ne, list_lookup_fmap in Hj by done.
      destruct (faqItems !! j); by simplify_eq/=.
    + apply Forall_alter; [done|]. by intros ? _.
Qed.

(** The second of two questions is clicked while the first is open. *)
Lemma toggleFAQ_one_open_witness :
  let items := [FaqItem true true 40 (Some 180%nat) 40;
                FaqItem false false 0 None 25] in
  (1 < length items)%nat /\
  (questionActive <$> toggleFAQ 1 items !! 1%nat)
  = (negb ∘ questionActive <$> items !! 1%nat).
Proof.
  intros items. split; [cbn; lia|].
  apply (proj1 (proj2 (toggleFAQ_one_open items 1 ltac:(cbn; lia)))).
Defined.

End FAQ.

(** ** Preferences and the forum in local storage *)

Section Preferences.
Import Operations.

(** X27.  A saved mode is the
    mode loaded, whatever the device; toggling saves the opposite mode,
    and toggling twice gives back the mode with its saved preference. *)
Theorem performance_mode_round_trip (detected isAdvancedMode : bool) (st : storage) :
  PerformanceToggle.loadUserPreference detected
    (PerformanceToggle.saveUserPreference isAdvancedMode st) = isAdvancedMode /\
  (let '(mode, st') := PerformanceToggle.togglePerformanceMode isAdvancedMode st in
   PerformanceToggle.loadUserPreference detected st' = negb isAdvancedMode /\
   PerformanceToggle.togglePerformanceMode mode st'
   = (isAdvancedMode, PerformanceToggle.saveUserPreference isAdvancedMode st)).
Proof.
  assert (Hload : forall m s, PerformanceToggle.loadUserPreference detected
            (PerformanceToggle.saveUserPreference m s) = m).
  { intros m s. unfold PerformanceToggle.loadUserPreference,
      PerformanceToggle.saveUserPreference.
    rewrite lookup_insert_eq. by destruct m. }
  split; [apply Hload|]. unfold PerformanceToggle.togglePerformanceMode.
  split; [apply Hload|]. rewrite negb_involutive. f_equal.
  unfold PerformanceToggle.saveUserPreference. apply insert_insert_eq.
Qed.

Lemma take_app_take {A} (n m : nat) (a b : list A) :
  (n <= m)%nat -> take n (a ++ take m b) = take n (a ++ b).
Proof.
  revert n. induction a as [|x a IH]; intros n Hnm; cbn.
  - rewrite take_take. by rewrite Nat.min_l.
  - destruct n as [|n]; [done|]. cbn. f_equal. apply IH. lia.
Qed.

Lemma searches_stored (queries : list string) (w : world) (old : list json) :
  storedArray "forum_recent_searches" (localStorage w) = JS.Ok old ->
  storedArray "forum_recent_searches"
    (localStorage (foldl (fun w q => perform (TrackSearch q) w) w queries))
  = JS.Ok (match queries with
           | [] => old
           | _ => take 10 ((JString <$> reverse queries) ++ old)
           end).
Proof.
  revert w old. induction queries as [|q qs IH]; intros w old Hold; [done|].
  cbn [foldl].
  assert (Hstep : storedArray "forum_recent_searches"
            (localStorage (perform (TrackSearch q) w))
          = JS.Ok (take 10 (JString q :: old))).
  { unfold perform, ForumManager.trackSearchAnalytics. cbn [localStorage].
    rewrite Hold. cbn [orUnchanged]. unfold storedArray.
    by rewrite lookup_insert_eq. }
  rewrite (IH _ _ Hstep). f_equal.
  destruct qs as [|q' qs]; [done|].
  rewrite take_app_take by lia.
  rewrite (reverse_cons (q' :: qs) q), fmap_app, <- app_assoc. done.
Qed.

(** X28.  With no searches stored at first, the
    stored recent searches are at any time the last ten queries, the
    latest first. *)
Theorem recent_searches_last_ten (queries : list string) (w : world) :
  localStorage w !! "forum_recent_searches" = None ->
  storedArray "forum_recent_searches"
    (localStorage (foldl (fun w q => perform (TrackSearch q) w) w queries))
  = JS.Ok (JString <$> take 10 (reverse queries)).
Proof.
  intros Hnone.
  rewrite (searches_stored queries w []) by (unfold storedArray; by rewrite Hnone).
  f_equal. destruct queries as [|q qs]; [done|].
  by rewrite app_nil_r, fmap_take.
Qed.

Lemma recent_searches_last_ten_witness :
  storedArray "forum_recent_searches"
    (localStorage (foldl (fun w q => perform (TrackSearch q) w)
                     (World DrawingContext.initialState ∅) ["waves"; "optics"]))
  = JS.Ok [JString "optics"; JString "waves"].
Proof.
  exact (recent_searches_last_ten ["waves"; "optics"]
           (World DrawingContext.initialState ∅) (lookup_empty _)).
Defined.

Lemma perform_keeps_token (op : operation) (w : world) :
  ForumManager.isUserLoggedIn (localStorage w) = true ->
  ForumManager.isUserLoggedIn (localStorage (perform op w)) = true.
Proof.
  unfold ForumManager.isUserLoggedIn. rewrite !bool_decide_eq_true.
  intros Hin. destruct op; unfold perform; cbn [localStorage].
  - done.
  - unfold ContactManager.autoSaveFormData. by rewrite lookup_insert_is_Some; right.
  - unfold ContactManager.clearSavedFormData. by rewrite lookup_delete_is_Some.
  - unfold ContactManager.submitContactForm.
    destruct (storedArray _ _); [|done].
    by rewrite lookup_insert_is_Some; right.
  - unfold AuthManager.autoSaveFormData. by rewrite lookup_insert_is_Some; right.
  - unfold AuthManager.clearSavedFormData. by rewrite lookup_delete_is_Some.
  - unfold AuthManager.simulateRegistration.
    rewrite !lookup_insert_is_Some. right. split; [done|]. by right.
  - unfold AuthManager.simulateLogin. case_decide; [|done]. cbn.
    rewrite !lookup_insert_is_Some. right. split; [done|]. by left.
  - unfold PerformanceToggle.saveUserPreference.
    by rewrite lookup_insert_is_Some; right.
  - unfold PhysicsLearnApp.toggleTheme. cbn.
    by rewrite lookup_insert_is_Some; right.
  - unfold ForumManager.trackSearchAnalytics.
    destruct (storedArray _ _); [|done]. cbn.
    by rewrite lookup_insert_is_Some; right.
Qed.

(** X29.  After a login with the demo
    credentials the forum takes the user as logged in, and so it does
    after any operations that follow: none of them removes the token. *)
Theorem login_is_kept (credentials : formData) (now : string)
    (ops : list operation) (w : world) :
  getKey "email" credentials = Some "demo@physicslearn.com" ->
  getKey "password" credentials = Some "demo123" ->
  ForumManager.isUserLoggedIn
    (localStorage (foldl (fun w op => perform op w)
                     (perform (Login credentials now) w) ops)) = true.
Proof.
  intros He Hp.
  assert (H0 : ForumManager.isUserLoggedIn
                 (localStorage (perform (Login credentials now) w)) = true).
  { unfold ForumManager.isUserLoggedIn, perform, AuthManager.simulateLogin.
    cbn [localStorage]. rewrite decide_True by done. cbn.
    apply bool_decide_eq_true. rewrite !lookup_insert_is_Some.
    right. split; [done|]. by left. }
  revert H0. generalize (perform (Login credentials now) w) as w0.
  induction ops as [|op ops IH]; intros w0 H0; [done|].
  cbn [foldl]. apply IH. by apply perform_keeps_token.
Qed.

Lemma login_is_kept_witness :
  ForumManager.isUserLoggedIn
    (localStorage (foldl (fun w op => perform op w)
       (perform (Login [("email", "demo@physicslearn.com"); ("password", "demo123")]
                  "1700000000000")
          (World DrawingContext.initialState ∅))
       [ContactClearDraft; RegistrationClearDraft; ToggleTheme false])) = true.
Proof.
  apply (login_is_kept
           [("email", "demo@physicslearn.com"); ("password", "demo123")]
           "1700000000000" [ContactClearDraft; RegistrationClearDraft; ToggleTheme false]
           (World DrawingContext.initialState ∅)); reflexivity.
Defined.

End Preferences.

(** ** The objects and the selection of a drawing *)

Section DrawingInvariants.
Import DrawingContext.

Lemma drawingReducer_objects_count (s : state) (a : action) :
  (length (objects (drawingReducer s a)) <=
   length (objects s) + match a with ADD_OBJECT _ => 1 | _ => 0 end)%nat.
Proof.
  destruct a; cbn; try lia.
  - rewrite length_app. cbn. lia.
  - rewrite length_map. lia.
  - pose proof (length_filter (fun obj => id obj ≠ payload) (objects s)). lia.
Qed.

(** X30.  In a state reached from the initial state no
    id is selected twice, and there are at most as many objects as
    [ADD_OBJECT] actions were dispatched. *)
Theorem drawing_state_invariants (actions : list action) :
  let s := dispatchAll initialState actions in
  NoDup (selectedObjects s) /\
  (length (objects s) <=
   length (List.filter (fun a => match a with ADD_OBJECT _ => true | _ => false end)
             actions))%nat.
Proof.
  cbn zeta. unfold dispatchAll.
  enough (Hgen : forall s, NoDup (selectedObjects s) ->
            NoDup (selectedObjects (foldl drawingReducer s actions)) /\
            (length (objects (foldl drawingReducer s actions)) <=
             length (objects s) +
             length (List.filter
                       (fun a => match a with ADD_OBJECT _ => true | _ => false end)
                       actions))%nat).
  { destruct (Hgen initialState) as [Hn Hc]; [constructor|]. by split. }
  induction actions as [|a actions IH]; intros s Hs.
  - cbn. split; [done|lia].
  - cbn [foldl].
    destruct (IH (drawingReducer s a)) as [Hn Hc].
    + by apply drawingReducer_selection_NoDup.
    + split; [done|]. pose proof (drawingReducer_objects_count s a).
      destruct a; cbn [List.filter length] in *; lia.
Qed.

End DrawingInvariants.
